(** * Block executor of the rollup node (package [state])

    A shallow embedding of [BlockExecutor] and of its operations
    [CreateBlock], [ApplyBlock], [Commit], [validate], [execute],
    [updateState], [commit], [publishEvents] and their helpers, followed
    by the properties of the executor stated in the specification.
    [InitChain] and [VerifyFraudProof] only forward a request to the
    application and are not part of the embedding.  The generators of
    random transactions of the package [testfactory] are embedded as well,
    and their properties close the development.

    Conventions of the embedding.
    - Go integers are [Z]; [int64] arithmetic wraps ([int64_add]), and the
      conversions [uint64(..)] are written out.
    - A byte slice is a [list byte]; [bytes.Equal] does not tell a nil slice
      from an empty one, and neither does the list.  Where the code tests a
      slice against nil ([RawRootsList], [deliverTxRequests]) the slice is an
      [option].
    - A Go pointer that the code tests or that may be nil is an [option];
      validator sets are shared objects and live in a store ([Heap]).
    - A function runs to [Ok], to an error ([Err]) or to a run-time panic
      ([Panic]).
    - The collaborators (application connection, mempool, event bus,
      fraud-proof service, clock) are an environment [Env] whose answers may
      depend on everything that happened before; every interaction is
      recorded, in order, in a list of [Effect]s. *)

From Stdlib Require Import String Ascii DecimalString.
From Stdlib Require Import ZArith List Bool Lia.
Import ListNotations.

Set Implicit Arguments.

(** ** Bytes and machine integers *)

Definition bytes := list Byte.byte.

Definition bytes_eq_dec : forall a b : bytes, {a = b} + {a <> b} :=
  list_eq_dec Byte.byte_eq_dec.

(** [bytes.Equal] *)
Definition bytes_Equal (a b : bytes) : bool :=
  if bytes_eq_dec a b then true else false.

(** [make([]byte, n)] *)
Definition make_bytes (n : nat) : bytes := repeat Byte.x00 n.

(** The builtin [copy(dst, src)]: the first [min (len dst) (len src)]
    elements of [dst] are overwritten. *)
Definition copy (dst src : bytes) : bytes :=
  firstn (Nat.min (length dst) (length src)) src
  ++ skipn (Nat.min (length dst) (length src)) dst.

Definition int64_wrap (z : Z) : Z := ((z + 2 ^ 63) mod 2 ^ 64 - 2 ^ 63)%Z.
Definition int64_add (a b : Z) : Z := int64_wrap (a + b).
Definition to_uint64 (z : Z) : Z := (z mod 2 ^ 64)%Z.
Definition to_uint32 (z : Z) : Z := (z mod 2 ^ 32)%Z.

(** ** Errors, panics and results *)

(** A Go [error] value: what the code observes of it is its message
    ([Error()]) and, for [%w], the error it wraps. *)
Inductive error : Type :=
| errorString (msg : string)
| wrapError (msg : string) (inner : error).

Definition Error (e : error) : string :=
  match e with
  | errorString m => m
  | wrapError m _ => m
  end.

Definition errors_New (msg : string) : error := errorString msg.

(** [fmt.Sprintf] restricted to the two-character verbs the package uses
    ([%d], [%v], [%s], [%w], [%X]); the arguments arrive already rendered. *)
Fixpoint Sprintf (format : string) (args : list string) : string :=
  match format with
  | EmptyString => EmptyString
  | String c rest =>
      if Ascii.eqb c "%"%char then
        match rest with
        | EmptyString => String c EmptyString
        | String _ rest' =>
            match args with
            | a :: args' => (a ++ Sprintf rest' args')%string
            | [] => ("%!v(MISSING)" ++ Sprintf rest' [])%string
            end
        end
      else String c (Sprintf rest args)
  end.

Definition fmt_Errorf (format : string) (args : list string) : error :=
  errorString (Sprintf format args).

(** [fmt.Errorf] with a [%w] verb: the result unwraps to [inner]. *)
Definition fmt_Errorf_w (format : string) (args : list string) (inner : error) : error :=
  wrapError (Sprintf format args) inner.

Definition show_int (z : Z) : string := NilZero.string_of_int (Z.to_int z).
Definition show_nat (n : nat) : string := show_int (Z.of_nat n).

Definition ErrFraudProofGenerated : error :=
  errors_New "failed to ApplyBlock: halting node due to fraud".
Definition ErrEmptyValSetGenerated : error :=
  errors_New "applying the validator changes would result in empty set".
Definition ErrAddingValidatorToBased : error :=
  errors_New "cannot add validators to empty validator set".

Inductive panic : Type :=
| NilDereference
| IndexOutOfRange (index len : nat)
| PanicString (msg : string).

Inductive result (A : Type) : Type :=
| Ok (a : A)
| Err (e : error)
| Panic (p : panic).
Arguments Err {A} e.
Arguments Panic {A} p.

(** ** Data model

    Records follow the Go structs field by field; each lives in a module of
    the struct's name, so that [State.AppHash] and [Header.AppHash] keep the
    names of the source. *)

Definition Hash := bytes.
Definition Tx := bytes.
Definition Txs := list Tx.
(** A [time.Time]; [0] stands for the zero [time.Time]. *)
Definition Time := Z.
(** Opaque payloads of the consensus layer. *)
Definition abci_Event := string.
Definition Evidence := bytes.
Definition Misbehavior := bytes.
Definition FraudProof := bytes.

Module Version.
Record t := mk { Block : Z; App : Z }.
Definition zero : t := mk 0%Z 0%Z.
End Version.

Module BaseHeader.
Record t := mk { ChainID : string; Height : Z; Time : Z }.
End BaseHeader.

Module Header.
Record t := mk {
    Version : Version.t;
    BaseHeader : BaseHeader.t;
    LastHeaderHash : Hash;
    LastCommitHash : Hash;
    DataHash : Hash;
    ConsensusHash : Hash;
    AppHash : Hash;
    LastResultsHash : Hash;
    AggregatorsHash : Hash;
    ProposerAddress : bytes }.
Definition set_LastCommitHash (v : Hash) (h : t) : t :=
    mk (Version h) (BaseHeader h) (LastHeaderHash h) v (DataHash h)
       (ConsensusHash h) (AppHash h) (LastResultsHash h) (AggregatorsHash h)
       (ProposerAddress h).
Definition set_LastHeaderHash (v : Hash) (h : t) : t :=
    mk (Version h) (BaseHeader h) v (LastCommitHash h) (DataHash h)
       (ConsensusHash h) (AppHash h) (LastResultsHash h) (AggregatorsHash h)
       (ProposerAddress h).
Definition set_AggregatorsHash (v : Hash) (h : t) : t :=
    mk (Version h) (BaseHeader h) (LastHeaderHash h) (LastCommitHash h)
       (DataHash h) (ConsensusHash h) (AppHash h) (LastResultsHash h) v
       (ProposerAddress h).
End Header.

Module Commit.
Record t := mk { Signatures : list bytes }.
End Commit.

Module SignedHeader.
Record t := mk { Header : Header.t; Commit : Commit.t }.
End SignedHeader.

Module IntermediateStateRoots.
  (** [RawRootsList [][]byte]; [None] is the nil slice. *)
Record t := mk { RawRootsList : option (list bytes) }.
End IntermediateStateRoots.

Module Data.
Record t := mk {
    Txs : Txs;
    IntermediateStateRoots : IntermediateStateRoots.t }.
End Data.

Module Block.
Record t := mk { SignedHeader : SignedHeader.t; Data : Data.t }.
Definition header (b : t) : Header.t := SignedHeader.Header (SignedHeader b).
Definition txs (b : t) : Txs := Data.Txs (Data b).
Definition isrs (b : t) : option (list bytes) :=
    IntermediateStateRoots.RawRootsList (Data.IntermediateStateRoots (Data b)).
  (** [block.Data.IntermediateStateRoots.RawRootsList = v] *)
Definition set_isrs (v : option (list bytes)) (b : t) : t :=
    mk (SignedHeader b) (Data.mk (Data.Txs (Data b)) (IntermediateStateRoots.mk v)).
End Block.

(** *** Consensus-layer types *)

Module PubKey.
  (** A [crypto.PubKey], of which the executor reads [Type()]. *)
Record t := mk { Type_ : string; Bytes : bytes }.
End PubKey.

Definition PublicKeyProto := bytes.

Module Validator.
Record t := mk {
    Address : bytes;
    PubKey : PubKey.t;
    VotingPower : Z;
    ProposerPriority : Z }.
End Validator.

Module ValidatorSet.
Record t := mk {
    Validators : list Validator.t;
    Proposer : option Validator.t;
    totalVotingPower : Z }.
End ValidatorSet.

Module ValidatorUpdate.
Record t := mk { PubKey : PublicKeyProto; Power : Z }.
End ValidatorUpdate.

Module BlockParams.
Record t := mk { MaxBytes : Z; MaxGas : Z }.
End BlockParams.

Module ValidatorParams.
Record t := mk { PubKeyTypes : list string }.
End ValidatorParams.

Module ConsensusParams.
Record t := mk { Block : BlockParams.t; Validator : ValidatorParams.t }.
Definition zero : t := mk (BlockParams.mk 0%Z 0%Z) (ValidatorParams.mk []).
End ConsensusParams.

Module ExecTxResult.
Record t := mk {
    Code : Z;
    Data : bytes;
    Log : string;
    Info : string;
    GasWanted : Z;
    GasUsed : Z;
    Events : list abci_Event;
    Codespace : string }.
End ExecTxResult.

Module ResponseDeliverTx.
Record t := mk {
    Code : Z;
    Data : bytes;
    Log : string;
    Info : string;
    GasWanted : Z;
    GasUsed : Z;
    Events : list abci_Event;
    Codespace : string }.
End ResponseDeliverTx.

Module ResponseBeginBlock.
Record t := mk { Events : list abci_Event }.
End ResponseBeginBlock.

Module ResponseEndBlock.
Record t := mk {
    ValidatorUpdates : list ValidatorUpdate.t;
    ConsensusParamUpdates : option ConsensusParams.t;
    Events : list abci_Event }.
End ResponseEndBlock.

Module LegacyABCIResponses.
  (** [DeliverTxs []*abci.ExecTxResult], [EndBlock] and [BeginBlock] are
      pointers: [None] is nil. *)
Record t := mk {
    DeliverTxs : list (option ExecTxResult.t);
    EndBlock : option ResponseEndBlock.t;
    BeginBlock : option ResponseBeginBlock.t }.
End LegacyABCIResponses.

Module ResponseFinalizeBlock.
Record t := mk {
    Events : list abci_Event;
    TxResults : list (option ExecTxResult.t);
    ValidatorUpdates : list ValidatorUpdate.t;
    ConsensusParamUpdates : option ConsensusParams.t;
    AppHash : bytes }.
End ResponseFinalizeBlock.

Module ResponseCommit.
Record t := mk { RetainHeight : Z }.
End ResponseCommit.

Module abci_Validator.
Record t := mk { Address : bytes; Power : Z }.
End abci_Validator.

Module VoteInfo.
Record t := mk { Validator : abci_Validator.t; BlockIdFlag : Z }.
End VoteInfo.

Module CommitInfo.
Record t := mk { Round : Z; Votes : list VoteInfo.t }.
  (** [abci.CommitInfo{}] *)
Definition zero : t := mk 0%Z [].
End CommitInfo.

Module ABCIHeader.
  (** The consensus-layer header ([cmproto.Header], [cmtypes.Header]). *)
Record t := mk {
    ChainID : string;
    Height : Z;
    Time : Time;
    ValidatorsHash : bytes;
    NextValidatorsHash : bytes;
    AppHash : bytes;
    ProposerAddress : bytes }.
Definition set_ChainID (v : string) (h : t) : t :=
    mk v (Height h) (Time h) (ValidatorsHash h) (NextValidatorsHash h)
       (AppHash h) (ProposerAddress h).
Definition set_ValidatorsHash (v : bytes) (h : t) : t :=
    mk (ChainID h) (Height h) (Time h) v (NextValidatorsHash h)
       (AppHash h) (ProposerAddress h).
End ABCIHeader.

Module CommitSig.
Record t := mk {
    BlockIDFlag : Z;
    ValidatorAddress : bytes;
    Timestamp : Time;
    Signature : bytes }.
End CommitSig.

Module ABCICommit.
  (** [cmtypes.Commit] *)
Record t := mk {
    Height : Z;
    Round : Z;
    BlockID : bytes;
    Signatures : list CommitSig.t }.
  (** [Size()] is the number of signatures. *)
Definition Size (c : t) : nat := length (Signatures c).
End ABCICommit.

Module ABCIBlock.
  (** [cmtypes.Block]; its header is embedded, so [abciBlock.Height] is
      [ABCIHeader.Height (Header abciBlock)]. *)
Record t := mk {
    Header : ABCIHeader.t;
    Txs : list bytes;
    Evidence : list Evidence;
    LastCommit : option ABCICommit.t }.
Definition set_Header (v : ABCIHeader.t) (b : t) : t :=
    mk v (Txs b) (Evidence b) (LastCommit b).
End ABCIBlock.

Module RequestBeginBlock.
Record t := mk {
    Hash : bytes;
    Header : ABCIHeader.t;
    LastCommitInfo : CommitInfo.t;
    ByzantineValidators : list Misbehavior }.
End RequestBeginBlock.

Module RequestDeliverTx.
Record t := mk { Tx : bytes }.
End RequestDeliverTx.

Module RequestEndBlock.
Record t := mk { Height : Z }.
End RequestEndBlock.

Module RequestGenerateFraudProof.
  (** [DeliverTxRequests] is a slice ([None]: nil) and [EndBlockRequest] a
      pointer. *)
Record t := mk {
    BeginBlockRequest : RequestBeginBlock.t;
    DeliverTxRequests : option (list RequestDeliverTx.t);
    EndBlockRequest : option RequestEndBlock.t }.
End RequestGenerateFraudProof.

Module RequestFinalizeBlock.
Record t := mk {
    Hash : bytes;
    NextValidatorsHash : bytes;
    ProposerAddress : bytes;
    Height : Z;
    Time : Time;
    DecidedLastCommit : CommitInfo.t;
    Misbehavior : list Misbehavior;
    Txs : list bytes }.
End RequestFinalizeBlock.

Module TxResult.
Record t := mk { Height : Z; Index : Z; Tx : bytes; Result : ExecTxResult.t }.
End TxResult.

Module EventDataNewBlock.
Record t := mk {
    Block : ABCIBlock.t;
    ResultFinalizeBlock : ResponseFinalizeBlock.t }.
End EventDataNewBlock.

(** *** Chain state *)

(** Validator sets are reached through pointers: a [loc] is the address of
    a set in the store, and a pointer field is an [option loc]. *)
Definition loc := nat.
Definition Heap := list ValidatorSet.t.

Definition deref (h : Heap) (p : option loc) : option ValidatorSet.t :=
  match p with
  | Some l => nth_error h l
  | None => None
  end.

(** Allocation of a new object: its address and the extended store. *)
Definition alloc (h : Heap) (v : ValidatorSet.t) : loc * Heap :=
  (length h, h ++ [v]).

Fixpoint store (h : Heap) (l : loc) (v : ValidatorSet.t) : Heap :=
  match h, l with
  | [], _ => []
  | _ :: h', O => v :: h'
  | x :: h', S l' => x :: store h' l' v
  end.

Module StateVersion.
  (** [cmstate.Version] *)
Record t := mk { Consensus : Version.t; Software : string }.
End StateVersion.

Module BlockID.
Record t := mk { Hash : bytes }.
End BlockID.

Module State.
  (** Modelled from the spec: the declaration of [types.State] is not among
      the sources; the fields are those of the spec's data model, which are
      the ones [updateState] and [validate] name.  The hash fields are
      slices, as the code shows (it makes them with [make(types.Hash, 32)]
      and assigns them to the hash fields of a header): their zero value is
      the nil slice. *)
Record t := mk {
    Version : StateVersion.t;
    ChainID : string;
    InitialHeight : Z;
    LastBlockHeight : Z;
    LastBlockID : BlockID.t;
    LastBlockTime : Time;
    NextValidators : option loc;
    Validators : option loc;
    LastValidators : option loc;
    LastHeightValidatorsChanged : Z;
    ConsensusParams : ConsensusParams.t;
    LastHeightConsensusParamsChanged : Z;
    LastResultsHash : Hash;
    AppHash : Hash }.

  (** [types.State{}] *)
Definition zero : t :=
    mk (StateVersion.mk Version.zero "") "" 0%Z 0%Z (BlockID.mk []) 0%Z
       None None None 0%Z ConsensusParams.zero 0%Z [] [].

Definition set_AppHash (v : Hash) (s : t) : t :=
    mk (Version s) (ChainID s) (InitialHeight s) (LastBlockHeight s)
       (LastBlockID s) (LastBlockTime s) (NextValidators s) (Validators s)
       (LastValidators s) (LastHeightValidatorsChanged s) (ConsensusParams s)
       (LastHeightConsensusParamsChanged s) (LastResultsHash s) v.
End State.

Module ProtoState.
  (** What [ApplyBlock] reads of [state.ToProto()]. *)
Record t := mk { ConsensusParams_Validator : ValidatorParams.t }.
End ProtoState.

(** *** The executor *)

Definition EventBus := unit.
Definition ProofService := unit.

Module BlockExecutor.
  (** [proxyApp], [mempool] and [logger] are collaborators and belong to
      the environment; [eventBus] and [FraudService] are pointers the code
      tests or dereferences. *)
Record t := mk {
    proposerAddress : bytes;
    namespaceID : bytes;
    chainID : string;
    fraudProofsEnabled : bool;
    eventBus : option EventBus;
    FraudService : option ProofService }.
End BlockExecutor.

(** [NewBlockExecutor]: the fraud-proof service is left nil. *)
Definition NewBlockExecutor (proposerAddress namespaceID : bytes) (chainID : string)
    (fraudProofsEnabled : bool) (eventBus : option EventBus) : BlockExecutor.t :=
  BlockExecutor.mk proposerAddress namespaceID chainID fraudProofsEnabled eventBus None.

Definition SetFraudProofService (e : BlockExecutor.t) (svc : ProofService) : BlockExecutor.t :=
  BlockExecutor.mk (BlockExecutor.proposerAddress e) (BlockExecutor.namespaceID e)
    (BlockExecutor.chainID e) (BlockExecutor.fraudProofsEnabled e)
    (BlockExecutor.eventBus e) (Some svc).

(** ** Collaborators *)

(** The functions of the packages the executor imports ([types],
    [conv/abci], the consensus library): hashes, conversions and
    validator-set arithmetic.  They are parameters of the development. *)
Record Lib : Type := {
  (** [block.ValidateBasic()] *)
  Block_ValidateBasic : Block.t -> option error;
  (** [block.Hash()] *)
  Block_Hash : Block.t -> Hash;
  (** [header.Hash()], [header.Height()], [header.Time()] *)
  Header_Hash : Header.t -> Hash;
  Header_Height : Header.t -> Z;
  Header_Time : Header.t -> Time;
  (** [vals.Hash()] *)
  ValidatorSet_Hash : ValidatorSet.t -> bytes;
  (** [vals.UpdateWithChangeSet(changes)]: the receiver afterwards, and the
      error *)
  UpdateWithChangeSet : ValidatorSet.t -> list Validator.t -> ValidatorSet.t * option error;
  (** [vals.IncrementProposerPriority(times)] *)
  IncrementProposerPriority : ValidatorSet.t -> Z -> ValidatorSet.t;
  (** [cmtypes.NewResults(deliverTxs).Hash()], as a function of the results
      the entries of [deliverTxs] point to *)
  Results_Hash : list ExecTxResult.t -> bytes;
  ToABCIHeaderPB : Header.t -> result ABCIHeader.t;
  (** [abciconv.ToABCIBlock]: the pointer and the error it returns *)
  ToABCIBlock : Block.t -> option ABCIBlock.t * option error;
  ToABCICommit : Commit.t -> Z -> Hash -> ABCICommit.t;
  ABCICommit_Hash : ABCICommit.t -> bytes;
  Evidence_ToABCI : list Evidence -> list Misbehavior;
  TM2PB_Validator : Validator.t -> abci_Validator.t;
  (** [state.ToProto()] *)
  State_ToProto : Heap -> State.t -> result ProtoState.t;
  PubKeyFromProto : PublicKeyProto -> result PubKey.t;
  IsValidPubkeyType : ValidatorParams.t -> string -> bool;
  PB2TM_ValidatorUpdates : list ValidatorUpdate.t -> result (list Validator.t);
  (** the [%v] rendering of a validator update *)
  ValidatorUpdate_String : ValidatorUpdate.t -> string
}.

Inductive level : Type := LogDebug | LogInfo | LogError.

(** One interaction of the executor with a collaborator, with the answer
    it received.  [ReadIsr index] records the slice access
    [currentIsrs[index]] of [isFraudProofTrigger]. *)
Inductive Effect : Type :=
| MempoolLock
| MempoolUnlock
| MempoolFlushAppConn (r : option error)
| MempoolReapMaxBytesMaxGas (maxBytes maxGas : Z) (txs : Txs)
| MempoolUpdate (height : Z) (txs : Txs) (results : list (option ExecTxResult.t))
    (preCheckMaxBytes postCheckMaxGas : Z) (r : option error)
| MempoolSetResponseCallback
| AppFinalizeBlock (req : RequestFinalizeBlock.t) (r : result ResponseFinalizeBlock.t)
| AppCommit (r : result ResponseCommit.t)
| AppGetAppHash (r : result bytes)
| AppGenerateFraudProof (req : RequestGenerateFraudProof.t) (r : result (option FraudProof))
| FraudServiceBroadcast (proof : FraudProof) (r : option error)
| PublishEventNewBlock (d : EventDataNewBlock.t) (r : option error)
| PublishEventNewBlockHeader (h : ABCIHeader.t) (r : option error)
| PublishEventNewEvidence (ev : Evidence) (height : Z) (r : option error)
| PublishEventTx (t : TxResult.t) (r : option error)
| TimeNowUnix (unix : Z)
| Log (l : level) (msg : string)
| ReadIsr (index : nat).

Definition Trace := list Effect.

(** The collaborators.  Each answer is a function of the request and of
    the history of interactions, so that an application, a mempool or an
    event bus may keep any state. *)
Record Env : Type := {
  mempool_ReapMaxBytesMaxGas : Trace -> Z -> Z -> Txs;
  mempool_FlushAppConn : Trace -> option error;
  mempool_Update : Trace -> Z -> Txs -> list (option ExecTxResult.t) -> Z -> Z -> option error;
  app_FinalizeBlock : Trace -> RequestFinalizeBlock.t -> result ResponseFinalizeBlock.t;
  app_Commit : Trace -> result ResponseCommit.t;
  app_GetAppHash : Trace -> result bytes;
  app_GenerateFraudProof : Trace -> RequestGenerateFraudProof.t -> result (option FraudProof);
  fraud_Broadcast : Trace -> FraudProof -> option error;
  bus_PublishEventNewBlock : Trace -> EventDataNewBlock.t -> option error;
  bus_PublishEventNewBlockHeader : Trace -> ABCIHeader.t -> option error;
  bus_PublishEventNewEvidence : Trace -> Evidence -> Z -> option error;
  bus_PublishEventTx : Trace -> TxResult.t -> option error;
  time_Now_Unix : Trace -> Z
}.

(** ** The monad of the executor

    A computation reads the history so far and returns its result with the
    effects it added. *)
Definition M (A : Type) : Type := Trace -> result A * Trace.

Definition ret {A} (a : A) : M A := fun _ => (Ok a, []).

Definition bind {A B} (m : M A) (f : A -> M B) : M B :=
  fun hist =>
    match m hist with
    | (Ok a, t1) => let '(r, t2) := f a (hist ++ t1) in (r, t1 ++ t2)
    | (Err e, t1) => (Err e, t1)
    | (Panic p, t1) => (Panic p, t1)
    end.

Declare Scope exec_scope.
Delimit Scope exec_scope with exec.
Notation "x <- m ;; k" := (bind m (fun x => k))
  (at level 100, m at next level, right associativity) : exec_scope.
Notation "m ;;; k" := (bind m (fun _ => k))
  (at level 100, right associativity) : exec_scope.
Open Scope exec_scope.

Definition fail {A} (e : error) : M A := fun _ => (Err e, []).
Definition throw {A} (p : panic) : M A := fun _ => (Panic p, []).
Definition lift {A} (r : result A) : M A := fun _ => (r, []).
Definition emit (ev : Effect) : M unit := fun _ => (Ok tt, [ev]).

(** A call whose answer is a value or an error. *)
Definition call {A} (h : Trace -> result A) (ev : result A -> Effect) : M A :=
  fun hist => let r := h hist in (r, [ev r]).

(** A call whose answer the caller inspects itself. *)
Definition call_r {A} (h : Trace -> result A) (ev : result A -> Effect) : M (result A) :=
  fun hist => let r := h hist in (Ok r, [ev r]).

(** A call that returns only an [error]; the error is handed to the
    caller, as in [err := f()]. *)
Definition call_err (h : Trace -> option error) (ev : option error -> Effect) : M (option error) :=
  fun hist => let r := h hist in (Ok r, [ev r]).

(** [if err != nil { return err }] *)
Definition check (r : option error) : M unit :=
  match r with
  | None => ret tt
  | Some err => fail err
  end.

(** [defer d()] around [m]: [d] runs when [m] returns, fails or panics. *)
Definition defer {A} (m : M A) (d : M unit) : M A :=
  fun hist =>
    let '(r, t1) := m hist in
    let '(_, t2) := d (hist ++ t1) in
    (r, t1 ++ t2).

(** [multierr.Append] *)
Definition multierr_Append (a b : option error) : option error :=
  match a, b with
  | None, _ => b
  | _, None => a
  | Some x, Some y => Some (errorString (Error x ++ "; " ++ Error y))
  end.

(** [cmtypes.NewResults] reads every result through its pointer, in
    order, before anything is hashed: a nil entry is a nil dereference. *)
Fixpoint derefAll {A} (l : list (option A)) : result (list A) :=
  match l with
  | [] => Ok []
  | None :: _ => Panic NilDereference
  | Some x :: rest =>
      match derefAll rest with
      | Ok xs => Ok (x :: xs)
      | Err e => Err e
      | Panic p => Panic p
      end
  end.

(** ** The executor's functions *)

(** [toRollkitTxs] and [fromRollkitTxs] convert between two slice types of
    byte strings, element by element. *)
Definition toRollkitTxs (txs : list bytes) : Txs := map (fun tx => tx) txs.
Definition fromRollkitTxs (rollkitTxs : Txs) : list bytes := map (fun tx => tx) rollkitTxs.

(** [&cmtypes.ValidatorSet{Validators: make([]*cmtypes.Validator, 0), Proposer: nil}] *)
Definition emptyValidatorSet : ValidatorSet.t := ValidatorSet.mk [] None 0%Z.

(** The variables of [execute] that [genAndGossipFraudProofIfNeeded]
    captures and updates. *)
Record locals : Type := mkLocals {
  ISRs : list bytes;
  currentIsrIndex : nat }.

(** The variables of [execute] that the response callback captures. *)
Record callbackLocals : Type := mkCallbackLocals {
  txIdx : nat;
  validTxs : nat;
  invalidTxs : nat;
  cb_DeliverTxs : list (option ExecTxResult.t) }.

Inductive abci_Response : Type :=
| Response_DeliverTx (r : ResponseDeliverTx.t)
| Response_Other.

Definition CodeTypeOK : Z := 0%Z.

Fixpoint list_set {A} (l : list A) (i : nat) (v : A) : list A :=
  match l, i with
  | [], _ => []
  | _ :: l', O => v :: l'
  | x :: l', S i' => x :: list_set l' i' v
  end.

(** The callback [execute] installs on the mempool connection.  The
    executor itself sends no [DeliverTx] request, so within a call of
    [execute] the connection has no response to hand to it. *)
Definition responseCallback (res : abci_Response) (c : callbackLocals) : M callbackLocals :=
  match res with
  | Response_DeliverTx txRes =>
      c1 <- (if (ResponseDeliverTx.Code txRes =? CodeTypeOK)%Z
             then ret (mkCallbackLocals (txIdx c) (S (validTxs c)) (invalidTxs c) (cb_DeliverTxs c))
             else (emit (Log LogDebug "Invalid tx") ;;;
                   ret (mkCallbackLocals (txIdx c) (validTxs c) (S (invalidTxs c)) (cb_DeliverTxs c)))) ;;
      if (txIdx c1 <? length (cb_DeliverTxs c1))%nat then
        ret (mkCallbackLocals (S (txIdx c1)) (validTxs c1) (invalidTxs c1)
               (list_set (cb_DeliverTxs c1) (txIdx c1)
                  (Some (ExecTxResult.mk
                           (ResponseDeliverTx.Code txRes) (ResponseDeliverTx.Data txRes)
                           (ResponseDeliverTx.Log txRes) (ResponseDeliverTx.Info txRes)
                           (ResponseDeliverTx.GasWanted txRes) (ResponseDeliverTx.GasUsed txRes)
                           (ResponseDeliverTx.Events txRes) (ResponseDeliverTx.Codespace txRes)))))
      else throw (IndexOutOfRange (txIdx c1) (length (cb_DeliverTxs c1)))
  | Response_Other => ret c
  end.

Section Executor.

Variable L : Lib.
Variable E : Env.

(** *** [validate] *)

Definition validate (h : Heap) (state : State.t) (block : Block.t) : result unit :=
  let hd := Block.header block in
  match Block_ValidateBasic L block with
  | Some err => Err err
  | None =>
    if negb (Version.App (Header.Version hd) =? Version.App (StateVersion.Consensus (State.Version state)))%Z
       || negb (Version.Block (Header.Version hd) =? Version.Block (StateVersion.Consensus (State.Version state)))%Z
    then Err (errors_New "block version mismatch")
    else if (State.LastBlockHeight state <=? 0)%Z
            && negb (Header_Height L hd =? State.InitialHeight state)%Z
    then Err (errors_New "initial block height mismatch")
    else if (0 <? State.LastBlockHeight state)%Z
            && negb (Header_Height L hd =? int64_add (State.LastBlockHeight state) 1)%Z
    then Err (errors_New "block height mismatch")
    else if negb (bytes_Equal (Header.AppHash hd) (State.AppHash state))
    then Err (errors_New "AppHash mismatch")
    else if negb (bytes_Equal (Header.LastResultsHash hd) (State.LastResultsHash state))
    then Err (errors_New "LastResultsHash mismatch")
    else
      match deref h (State.Validators state) with
      | None => Panic NilDereference
      | Some vals =>
          if negb (bytes_Equal (Header.AggregatorsHash hd) (ValidatorSet_Hash L vals))
          then Err (errors_New "AggregatorsHash mismatch")
          else Ok tt
      end
  end.

(** *** [updateState] *)

(** The validator-set part of [updateState]: either the early return
    (the error, with the store as it is then), or [nValSet], the set it
    points to, the store and [lastHeightValSetChanged]. *)
Definition updateState_nValSet (h : Heap) (state : State.t) (block : Block.t)
    (validatorUpdates : list Validator.t) (nv0 : ValidatorSet.t)
  : (error * Heap) + (loc * ValidatorSet.t * Heap * Z) :=
  let '(nValSet0, h0) := alloc h nv0 in
  let lastHeightValSetChanged := State.LastHeightValidatorsChanged state in
  if (0 <? length (ValidatorSet.Validators nv0))%nat then
    let r :=
      if (0 <? length validatorUpdates)%nat then
        let '(nv1, err) := UpdateWithChangeSet L nv0 validatorUpdates in
        let h1 := store h0 nValSet0 nv1 in
        let changed := int64_add (int64_add (Header_Height L (Block.header block)) 1) 1 in
        match err with
        | Some err =>
            if negb (String.eqb (Error err) (Error ErrEmptyValSetGenerated))
            then inl (err, h1)
            else
              let '(nValSet1, h2) := alloc h1 emptyValidatorSet in
              inr (nValSet1, emptyValidatorSet, h2, changed)
        | None => inr (nValSet0, nv1, h1, changed)
        end
      else inr (nValSet0, nv0, h0, lastHeightValSetChanged) in
    match r with
    | inl x => inl x
    | inr (nValSet, nv, h1, changed) =>
        if (0 <? length (ValidatorSet.Validators nv))%nat then
          let nv' := IncrementProposerPriority L nv 1 in
          inr (nValSet, nv', store h1 nValSet nv', changed)
        else inr (nValSet, nv, h1, changed)
    end
  else if (0 <? length validatorUpdates)%nat then inl (ErrAddingValidatorToBased, h0)
  else inr (nValSet0, nv0, h0, lastHeightValSetChanged).

(** The pair is what the Go function returns ([types.State], [error]);
    the store is returned beside it.  The new state is built without
    [LastResultsHash], so the destination of the final [copy] is the zero
    value of that field; the hash that is copied is computed from the
    results that the entries of [DeliverTxs] point to. *)
Definition updateState (h : Heap) (state : State.t) (block : Block.t)
    (abciResponses : LegacyABCIResponses.t) (validatorUpdates : list Validator.t)
  : result (State.t * option error) * Heap :=
  match deref h (State.NextValidators state) with
  | None => (Panic NilDereference, h)
  | Some nv0 =>
      match updateState_nValSet h state block validatorUpdates nv0 with
      | inl (err, h1) => (Ok (state, Some err), h1)
      | inr (nValSet, _, h1, lastHeightValSetChanged) =>
          match deref h1 (State.Validators state) with
          | None => (Panic NilDereference, h1)
          | Some vals =>
              let '(lastValidators, h2) := alloc h1 vals in
              let hd := Block.header block in
              match derefAll (LegacyABCIResponses.DeliverTxs abciResponses) with
              | Panic p => (Panic p, h2)
              | Err err => (Err err, h2)
              | Ok results =>
                  let s := State.mk
                    (State.Version state)
                    (State.ChainID state)
                    (State.InitialHeight state)
                    (Header_Height L hd)
                    (BlockID.mk (Header_Hash L hd))
                    (Header_Time L hd)
                    (Some nValSet)
                    (Some nValSet)
                    (Some lastValidators)
                    lastHeightValSetChanged
                    (State.ConsensusParams state)
                    (State.LastHeightConsensusParamsChanged state)
                    (copy (State.LastResultsHash State.zero) (Results_Hash L results))
                    (make_bytes 32) in
                  (Ok (s, None), h2)
              end
          end
      end
  end.

(** *** [validateValidatorUpdates] *)

Fixpoint validateValidatorUpdates (abciUpdates : list ValidatorUpdate.t)
    (params : ValidatorParams.t) : result unit :=
  match abciUpdates with
  | [] => Ok tt
  | valUpdate :: rest =>
      if (ValidatorUpdate.Power valUpdate <? 0)%Z then
        Err (fmt_Errorf "voting power can't be negative %v" [ValidatorUpdate_String L valUpdate])
      else if (ValidatorUpdate.Power valUpdate =? 0)%Z then
        validateValidatorUpdates rest params
      else
        match PubKeyFromProto L (ValidatorUpdate.PubKey valUpdate) with
        | Err err => Err err
        | Panic p => Panic p
        | Ok pk =>
            if negb (IsValidPubkeyType L params (PubKey.Type_ pk)) then
              Err (fmt_Errorf "validator %v is using pubkey %s, which is unsupported for consensus"
                     [ValidatorUpdate_String L valUpdate; PubKey.Type_ pk])
            else validateValidatorUpdates rest params
        end
  end.

(** *** [buildLastCommitInfo] *)

(** The loop [for i, val := range lastValSet.Validators] of
    [buildLastCommitInfo], from index [i]. *)
Fixpoint buildVotes (sigs : list CommitSig.t) (vals : list Validator.t) (i : nat)
  : result (list VoteInfo.t) :=
  match vals with
  | [] => Ok []
  | val :: rest =>
      match nth_error sigs i with
      | None => Panic (IndexOutOfRange i (length sigs))
      | Some commitSig =>
          match buildVotes sigs rest (S i) with
          | Ok votes =>
              Ok (VoteInfo.mk (TM2PB_Validator L val) (CommitSig.BlockIDFlag commitSig) :: votes)
          | Err e => Err e
          | Panic p => Panic p
          end
      end
  end.

Definition buildLastCommitInfo (h : Heap) (block : Block.t) (lastValSet : option loc)
    (initialHeight : Z) : result CommitInfo.t :=
  let hd := Block.header block in
  if (Header_Height L hd =? initialHeight)%Z then Ok CommitInfo.zero
  else
    let abciCommit :=
      ToABCICommit L (SignedHeader.Commit (Block.SignedHeader block))
        (BaseHeader.Height (Header.BaseHeader hd)) (Header_Hash L hd) in
    let commitSize := ABCICommit.Size abciCommit in
    match deref h lastValSet with
    | None => Panic NilDereference
    | Some vals =>
        let valSetLen := length (ValidatorSet.Validators vals) in
        if negb (commitSize =? valSetLen)%nat then
          Panic (PanicString
                   (Sprintf "commit size (%d) doesn't match validator set length (%d)"
                      [show_nat commitSize; show_nat valSetLen]))
        else
          match buildVotes (ABCICommit.Signatures abciCommit) (ValidatorSet.Validators vals) 0 with
          | Ok votes => Ok (CommitInfo.mk (ABCICommit.Round abciCommit) votes)
          | Err e => Err e
          | Panic p => Panic p
          end
    end.

(** *** Fraud-proof helpers *)

Definition getAppHash : M bytes := call (app_GetAppHash E) AppGetAppHash.

Definition isFraudProofTrigger (generatedIsr : bytes) (currentIsrs : option (list bytes))
    (index : nat) : M bool :=
  match currentIsrs with
  | None => ret false
  | Some l =>
      emit (ReadIsr index) ;;;
      match nth_error l index with
      | None => throw (IndexOutOfRange index (length l))
      | Some stateIsr =>
          if negb (bytes_Equal stateIsr generatedIsr) then
            emit (Log LogDebug "ISR Mismatch") ;;; ret true
          else ret false
      end
  end.

(** The request [generateFraudProof] builds from its three arguments. *)
Definition fraudProofRequest (beginBlockRequest : RequestBeginBlock.t)
    (deliverTxRequests : option (list RequestDeliverTx.t))
    (endBlockRequest : option RequestEndBlock.t) : RequestGenerateFraudProof.t :=
  match deliverTxRequests with
  | Some reqs => RequestGenerateFraudProof.mk beginBlockRequest (Some reqs) endBlockRequest
  | None => RequestGenerateFraudProof.mk beginBlockRequest None None
  end.

Definition generateFraudProof (beginBlockRequest : option RequestBeginBlock.t)
    (deliverTxRequests : option (list RequestDeliverTx.t))
    (endBlockRequest : option RequestEndBlock.t) : M FraudProof :=
  match beginBlockRequest with
  | None => fail (fmt_Errorf "begin block request cannot be a nil parameter" [])
  | Some bbr =>
      let generateFraudProofRequest := fraudProofRequest bbr deliverTxRequests endBlockRequest in
      resp <- call (fun hist => app_GenerateFraudProof E hist generateFraudProofRequest)
                   (AppGenerateFraudProof generateFraudProofRequest) ;;
      match resp with
      | None => fail (fmt_Errorf "fraud proof generation failed" [])
      | Some fraudProof => ret fraudProof
      end
  end.

(** The closure [genAndGossipFraudProofIfNeeded] of [execute]; it returns
    the captured variables as it leaves them. *)
Definition genAndGossipFraudProofIfNeeded (e : BlockExecutor.t)
    (currentIsrs : option (list bytes)) (st : locals)
    (beginBlockRequest : option RequestBeginBlock.t)
    (deliverTxRequests : option (list RequestDeliverTx.t))
    (endBlockRequest : option RequestEndBlock.t) : M locals :=
  if negb (BlockExecutor.fraudProofsEnabled e) then ret st
  else
    isr <- getAppHash ;;
    let st1 := mkLocals (ISRs st ++ [isr]) (currentIsrIndex st) in
    isFraud <- isFraudProofTrigger isr currentIsrs (currentIsrIndex st1) ;;
    if (isFraud : bool) then
      emit (Log LogInfo "found fraud occurrence, generating a fraud proof...") ;;;
      fraudProof <- generateFraudProof beginBlockRequest deliverTxRequests endBlockRequest ;;
      match BlockExecutor.FraudService e with
      | None => throw NilDereference
      | Some _ =>
          err <- call_err (fun hist => fraud_Broadcast E hist fraudProof)
                          (FraudServiceBroadcast fraudProof) ;;
          match err with
          | Some err => fail (fmt_Errorf_w "failed to broadcast fraud proof: %w" [Error err] err)
          | None => fail ErrFraudProofGenerated
          end
      end
    else ret (mkLocals (ISRs st1) (S (currentIsrIndex st1))).

(** The loop [for _, tx := range block.Data.Txs] of [execute]. *)
Fixpoint deliverTxLoop (e : BlockExecutor.t) (currentIsrs : option (list bytes))
    (beginBlockRequest : RequestBeginBlock.t) (txs : Txs)
    (deliverTxRequests : list RequestDeliverTx.t) (st : locals)
  : M (list RequestDeliverTx.t * locals) :=
  match txs with
  | [] => ret (deliverTxRequests, st)
  | tx :: rest =>
      let deliverTxRequests := deliverTxRequests ++ [RequestDeliverTx.mk tx] in
      st' <- genAndGossipFraudProofIfNeeded e currentIsrs st
               (Some beginBlockRequest) (Some deliverTxRequests) None ;;
      deliverTxLoop e currentIsrs beginBlockRequest rest deliverTxRequests st'
  end.

(** *** [execute] *)

(** The up-front check of the length of the supplied ISR list. *)
Definition checkIsrLength (e : BlockExecutor.t) (block : Block.t) : M unit :=
  match Block.isrs block with
  | Some currentIsrs =>
      let expectedLength := (length (Block.txs block) + 3)%nat in
      if BlockExecutor.fraudProofsEnabled e && negb (length currentIsrs =? expectedLength)%nat
      then fail (fmt_Errorf "invalid length of ISR list: %d, expected length: %d"
                   [show_nat (length currentIsrs); show_nat expectedLength])
      else ret tt
  | None => ret tt
  end.

(** The part of [execute] from the [FinalizeBlock] response on: the
    legacy responses, the capture points and the write-back of the ISRs. *)
Definition executeCaptures (e : BlockExecutor.t) (block : Block.t)
    (beginBlockRequest : RequestBeginBlock.t)
    (finalizeBlockResponse : ResponseFinalizeBlock.t) (st0 : locals)
  : M (LegacyABCIResponses.t * Block.t) :=
  let currentIsrs := Block.isrs block in
  let deliverTxs := repeat None (length (Block.txs block)) in
  let beginBlock := ResponseBeginBlock.mk (ResponseFinalizeBlock.Events finalizeBlockResponse) in
  st1 <- genAndGossipFraudProofIfNeeded e currentIsrs st0 (Some beginBlockRequest) None None ;;
  r <- deliverTxLoop e currentIsrs beginBlockRequest (Block.txs block) [] st1 ;;
  let '(deliverTxRequests, st2) := r in
  let endBlockRequest := RequestEndBlock.mk (Header_Height L (Block.header block)) in
  let endBlock := ResponseEndBlock.mk
                    (ResponseFinalizeBlock.ValidatorUpdates finalizeBlockResponse)
                    (ResponseFinalizeBlock.ConsensusParamUpdates finalizeBlockResponse)
                    (ResponseFinalizeBlock.Events finalizeBlockResponse) in
  st3 <- genAndGossipFraudProofIfNeeded e currentIsrs st2
           (Some beginBlockRequest) (Some deliverTxRequests) (Some endBlockRequest) ;;
  let abciResponses := LegacyABCIResponses.mk deliverTxs (Some endBlock) (Some beginBlock) in
  match Block.isrs block with
  | None =>
      if BlockExecutor.fraudProofsEnabled e
      then ret (abciResponses, Block.set_isrs (Some (ISRs st3)) block)
      else ret (abciResponses, block)
  | Some _ => ret (abciResponses, block)
  end.

(** [execute] returns the legacy responses; the block is passed by
    pointer and is returned as [execute] leaves it.  Its only write to the
    block is the last statement, so a failing call leaves the block as it
    was. *)
Definition execute (e : BlockExecutor.t) (h : Heap) (state : State.t) (block : Block.t)
  : M (LegacyABCIResponses.t * Block.t) :=
  checkIsrLength e block ;;;
  emit MempoolSetResponseCallback ;;;
  st0 <- (if BlockExecutor.fraudProofsEnabled e
          then (isr <- getAppHash ;; ret (mkLocals [isr] 1))
          else ret (mkLocals [] 0)) ;;
  let hash := Block_Hash L block in
  abciHeader <- lift (ToABCIHeaderPB L (Block.header block)) ;;
  let abciHeader := ABCIHeader.set_ChainID (BlockExecutor.chainID e) abciHeader in
  match deref h (State.Validators state) with
  | None => throw NilDereference
  | Some vals =>
      let abciHeader := ABCIHeader.set_ValidatorsHash (ValidatorSet_Hash L vals) abciHeader in
      let beginBlockRequest :=
        RequestBeginBlock.mk hash abciHeader (CommitInfo.mk 0 []) [] in
      commitInfo <- lift (buildLastCommitInfo h block (State.Validators state)
                            (State.InitialHeight state)) ;;
      match ToABCIBlock L block with
      | (_, Some err) => fail err
      | (None, None) => throw NilDereference
      | (Some abciBlock, None) =>
          let req := RequestFinalizeBlock.mk
                       (Block_Hash L block)
                       (ABCIHeader.NextValidatorsHash (ABCIBlock.Header abciBlock))
                       (ABCIHeader.ProposerAddress (ABCIBlock.Header abciBlock))
                       (ABCIHeader.Height (ABCIBlock.Header abciBlock))
                       (ABCIHeader.Time (ABCIBlock.Header abciBlock))
                       commitInfo
                       (Evidence_ToABCI L (ABCIBlock.Evidence abciBlock))
                       (ABCIBlock.Txs abciBlock) in
          r <- call_r (fun hist => app_FinalizeBlock E hist req) (AppFinalizeBlock req) ;;
          match r with
          | Err err =>
              emit (Log LogError "error in proxyAppConn.FinalizeBlock") ;;;
              fail err
          | Panic p => throw p
          | Ok finalizeBlockResponse =>
              emit (Log LogInfo "finalized block") ;;;
              if negb (length (ABCIBlock.Txs abciBlock)
                       =? length (ResponseFinalizeBlock.TxResults finalizeBlockResponse))%nat
              then fail (fmt_Errorf
                "expected tx results length to match size of transactions in block. Expected %d, got %d"
                [show_nat (length (Block.txs block));
                 show_nat (length (ResponseFinalizeBlock.TxResults finalizeBlockResponse))])
              else
                emit (Log LogInfo "executed block") ;;;
                executeCaptures e block beginBlockRequest finalizeBlockResponse st0
          end
      end
  end.

(** *** [ApplyBlock] *)

(** What [ApplyBlock] returns: the state, the responses (a pointer) and
    the error. *)
Definition ApplyBlockReturn : Type :=
  (State.t * option LegacyABCIResponses.t * option error)%type.

(** The result of [ApplyBlock] comes with the store and the block as the
    call leaves them, and with the effects of the call. *)
Definition ApplyBlock (e : BlockExecutor.t) (h : Heap) (state : State.t) (block : Block.t)
    (hist : Trace) : result ApplyBlockReturn * Heap * Block.t * Trace :=
  match validate h state block with
  | Err err => (Ok (State.zero, None, Some err), h, block, [])
  | Panic p => (Panic p, h, block, [])
  | Ok _ =>
    match execute e h state block hist with
    | (Err err, t) => (Ok (State.zero, None, Some err), h, block, t)
    | (Panic p, t) => (Panic p, h, block, t)
    | (Ok (resp, block'), t) =>
      match LegacyABCIResponses.EndBlock resp with
      | None => (Panic NilDereference, h, block', t)
      | Some endBlock =>
        let abciValUpdates := ResponseEndBlock.ValidatorUpdates endBlock in
        match State_ToProto L h state with
        | Err err => (Ok (State.zero, None, Some err), h, block', t)
        | Panic p => (Panic p, h, block', t)
        | Ok protoState =>
          match validateValidatorUpdates abciValUpdates
                  (ProtoState.ConsensusParams_Validator protoState) with
          | Err err =>
              (Ok (state, None,
                   Some (fmt_Errorf "error in validator updates: %v" [Error err])),
               h, block', t)
          | Panic p => (Panic p, h, block', t)
          | Ok _ =>
            match PB2TM_ValidatorUpdates L abciValUpdates with
            | Err err => (Ok (state, None, Some err), h, block', t)
            | Panic p => (Panic p, h, block', t)
            | Ok validatorUpdates =>
              let t1 :=
                if (0 <? length validatorUpdates)%nat
                then [Log LogDebug "updates to validators"] else [] in
              let t2 :=
                if (BlockParams.MaxBytes (ConsensusParams.Block (State.ConsensusParams state)) =? 0)%Z
                then [Log LogError "maxBytes=0"] else [] in
              match updateState h state block' resp validatorUpdates with
              | (Panic p, h') => (Panic p, h', block', t ++ t1 ++ t2)
              | (Err err, h') => (Ok (State.zero, None, Some err), h', block', t ++ t1 ++ t2)
              | (Ok (_, Some err), h') =>
                  (Ok (State.zero, None, Some err), h', block', t ++ t1 ++ t2)
              | (Ok (state', None), h') =>
                  (Ok (state', Some resp, None), h', block', t ++ t1 ++ t2)
              end
            end
          end
        end
      end
    end
  end.

(** *** [commit], [publishEvents], [Commit] *)

(** [commit] returns the app hash and the retain height; an error stands
    for the return [nil, 0, err].  [Height()] is an [int64], on which the
    conversion [int64(..)] of the call of [Update] is the identity. *)
Definition commit (state : State.t) (block : Block.t)
    (deliverTxs : list (option ExecTxResult.t)) : M (bytes * Z) :=
  emit MempoolLock ;;;
  defer
    (err <- call_err (mempool_FlushAppConn E) MempoolFlushAppConn ;;
     check err ;;;
     commitResp <- call (app_Commit E) AppCommit ;;
     appHash <- call (app_GetAppHash E) AppGetAppHash ;;
     let maxBytes := BlockParams.MaxBytes (ConsensusParams.Block (State.ConsensusParams state)) in
     let maxGas := BlockParams.MaxGas (ConsensusParams.Block (State.ConsensusParams state)) in
     let height := Header_Height L (Block.header block) in
     let txs := fromRollkitTxs (Block.txs block) in
     err <- call_err (fun hist => mempool_Update E hist height txs deliverTxs maxBytes maxGas)
                     (MempoolUpdate height txs deliverTxs maxBytes maxGas) ;;
     check err ;;;
     ret (appHash, to_uint64 (ResponseCommit.RetainHeight commitResp)))
    (emit MempoolUnlock).

Fixpoint publishEvidence (evidence : list Evidence) (height : Z) (err : option error)
  : M (option error) :=
  match evidence with
  | [] => ret err
  | ev :: rest =>
      r <- call_err (fun hist => bus_PublishEventNewEvidence E hist ev height)
                    (PublishEventNewEvidence ev height) ;;
      publishEvidence rest height (multierr_Append err r)
  end.

(** The loop [for i, dtx := range resp.DeliverTxs] of [publishEvents],
    from index [i]. *)
Fixpoint publishTxs (abciTxs : list bytes) (height : Z)
    (deliverTxs : list (option ExecTxResult.t)) (i : nat) (err : option error)
  : M (option error) :=
  match deliverTxs with
  | [] => ret err
  | dtx :: rest =>
      match nth_error abciTxs i with
      | None => throw (IndexOutOfRange i (length abciTxs))
      | Some tx =>
          match dtx with
          | None => throw NilDereference
          | Some result =>
              let ev := TxResult.mk height (to_uint32 (Z.of_nat i)) tx result in
              r <- call_err (fun hist => bus_PublishEventTx E hist ev) (PublishEventTx ev) ;;
              publishTxs abciTxs height rest (S i) (multierr_Append err r)
          end
      end
  end.

(** [publishEvents] returns its [error] as a value. *)
Definition publishEvents (e : BlockExecutor.t) (h : Heap) (resp : LegacyABCIResponses.t)
    (block : Block.t) (state : State.t) : M (option error) :=
  match BlockExecutor.eventBus e with
  | None => ret None
  | Some _ =>
      let '(abciBlock, err) := ToABCIBlock L block in
      match abciBlock, deref h (State.Validators state) with
      | None, _ => throw NilDereference
      | _, None => throw NilDereference
      | Some abciBlock, Some vals =>
          let abciBlock :=
            ABCIBlock.set_Header
              (ABCIHeader.set_ValidatorsHash (ValidatorSet_Hash L vals) (ABCIBlock.Header abciBlock))
              abciBlock in
          match err with
          | Some err => ret (Some err)
          | None =>
              match LegacyABCIResponses.EndBlock resp, LegacyABCIResponses.BeginBlock resp with
              | None, _ => throw NilDereference
              | _, None => throw NilDereference
              | Some endBlock, Some beginBlock =>
                  let d := EventDataNewBlock.mk abciBlock
                    (ResponseFinalizeBlock.mk
                       (ResponseBeginBlock.Events beginBlock ++ ResponseEndBlock.Events endBlock)
                       (LegacyABCIResponses.DeliverTxs resp)
                       (ResponseEndBlock.ValidatorUpdates endBlock)
                       (ResponseEndBlock.ConsensusParamUpdates endBlock)
                       (State.AppHash state)) in
                  r <- call_err (fun hist => bus_PublishEventNewBlock E hist d) (PublishEventNewBlock d) ;;
                  let err := multierr_Append None r in
                  r <- call_err (fun hist => bus_PublishEventNewBlockHeader E hist (ABCIBlock.Header abciBlock))
                                (PublishEventNewBlockHeader (ABCIBlock.Header abciBlock)) ;;
                  let err := multierr_Append err r in
                  let height := Header_Height L (Block.header block) in
                  err <- publishEvidence (ABCIBlock.Evidence abciBlock) height err ;;
                  publishTxs (ABCIBlock.Txs abciBlock) height (LegacyABCIResponses.DeliverTxs resp) 0 err
              end
          end
      end
  end.

(** [Commit] returns the app hash and the retain height; an error stands
    for the return [[]byte{}, 0, err]. *)
Definition Commit (e : BlockExecutor.t) (h : Heap) (state : State.t) (block : Block.t)
    (resp : LegacyABCIResponses.t) : M (bytes * Z) :=
  r <- commit state block (LegacyABCIResponses.DeliverTxs resp) ;;
  let '(appHash, retainHeight) := r in
  let state := State.set_AppHash appHash state in
  err <- publishEvents e h resp block state ;;
  match err with
  | Some _ => emit (Log LogError "failed to fire block events")
  | None => ret tt
  end ;;;
  ret (appHash, retainHeight).

(** *** [CreateBlock] *)

Definition rewriteSignature (e : BlockExecutor.t) (header : Header.t) (sig : CommitSig.t)
  : CommitSig.t :=
  CommitSig.mk (CommitSig.BlockIDFlag sig) (BlockExecutor.proposerAddress e)
    (Header_Time L header) (CommitSig.Signature sig).

Definition getLastCommitHash (e : BlockExecutor.t) (lastCommit : Commit.t) (header : Header.t)
  : result bytes :=
  let lastABCICommit :=
    ToABCICommit L lastCommit (BaseHeader.Height (Header.BaseHeader header)) (Header_Hash L header) in
  if (length (Commit.Signatures lastCommit) =? 1)%nat then
    match ABCICommit.Signatures lastABCICommit with
    | [] => Panic (IndexOutOfRange 0 0)
    | sig :: rest =>
        Ok (ABCICommit_Hash L
              (ABCICommit.mk (ABCICommit.Height lastABCICommit) (ABCICommit.Round lastABCICommit)
                 (ABCICommit.BlockID lastABCICommit) (rewriteSignature e header sig :: rest)))
    end
  else Ok (ABCICommit_Hash L lastABCICommit).

Definition CreateBlock (e : BlockExecutor.t) (h : Heap) (height : Z) (lastCommit : Commit.t)
    (lastHeaderHash : Hash) (state : State.t) : M Block.t :=
  let maxBytes := BlockParams.MaxBytes (ConsensusParams.Block (State.ConsensusParams state)) in
  let maxGas := BlockParams.MaxGas (ConsensusParams.Block (State.ConsensusParams state)) in
  mempoolTxs <- (fun hist =>
                   let txs := mempool_ReapMaxBytesMaxGas E hist maxBytes maxGas in
                   (Ok txs, [MempoolReapMaxBytesMaxGas maxBytes maxGas txs])) ;;
  now <- (fun hist => let t := time_Now_Unix E hist in (Ok t, [TimeNowUnix t])) ;;
  let header := Header.mk
    (Version.mk (Version.Block (StateVersion.Consensus (State.Version state)))
                (Version.App (StateVersion.Consensus (State.Version state))))
    (BaseHeader.mk (BlockExecutor.chainID e) height (to_uint64 now))
    [] [] (make_bytes 32) (make_bytes 32)
    (State.AppHash state) (State.LastResultsHash state) []
    (BlockExecutor.proposerAddress e) in
  let data := Data.mk (toRollkitTxs mempoolTxs) (IntermediateStateRoots.mk None) in
  lastCommitHash <- lift (getLastCommitHash e lastCommit header) ;;
  let header := Header.set_LastCommitHash lastCommitHash header in
  let header := Header.set_LastHeaderHash lastHeaderHash header in
  match deref h (State.Validators state) with
  | None => throw NilDereference
  | Some vals =>
      let header := Header.set_AggregatorsHash (ValidatorSet_Hash L vals) header in
      ret (Block.mk (SignedHeader.mk header lastCommit) data)
  end.

End Executor.

(** ** The next validator set, in the words of the specification

    "Copy NextValidators to nValSet.  If nValSet is non-empty and there
    are validator updates, apply them; if the update would produce an
    empty set, substitute an explicitly empty set and continue.  If nValSet
    is still non-empty, advance proposer priority by one."  The function
    describes the set of a successful [updateState]. *)
Definition spec_advance (L : Lib) (nv : ValidatorSet.t) : ValidatorSet.t :=
  match ValidatorSet.Validators nv with
  | [] => nv
  | _ :: _ => IncrementProposerPriority L nv 1
  end.

Definition spec_nValSet (L : Lib) (nextValidators : ValidatorSet.t)
    (validatorUpdates : list Validator.t) : ValidatorSet.t :=
  match ValidatorSet.Validators nextValidators, validatorUpdates with
  | [], _ => nextValidators
  | _ :: _, [] => spec_advance L nextValidators
  | _ :: _, _ :: _ =>
      match UpdateWithChangeSet L nextValidators validatorUpdates with
      | (updated, None) => spec_advance L updated
      | (_, Some _) => emptyValidatorSet
      end
  end.

(** ** The response callback at work

    The callback keeps the variables it captured from one call to the
    next; [deliverResponses] hands it the responses of a connection one
    after the other. *)
Fixpoint deliverResponses (rs : list abci_Response) (c : callbackLocals) : M callbackLocals :=
  match rs with
  | [] => ret c
  | res :: rest => c' <- responseCallback res c ;; deliverResponses rest c'
  end.

(** The captured variables as [execute] initialises them for a block of
    [n] transactions. *)
Definition callbackInit (n : nat) : callbackLocals := mkCallbackLocals 0 0 0 (repeat None n).

(** ** Random transactions for tests (package [testfactory])

    [math/rand] is a collaborator: [draws] is the integer behind the k-th
    call of [Intn], [octets] the k-th byte that [Read] hands out.  The
    state of a generator is the number of integers and of bytes it has
    consumed.  Go's [int] arguments are [Z]; a length that [make] refuses
    because it exceeds the allocation limit is outside the model. *)
Module testfactory.

Record Source : Type := {
  draws : nat -> Z;
  octets : nat -> Byte.byte }.

Definition Cursor : Type := (nat * nat)%type.

Definition R (A : Type) : Type := Cursor -> result A * Cursor.

Definition pure {A} (a : A) : R A := fun c => (Ok a, c).

Definition crash {A} (p : panic) : R A := fun c => (Panic p, c).

Definition andThen {A B} (m : R A) (f : A -> R B) : R B :=
  fun c =>
    match m c with
    | (Ok a, c') => f a c'
    | (Err e, c') => (Err e, c')
    | (Panic p, c') => (Panic p, c')
    end.

Section Generators.

Variable src : Source.

(** [mrand.Intn(n)]: a value of the interval [0, n); it panics when
    [n <= 0]. *)
Definition Intn (n : Z) : R Z :=
  fun c =>
    if (n <=? 0)%Z then (Panic (PanicString "invalid argument to Intn"), c)
    else (Ok (draws src (fst c) mod n)%Z, (S (fst c), snd c)).

(** [mrand.Read(p)] fills the [size] bytes of [p]; the error it returns is
    always nil, so the [panic(err)] of the caller is dead code. *)
Definition Read (size : nat) : R bytes :=
  fun c => (Ok (map (octets src) (seq (snd c) size)), (fst c, snd c + size)).

(** The length of a [make([]T, n)], which panics when [n] is negative. *)
Definition make_len (n : Z) : R nat :=
  if (n <? 0)%Z then crash (PanicString "makeslice: len out of range")
  else pure (Z.to_nat n).

(** The loop of [GenerateRandomTxs], with [count] iterations to go. *)
Fixpoint randomTxs (count : nat) (size : Z) : R Txs :=
  match count with
  | O => pure []
  | S count' =>
      andThen (make_len size) (fun len =>
      andThen (Read len) (fun tx =>
      andThen (randomTxs count' size) (fun rest =>
      pure (tx :: rest))))
  end.

Definition GenerateRandomTxs (count size : Z) : R Txs :=
  andThen (make_len count) (fun n => randomTxs n size).

(** The loop of [GenerateRandomlySizedTxs], with [count] iterations to
    go. *)
Fixpoint randomlySizedTxs (count : nat) (maxSize : Z) : R Txs :=
  match count with
  | O => pure []
  | S count' =>
      andThen (Intn maxSize) (fun size =>
      let size := if (size =? 0)%Z then 1%Z else size in
      andThen (GenerateRandomTxs 1 size) (fun one =>
      match one with
      | [] => crash (IndexOutOfRange 0 0)
      | tx :: _ =>
          andThen (randomlySizedTxs count' maxSize) (fun rest =>
          pure (tx :: rest))
      end))
  end.

Definition GenerateRandomlySizedTxs (count maxSize : Z) : R Txs :=
  andThen (make_len count) (fun n => randomlySizedTxs n maxSize).

End Generators.

End testfactory.

(** ** A concrete library, application and chain

    Simple instances of the collaborators, on which the properties below
    are exercised. *)
Module Sample.

Definition lib : Lib := {|
  Block_ValidateBasic := fun _ => None;
  Block_Hash := fun blk => Header.DataHash (Block.header blk);
  Header_Hash := fun hd => Header.DataHash hd;
  Header_Height := fun hd => BaseHeader.Height (Header.BaseHeader hd);
  Header_Time := fun hd => BaseHeader.Time (Header.BaseHeader hd);
  ValidatorSet_Hash := fun vals => flat_map Validator.Address (ValidatorSet.Validators vals);
  UpdateWithChangeSet := fun vals changes =>
    let changed (v : Validator.t) :=
      existsb (fun c => bytes_Equal (Validator.Address c) (Validator.Address v)) changes in
    let kept := filter (fun v => negb (changed v)) (ValidatorSet.Validators vals) in
    let added := filter (fun c => negb (Validator.VotingPower c =? 0)%Z) changes in
    match kept ++ added with
    | [] => (vals, Some (errors_New "applying the validator changes would result in empty set"))
    | v :: rest => (ValidatorSet.mk (v :: rest) (Some v) (ValidatorSet.totalVotingPower vals), None)
    end;
  IncrementProposerPriority := fun vals times =>
    ValidatorSet.mk
      (map (fun v => Validator.mk (Validator.Address v) (Validator.PubKey v)
                       (Validator.VotingPower v) (Validator.ProposerPriority v + times)%Z)
           (ValidatorSet.Validators vals))
      (ValidatorSet.Proposer vals) (ValidatorSet.totalVotingPower vals);
  Results_Hash := fun results => repeat Byte.x07 32;
  ToABCIHeaderPB := fun hd =>
    Ok (ABCIHeader.mk (BaseHeader.ChainID (Header.BaseHeader hd))
          (BaseHeader.Height (Header.BaseHeader hd)) (BaseHeader.Time (Header.BaseHeader hd))
          (Header.AggregatorsHash hd) (Header.AggregatorsHash hd) (Header.AppHash hd)
          (Header.ProposerAddress hd));
  ToABCIBlock := fun blk =>
    let hd := Block.header blk in
    (Some (ABCIBlock.mk
             (ABCIHeader.mk (BaseHeader.ChainID (Header.BaseHeader hd))
                (BaseHeader.Height (Header.BaseHeader hd)) (BaseHeader.Time (Header.BaseHeader hd))
                (Header.AggregatorsHash hd) (Header.AggregatorsHash hd) (Header.AppHash hd)
                (Header.ProposerAddress hd))
             (Block.txs blk) [] None), None);
  ToABCICommit := fun c height hash =>
    ABCICommit.mk height 0%Z hash
      (map (fun sig => CommitSig.mk 2%Z [] 0%Z sig) (Commit.Signatures c));
  ABCICommit_Hash := fun c =>
    flat_map (fun sig => CommitSig.ValidatorAddress sig ++ CommitSig.Signature sig
                         ++ repeat Byte.xff (Z.to_nat (CommitSig.Timestamp sig)))
             (ABCICommit.Signatures c);
  Evidence_ToABCI := fun evs => evs;
  TM2PB_Validator := fun v => abci_Validator.mk (Validator.Address v) (Validator.VotingPower v);
  State_ToProto := fun _ st =>
    Ok (ProtoState.mk (ConsensusParams.Validator (State.ConsensusParams st)));
  PubKeyFromProto := fun pk => Ok (PubKey.mk "ed25519"%string pk);
  IsValidPubkeyType := fun params ty => existsb (String.eqb ty) (ValidatorParams.PubKeyTypes params);
  PB2TM_ValidatorUpdates := fun updates =>
    Ok (map (fun u => Validator.mk (ValidatorUpdate.PubKey u)
                        (PubKey.mk "ed25519"%string (ValidatorUpdate.PubKey u))
                        (ValidatorUpdate.Power u) 0%Z) updates);
  ValidatorUpdate_String := fun _ => "update"%string
|}.

(** The number of [GetAppHash] calls in a history. *)
Definition appHashCalls (hist : Trace) : nat :=
  length (filter (fun ev => match ev with AppGetAppHash _ => true | _ => false end) hist).

(** An application that answers the [k]-th [GetAppHash] with the [k]-th
    element of [hashes], [FinalizeBlock] with [fin] and
    [GenerateFraudProof] with [proof]; the fraud-proof service answers
    [broadcast] and the event bus [publish]. *)
Definition env (hashes : list bytes) (fin : result ResponseFinalizeBlock.t)
    (proof : result (option FraudProof)) (broadcast publish : option error) : Env := {|
  mempool_ReapMaxBytesMaxGas := fun _ _ _ => [[Byte.x01]; [Byte.x02]];
  mempool_FlushAppConn := fun _ => None;
  mempool_Update := fun _ _ _ _ _ _ => None;
  app_FinalizeBlock := fun _ _ => fin;
  app_Commit := fun _ => Ok (ResponseCommit.mk 7%Z);
  app_GetAppHash := fun hist => Ok (nth (appHashCalls hist) hashes []);
  app_GenerateFraudProof := fun _ _ => proof;
  fraud_Broadcast := fun _ _ => broadcast;
  bus_PublishEventNewBlock := fun _ _ => publish;
  bus_PublishEventNewBlockHeader := fun _ _ => publish;
  bus_PublishEventNewEvidence := fun _ _ _ => publish;
  bus_PublishEventTx := fun _ _ => publish;
  time_Now_Unix := fun _ => 5%Z
|}.

Definition V : Validator.t :=
  Validator.mk [Byte.x0a] (PubKey.mk "ed25519"%string [Byte.x0a]) 10%Z 0%Z.
Definition vals : ValidatorSet.t := ValidatorSet.mk [V] (Some V) 10%Z.

(** The store holds the three validator sets of [state]. *)
Definition heap : Heap := [vals; vals; vals].

(** [V] with power 0 (a removal), and a second validator. *)
Definition V_removed : Validator.t :=
  Validator.mk [Byte.x0a] (PubKey.mk "ed25519"%string [Byte.x0a]) 0%Z 0%Z.
Definition W : Validator.t :=
  Validator.mk [Byte.x0c] (PubKey.mk "ed25519"%string [Byte.x0c]) 5%Z 0%Z.

(** A store in which the next validator set of [state] is empty. *)
Definition heap_based : Heap := [emptyValidatorSet; vals; vals].

Definition appHash : Hash := repeat Byte.xaa 32.

Definition state : State.t :=
  State.mk (StateVersion.mk (Version.mk 11%Z 1%Z) ""%string) "c1"%string 1%Z 1%Z (BlockID.mk []) 0%Z
    (Some 0) (Some 1) (Some 2) 1%Z
    (ConsensusParams.mk (BlockParams.mk 1048576%Z (-1)%Z) (ValidatorParams.mk ["ed25519"%string]))
    1%Z (make_bytes 32) appHash.

Definition header : Header.t :=
  Header.mk (Version.mk 11%Z 1%Z) (BaseHeader.mk "c1"%string 2%Z 5%Z)
    [] [] (make_bytes 32) (make_bytes 32) appHash (make_bytes 32) [Byte.x0a] [Byte.x0b].

Definition commit1 : Commit.t := Commit.mk [[Byte.x05]].

(** A block of height 2 with two transactions and the given ISR list. *)
Definition block (isrs : option (list bytes)) : Block.t :=
  Block.mk (SignedHeader.mk header commit1)
    (Data.mk [[Byte.x01]; [Byte.x02]] (IntermediateStateRoots.mk isrs)).

(** [state] with a negative [LastBlockHeight]. *)
Definition state_negative : State.t :=
  State.mk (State.Version state) (State.ChainID state) (State.InitialHeight state) (-1)%Z
    (State.LastBlockID state) (State.LastBlockTime state) (State.NextValidators state)
    (State.Validators state) (State.LastValidators state)
    (State.LastHeightValidatorsChanged state) (State.ConsensusParams state)
    (State.LastHeightConsensusParamsChanged state) (State.LastResultsHash state)
    (State.AppHash state).

Definition executor (fraudProofsEnabled : bool) : BlockExecutor.t :=
  BlockExecutor.mk [Byte.x0b] (make_bytes 8) "c1"%string fraudProofsEnabled (Some tt) (Some tt).

Definition h0 : bytes := [Byte.x10].
Definition h1 : bytes := [Byte.x11].
Definition h2 : bytes := [Byte.x12].
Definition h3 : bytes := [Byte.x13].
Definition h4 : bytes := [Byte.x14].
Definition hX : bytes := [Byte.xee].

Definition fraudProof : FraudProof := [Byte.x99].

Definition txResult : ExecTxResult.t := ExecTxResult.mk 0%Z [] ""%string ""%string 0%Z 0%Z [] ""%string.

(** A [FinalizeBlock] response with one result per transaction and the
    given validator updates. *)
Definition finalize (updates : list ValidatorUpdate.t) : ResponseFinalizeBlock.t :=
  ResponseFinalizeBlock.mk ["begin"%string] [Some txResult; Some txResult] updates None appHash.

Definition responses (updates : list ValidatorUpdate.t) : LegacyABCIResponses.t :=
  LegacyABCIResponses.mk [Some txResult; Some txResult]
    (Some (ResponseEndBlock.mk updates None ["begin"%string]))
    (Some (ResponseBeginBlock.mk ["begin"%string])).

(** The honest application: it passes through the app hashes [h0] to
    [h4], returns one result per transaction, and can produce a fraud
    proof. *)
Definition app : Env :=
  env [h0; h1; h2; h3; h4] (Ok (finalize [])) (Ok (Some fraudProof)) None None.

(** The same application beside an event bus that fails every
    publication. *)
Definition app_bus_down : Env :=
  env [h0; h1; h2; h3; h4] (Ok (finalize [])) (Ok (Some fraudProof)) None
    (Some (errors_New "event bus is not running")).

(** An application that returns a single tx result for the two
    transactions of the block, and the [FinalizeBlock] request it
    receives. *)
Definition finalize_short : ResponseFinalizeBlock.t :=
  ResponseFinalizeBlock.mk ["begin"%string] [Some txResult] [] None appHash.

Definition app_short : Env :=
  env [h0; h1; h2; h3; h4] (Ok finalize_short) (Ok (Some fraudProof)) None None.

Definition request : RequestFinalizeBlock.t :=
  RequestFinalizeBlock.mk (make_bytes 32) [Byte.x0a] [Byte.x0b] 2%Z 5%Z
    (CommitInfo.mk 0%Z [VoteInfo.mk (abci_Validator.mk [Byte.x0a] 10%Z) 2%Z])
    [] [[Byte.x01]; [Byte.x02]].

(** The declared ISRs of the fraud scenario, the [BeginBlock] request
    of [execute] on [block], and the fraud-proof request of a mismatch
    after the first transaction. *)
Definition isrs_declared : list bytes := [h0; h1; hX; h3; h4].

Definition beginBlockRequest : RequestBeginBlock.t :=
  RequestBeginBlock.mk (make_bytes 32)
    (ABCIHeader.mk "c1"%string 2%Z 5%Z [Byte.x0a] [Byte.x0a] appHash [Byte.x0b])
    (CommitInfo.mk 0%Z []) [].

Definition fraudRequest : RequestGenerateFraudProof.t :=
  RequestGenerateFraudProof.mk beginBlockRequest
    (Some [RequestDeliverTx.mk [Byte.x01]]) None.

(** An application whose [FinalizeBlock] asks for a validator with a
    negative voting power. *)
Definition app_negative_power : Env :=
  env [h0; h1; h2; h3; h4] (Ok (finalize [ValidatorUpdate.mk [Byte.x0c] (-1)%Z]))
    (Ok (Some fraudProof)) None None.

End Sample.

(** ** Further instances

    A library whose validator sets refuse every change set, an executor
    without event bus, and a source of random numbers. *)
Module Cases.

Definition lib_rejecting : Lib := {|
  Block_ValidateBasic := Block_ValidateBasic Sample.lib;
  Block_Hash := Block_Hash Sample.lib;
  Header_Hash := Header_Hash Sample.lib;
  Header_Height := Header_Height Sample.lib;
  Header_Time := Header_Time Sample.lib;
  ValidatorSet_Hash := ValidatorSet_Hash Sample.lib;
  UpdateWithChangeSet := fun vals _ => (vals, Some (errors_New "duplicate entry in changes"));
  IncrementProposerPriority := IncrementProposerPriority Sample.lib;
  Results_Hash := Results_Hash Sample.lib;
  ToABCIHeaderPB := ToABCIHeaderPB Sample.lib;
  ToABCIBlock := ToABCIBlock Sample.lib;
  ToABCICommit := ToABCICommit Sample.lib;
  ABCICommit_Hash := ABCICommit_Hash Sample.lib;
  Evidence_ToABCI := Evidence_ToABCI Sample.lib;
  TM2PB_Validator := TM2PB_Validator Sample.lib;
  State_ToProto := State_ToProto Sample.lib;
  PubKeyFromProto := PubKeyFromProto Sample.lib;
  IsValidPubkeyType := IsValidPubkeyType Sample.lib;
  PB2TM_ValidatorUpdates := PB2TM_ValidatorUpdates Sample.lib;
  ValidatorUpdate_String := ValidatorUpdate_String Sample.lib
|}.

Definition executor_without_bus : BlockExecutor.t :=
  NewBlockExecutor [Byte.x0b] (make_bytes 8) "c1"%string false None.

(** A block of height 2 without transactions, and an application that
    answers [FinalizeBlock] without tx results. *)
Definition block_empty : Block.t :=
  Block.mk (SignedHeader.mk Sample.header Sample.commit1)
    (Data.mk [] (IntermediateStateRoots.mk None)).

Definition app_empty : Env :=
  Sample.env [Sample.h0; Sample.h1; Sample.h2]
    (Ok (ResponseFinalizeBlock.mk ["begin"%string] [] [] None Sample.appHash))
    (Ok (Some Sample.fraudProof)) None None.

(** A source whose k-th integer is [7 k + 3] and whose bytes are all
    [0x2a]. *)
Definition source : testfactory.Source := {|
  testfactory.draws := fun k => (7 * Z.of_nat k + 3)%Z;
  testfactory.octets := fun _ => Byte.x2a
|}.

End Cases.

(** ** Vocabulary of the properties *)

(** [h'] holds every object of [h], unchanged. *)
Definition extends (h h' : Heap) : Prop :=
  length h <= length h' /\ forall p, p < length h -> nth_error h' p = nth_error h p.

(** The interactions of the critical section of [commit], when every
    call succeeds; the mempool is updated with the transactions of the
    block themselves. *)
Definition commitSection (L : Lib) (state : State.t) (block : Block.t)
    (deliverTxs : list (option ExecTxResult.t)) (commitResp : ResponseCommit.t)
    (appHash : bytes) : Trace :=
  [ MempoolLock;
    MempoolFlushAppConn None;
    AppCommit (Ok commitResp);
    AppGetAppHash (Ok appHash);
    MempoolUpdate (Header_Height L (Block.header block)) (Block.txs block)
      deliverTxs
      (BlockParams.MaxBytes (ConsensusParams.Block (State.ConsensusParams state)))
      (BlockParams.MaxGas (ConsensusParams.Block (State.ConsensusParams state)))
      None;
    MempoolUnlock ].

(** The first capture of an app hash that was compared with a different
    entry of the supplied ISR list [l]: its position, the captured hash,
    and the effects that follow the comparison. *)
Fixpoint first_mismatch (l : list bytes) (tr : Trace) : option (nat * bytes * Trace) :=
  match tr with
  | [] => None
  | ev :: rest =>
      match ev, rest with
      | AppGetAppHash (Ok g), ReadIsr k :: post =>
          match nth_error l k with
          | Some s => if bytes_Equal s g then first_mismatch l rest else Some (k, g, post)
          | None => first_mismatch l rest
          end
      | _, _ => first_mismatch l rest
      end
  end.

(** The app hashes that [GetAppHash] returned, in order. *)
Definition captured (tr : Trace) : list bytes :=
  flat_map (fun ev => match ev with AppGetAppHash (Ok g) => [g] | _ => [] end) tr.

(** What follows a mismatch: the two log lines, the call of
    [GenerateFraudProof] with [req]; the call fails; and when the
    application returned a proof and the fraud-proof service is set, the
    proof is broadcast and, the broadcast having succeeded, the error is
    [ErrFraudProofGenerated]. *)
Definition fraudReport {A} (e : BlockExecutor.t) (req : RequestGenerateFraudProof.t)
    (post : Trace) (out : result A) : Prop :=
  exists r rest,
    post = Log LogDebug "ISR Mismatch"
           :: Log LogInfo "found fraud occurrence, generating a fraud proof..."
           :: AppGenerateFraudProof req r :: rest
    /\ (forall v, out <> Ok v)
    /\ (forall proof, r = Ok (Some proof) -> BlockExecutor.FraudService e <> None ->
        exists rb, rest = [FraudServiceBroadcast proof rb]
                   /\ (rb = None -> out = Err ErrFraudProofGenerated)).

(** The request a mismatch at position [k] is reported with: no
    DeliverTx request at position 1 (after BeginBlock), the requests of
    the first [k - 1] transactions from position 2 on, and the EndBlock
    request only at the last position. *)
Definition fraudRequestAt (L : Lib) (block : Block.t) (bbr : RequestBeginBlock.t) (k : nat)
  : RequestGenerateFraudProof.t :=
  RequestGenerateFraudProof.mk bbr
    (if (k =? 1)%nat then None
     else Some (map RequestDeliverTx.mk (firstn (k - 1) (Block.txs block))))
    (if (k =? length (Block.txs block) + 2)%nat
     then Some (RequestEndBlock.mk (Header_Height L (Block.header block)))
     else None).

(** A validator update that [validateValidatorUpdates] lets pass: its
    power is not negative and, unless it is a removal (power 0), its
    public key decodes to a key of a type the parameters allow. *)
Definition acceptableUpdate (L : Lib) (params : ValidatorParams.t) (u : ValidatorUpdate.t)
  : Prop :=
  (0 <= ValidatorUpdate.Power u)%Z
  /\ ((0 < ValidatorUpdate.Power u)%Z ->
      exists pk, PubKeyFromProto L (ValidatorUpdate.PubKey u) = Ok pk
                 /\ IsValidPubkeyType L params (PubKey.Type_ pk) = true).

(** The vote [buildLastCommitInfo] records for a validator and the
    signature at its position. *)
Definition voteOf (L : Lib) (p : Validator.t * CommitSig.t) : VoteInfo.t :=
  VoteInfo.mk (TM2PB_Validator L (fst p)) (CommitSig.BlockIDFlag (snd p)).

(** The interactions [execute] may have: the installation of the callback,
    [FinalizeBlock] and log lines always; [GetAppHash] when fraud proofs are
    enabled; a read of the supplied ISR list, [GenerateFraudProof] and a
    broadcast only when, in addition, the block came with an ISR list. *)
Definition executeMay (e : BlockExecutor.t) (isrs : option (list bytes)) (ev : Effect) : bool :=
  match ev with
  | MempoolSetResponseCallback | AppFinalizeBlock _ _ | Log _ _ => true
  | AppGetAppHash _ => BlockExecutor.fraudProofsEnabled e
  | ReadIsr _ | AppGenerateFraudProof _ _ | FraudServiceBroadcast _ _ =>
      BlockExecutor.fraudProofsEnabled e
      && match isrs with Some _ => true | None => false end
  | _ => false
  end.

(** The answer of the event bus, for an effect that is a publication. *)
Definition publication (ev : Effect) : option (option error) :=
  match ev with
  | PublishEventNewBlock _ r | PublishEventNewBlockHeader _ r
  | PublishEventNewEvidence _ _ r | PublishEventTx _ r => Some r
  | _ => None
  end.

(** The [DeliverTx] responses among the responses of a connection, and
    the result the callback stores for one. *)
Definition deliveries (rs : list abci_Response) : list ResponseDeliverTx.t :=
  flat_map (fun res => match res with Response_DeliverTx r => [r] | Response_Other => [] end) rs.

Definition storedResult (txRes : ResponseDeliverTx.t) : ExecTxResult.t :=
  ExecTxResult.mk
    (ResponseDeliverTx.Code txRes) (ResponseDeliverTx.Data txRes)
    (ResponseDeliverTx.Log txRes) (ResponseDeliverTx.Info txRes)
    (ResponseDeliverTx.GasWanted txRes) (ResponseDeliverTx.GasUsed txRes)
    (ResponseDeliverTx.Events txRes) (ResponseDeliverTx.Codespace txRes).

(** The number of [DeliverTx] responses with the code OK, and with
    another code. *)
Definition validCount (ds : list ResponseDeliverTx.t) : nat :=
  length (filter (fun r => (ResponseDeliverTx.Code r =? CodeTypeOK)%Z) ds).

Definition invalidCount (ds : list ResponseDeliverTx.t) : nat :=
  length (filter (fun r => negb (ResponseDeliverTx.Code r =? CodeTypeOK)%Z) ds).

(** * Properties *)

(** Refutes a disjunction of concrete inequalities and comparisons. *)
Ltac refute_cases H :=
  repeat match type of H with
         | _ \/ _ => destruct H as [H|H]
         end;
  first
    [ solve [exfalso; apply H; reflexivity]
    | solve [let A := fresh in
             let B := fresh in
             destruct H as [A B];
             first [ exfalso; apply B; reflexivity
                   | exfalso; apply A; reflexivity
                   | vm_compute in A; discriminate
                   | vm_compute in A; lia ]]
    | solve [vm_compute in H; congruence] ].

(** Closes the case of a run of [execute] that stops before
    [FinalizeBlock] has answered. *)
Ltac stop_early :=
  left;
  split; [discriminate |];
  split; [intros i Hi; cbn in Hi; intuition discriminate |];
  split; [intros l; reflexivity |];
  intros req fin Hin; cbn in Hin; exfalso; intuition discriminate.

(** ** Bytes, the store and the monad *)

Lemma bytes_Equal_true (a b : bytes) : bytes_Equal a b = true <-> a = b.
Proof.
  unfold bytes_Equal. destruct (bytes_eq_dec a b); split; congruence.
Qed.

Lemma bytes_Equal_false (a b : bytes) : bytes_Equal a b = false <-> a <> b.
Proof.
  unfold bytes_Equal. destruct (bytes_eq_dec a b); split; congruence.
Qed.

Lemma int64_add_add (z : Z) : int64_add (int64_add z 1) 1 = int64_wrap (z + 2).
Proof.
  unfold int64_add, int64_wrap.
  replace ((z + 1 + 2 ^ 63) mod 2 ^ 64 - 2 ^ 63 + 1 + 2 ^ 63)%Z
    with ((z + 1 + 2 ^ 63) mod 2 ^ 64 + 1)%Z by lia.
  rewrite Z.add_mod_idemp_l by lia.
  f_equal. f_equal. lia.
Qed.

Lemma int64_wrap_small (z : Z) :
  (- 2 ^ 63 <= z < 2 ^ 63)%Z -> int64_wrap z = z.
Proof.
  intros H. unfold int64_wrap. rewrite Z.mod_small; lia.
Qed.

(** ** [validate] *)

(** C3 (as amended).  For a state whose validator set is present,
    [validate] returns an error exactly when basic validation fails, a
    version differs, the height linkage is wrong -- [LastBlockHeight <= 0]
    and the height is not [InitialHeight], or [LastBlockHeight > 0] and the
    height is not [LastBlockHeight + 1] in [int64] arithmetic -- or one of
    [AppHash], [LastResultsHash], [AggregatorsHash] differs from the value
    the state expects; otherwise it returns no error. *)
Theorem validate_error_iff (L : Lib) (h : Heap) (state : State.t) (block : Block.t)
    (vals : ValidatorSet.t) :
  deref h (State.Validators state) = Some vals ->
  let hd := Block.header block in
  let fails :=
    Block_ValidateBasic L block <> None
    \/ Version.Block (Header.Version hd)
       <> Version.Block (StateVersion.Consensus (State.Version state))
    \/ Version.App (Header.Version hd)
       <> Version.App (StateVersion.Consensus (State.Version state))
    \/ ((State.LastBlockHeight state <= 0)%Z
        /\ Header_Height L hd <> State.InitialHeight state)
    \/ ((0 < State.LastBlockHeight state)%Z
        /\ Header_Height L hd <> int64_add (State.LastBlockHeight state) 1)
    \/ Header.AppHash hd <> State.AppHash state
    \/ Header.LastResultsHash hd <> State.LastResultsHash state
    \/ Header.AggregatorsHash hd <> ValidatorSet_Hash L vals in
  ((exists err, validate L h state block = Err err) <-> fails)
  /\ (~ fails -> validate L h state block = Ok tt).
Proof.
  intros Hvals hd fails. unfold validate. fold hd. rewrite Hvals.
  destruct (Block_ValidateBasic L block) as [e0|] eqn:HVB.
  { split; [split; [intros _; left; congruence | intros _; eauto] |].
    intros Hn. exfalso. apply Hn. left. congruence. }
  destruct (Z.eqb_spec (Version.App (Header.Version hd))
              (Version.App (StateVersion.Consensus (State.Version state)))) as [HA|HA];
    cbn [negb orb].
  2:{ split; [split; [intros _; right; right; left; exact HA | intros _; eauto] |].
      intros Hn. exfalso. apply Hn. right; right; left; exact HA. }
  destruct (Z.eqb_spec (Version.Block (Header.Version hd))
              (Version.Block (StateVersion.Consensus (State.Version state)))) as [HB|HB];
    cbn [negb].
  2:{ split; [split; [intros _; right; left; exact HB | intros _; eauto] |].
      intros Hn. exfalso. apply Hn. right; left; exact HB. }
  destruct (Z.leb_spec (State.LastBlockHeight state) 0) as [Hle|Hle];
    destruct (Z.eqb_spec (Header_Height L hd) (State.InitialHeight state)) as [HI|HI];
    cbn [negb andb].
  2:{ split; [split; [intros _; do 3 right; left; split; assumption | intros _; eauto] |].
      intros Hn. exfalso. apply Hn. do 3 right; left; split; assumption. }
  all: destruct (Z.ltb_spec 0 (State.LastBlockHeight state)) as [Hlt|Hlt];
    destruct (Z.eqb_spec (Header_Height L hd) (int64_add (State.LastBlockHeight state) 1))
      as [HN|HN]; cbn [negb andb]; try lia.
  all: try (split; [split; [intros _; do 4 right; left; split; assumption | intros _; eauto] |];
            intros Hn; exfalso; apply Hn; do 4 right; left; split; assumption).
  all: destruct (bytes_eq_dec (Header.AppHash hd) (State.AppHash state)) as [H1|H1];
    [ apply bytes_Equal_true in H1 as H1'; rewrite H1'
    | apply bytes_Equal_false in H1 as H1'; rewrite H1' ]; cbn [negb].
  all: try (split; [split; [intros _; do 5 right; left; assumption | intros _; eauto] |];
            intros Hn; exfalso; apply Hn; do 5 right; left; assumption).
  all: destruct (bytes_eq_dec (Header.LastResultsHash hd) (State.LastResultsHash state)) as [H2|H2];
    [ apply bytes_Equal_true in H2 as H2'; rewrite H2'
    | apply bytes_Equal_false in H2 as H2'; rewrite H2' ]; cbn [negb].
  all: try (split; [split; [intros _; do 6 right; left; assumption | intros _; eauto] |];
            intros Hn; exfalso; apply Hn; do 6 right; left; assumption).
  all: destruct (bytes_eq_dec (Header.AggregatorsHash hd) (ValidatorSet_Hash L vals)) as [H3|H3];
    [ apply bytes_Equal_true in H3 as H3'; rewrite H3'
    | apply bytes_Equal_false in H3 as H3'; rewrite H3' ]; cbn [negb].
  all: try (split; [split; [intros _; do 7 right; assumption | intros _; eauto] |];
            intros Hn; exfalso; apply Hn; do 7 right; assumption).
  all: split; [split; [intros [err Herr]; discriminate |] | reflexivity].
  all: unfold fails; intros Hf;
    repeat match goal with
           | H : _ \/ _ |- _ => destruct H
           | H : _ /\ _ |- _ => destruct H
           end; try congruence; try lia.
Qed.

Lemma validate_error_iff_witness :
  deref Sample.heap (State.Validators Sample.state) = Some Sample.vals
  /\ validate Sample.lib Sample.heap Sample.state (Sample.block None) = Ok tt.
Proof.
  split; [reflexivity |].
  apply (validate_error_iff Sample.lib Sample.heap Sample.state (Sample.block None)
           (vals := Sample.vals) eq_refl).
  intros H. refute_cases H.
Defined.

(** C3 as stated fails: with [LastBlockHeight = -1], initial height 1 and
    a block of height 2, [validate] returns the initial-height error, while
    none of the listed conditions holds ([LastBlockHeight] is neither 0 nor
    positive). *)
Lemma validate_negative_height_counterexample :
  let state := Sample.state_negative in
  let block := Sample.block None in
  let hd := Block.header block in
  validate Sample.lib Sample.heap state block
    = Err (errors_New "initial block height mismatch")
  /\ ~ (Block_ValidateBasic Sample.lib block <> None
        \/ Version.Block (Header.Version hd)
           <> Version.Block (StateVersion.Consensus (State.Version state))
        \/ Version.App (Header.Version hd)
           <> Version.App (StateVersion.Consensus (State.Version state))
        \/ (State.LastBlockHeight state = 0%Z
            /\ Header_Height Sample.lib hd <> State.InitialHeight state)
        \/ ((State.LastBlockHeight state > 0)%Z
            /\ Header_Height Sample.lib hd <> (State.LastBlockHeight state + 1)%Z)
        \/ Header.AppHash hd <> State.AppHash state
        \/ Header.LastResultsHash hd <> State.LastResultsHash state
        \/ (forall vals, deref Sample.heap (State.Validators state) = Some vals ->
            Header.AggregatorsHash hd <> ValidatorSet_Hash Sample.lib vals)).
Proof.
  cbv zeta. split; [reflexivity |].
  intros H.
  repeat match type of H with
         | _ \/ _ => destruct H as [H|H]
         end.
  - apply H; reflexivity.
  - apply H; reflexivity.
  - apply H; reflexivity.
  - destruct H as [H _]. vm_compute in H. discriminate.
  - destruct H as [H _]. vm_compute in H. discriminate.
  - apply H; reflexivity.
  - apply H; reflexivity.
  - apply (H Sample.vals); reflexivity.
Qed.

(** ** The store *)

Lemma extends_refl (h : Heap) : extends h h.
Proof. split; auto. Qed.

Lemma extends_trans (h1 h2 h3 : Heap) : extends h1 h2 -> extends h2 h3 -> extends h1 h3.
Proof.
  intros [L1 H1] [L2 H2]. split; [lia |].
  intros p Hp. rewrite H2 by lia. apply H1; assumption.
Qed.

Lemma extends_deref (h h' : Heap) (p : option loc) (v : ValidatorSet.t) :
  extends h h' -> deref h p = Some v -> deref h' p = Some v.
Proof.
  intros [_ H] Hd. destruct p as [l|]; [| discriminate]. simpl in *.
  rewrite H; [assumption |]. apply nth_error_Some. congruence.
Qed.

Lemma alloc_extends (h : Heap) (v : ValidatorSet.t) : extends h (snd (alloc h v)).
Proof.
  split; simpl.
  - rewrite length_app. lia.
  - intros p Hp. apply nth_error_app1; assumption.
Qed.

Lemma alloc_new (h : Heap) (v : ValidatorSet.t) :
  nth_error (snd (alloc h v)) (fst (alloc h v)) = Some v.
Proof.
  simpl. rewrite nth_error_app2 by lia. rewrite Nat.sub_diag. reflexivity.
Qed.

Lemma store_length (h : Heap) (l : loc) (v : ValidatorSet.t) :
  length (store h l v) = length h.
Proof.
  revert l. induction h as [|x h IH]; intros [|l]; simpl; auto.
Qed.

Lemma store_same (h : Heap) (l : loc) (v : ValidatorSet.t) :
  l < length h -> nth_error (store h l v) l = Some v.
Proof.
  revert l. induction h as [|x h IH]; intros [|l] Hl; simpl in *; try lia; auto.
  apply IH. lia.
Qed.

Lemma store_other (h : Heap) (l p : loc) (v : ValidatorSet.t) :
  p <> l -> nth_error (store h l v) p = nth_error h p.
Proof.
  revert l p. induction h as [|x h IH]; intros [|l] [|p] Hne; simpl; auto; try congruence.
Qed.

(** Writing to an object allocated after [h] keeps the objects of [h]. *)
Lemma store_extends (h h1 : Heap) (l : loc) (v : ValidatorSet.t) :
  extends h h1 -> length h <= l -> extends h (store h1 l v).
Proof.
  intros [Hlen H] Hl. split.
  - rewrite store_length. assumption.
  - intros p Hp. rewrite store_other by lia. apply H; assumption.
Qed.

(** ** [updateState] *)

(** The validator-set part of [updateState], when it does not return
    early: [nValSet] is a new object, it holds the set the specification
    describes, and the objects of the input store are untouched. *)
Lemma updateState_nValSet_inr (L : Lib) (h : Heap) (state : State.t) (block : Block.t)
    (validatorUpdates : list Validator.t) (nv0 : ValidatorSet.t)
    (p : loc) (nv : ValidatorSet.t) (h1 : Heap) (changed : Z) :
  updateState_nValSet L h state block validatorUpdates nv0 = inr (p, nv, h1, changed) ->
  extends h h1 /\ length h <= p /\ nth_error h1 p = Some nv
  /\ nv = spec_nValSet L nv0 validatorUpdates
  /\ (ValidatorSet.Validators nv0 <> [] -> validatorUpdates <> [] ->
      changed = int64_add (int64_add (Header_Height L (Block.header block)) 1) 1)
  /\ (ValidatorSet.Validators nv0 = [] \/ validatorUpdates = [] ->
      changed = State.LastHeightValidatorsChanged state).
Proof.
  unfold updateState_nValSet, spec_nValSet, spec_advance.
  pose proof (alloc_extends h nv0) as Hext. pose proof (alloc_new h nv0) as Hnew.
  simpl in Hext, Hnew. cbn [alloc].
  destruct (ValidatorSet.Validators nv0) as [|v0 vs0] eqn:Hv0; cbn [length Nat.ltb Nat.leb].
  - destruct validatorUpdates as [|u us]; cbn [length Nat.ltb Nat.leb]; intros H;
      [| discriminate]. inversion H; subst.
    refine (conj Hext (conj _ (conj Hnew (conj eq_refl (conj _ _))))); [lia | | ]; congruence.
  - destruct validatorUpdates as [|u us]; cbn [length Nat.ltb Nat.leb].
    + rewrite Hv0. cbn [length Nat.ltb Nat.leb]. intros H. inversion H; subst.
      refine (conj _ (conj _ (conj _ (conj eq_refl (conj _ _))))).
      * apply store_extends; [assumption | lia].
      * lia.
      * apply store_same. rewrite length_app. simpl. lia.
      * congruence.
      * intros [?|?]; congruence.
    + destruct (UpdateWithChangeSet L nv0 (u :: us)) as [nv1 [err|]].
      * destruct (String.eqb (Error err) (Error ErrEmptyValSetGenerated)); cbn [negb];
          [| discriminate].
        cbn [ValidatorSet.Validators emptyValidatorSet length Nat.ltb Nat.leb].
        intros H. inversion H; subst.
        refine (conj _ (conj _ (conj _ (conj eq_refl (conj _ _))))).
        -- eapply extends_trans; [| apply alloc_extends].
           apply store_extends; [assumption | lia].
        -- rewrite store_length, length_app. simpl. lia.
        -- rewrite nth_error_app2 by lia. rewrite Nat.sub_diag. reflexivity.
        -- congruence.
        -- intros [?|?]; congruence.
      * destruct (ValidatorSet.Validators nv1) as [|v1 vs1] eqn:Hv1;
          cbn [length Nat.ltb Nat.leb]; intros H; inversion H; subst.
        -- refine (conj _ (conj _ (conj _ (conj eq_refl (conj _ _))))).
           ++ apply store_extends; [assumption | lia].
           ++ lia.
           ++ apply store_same. rewrite length_app. simpl. lia.
           ++ congruence.
           ++ intros [?|?]; congruence.
        -- refine (conj _ (conj _ (conj _ (conj eq_refl (conj _ _))))).
           ++ apply store_extends; [| lia]. apply store_extends; [assumption | lia].
           ++ lia.
           ++ apply store_same. rewrite store_length, length_app. simpl. lia.
           ++ congruence.
           ++ intros [?|?]; congruence.
Qed.

(** The early returns of [updateState]: an addition to an empty set, or
    an error of the change set other than the tolerated one.  The objects
    of the input store are untouched. *)
Lemma updateState_nValSet_inl (L : Lib) (h : Heap) (state : State.t) (block : Block.t)
    (validatorUpdates : list Validator.t) (nv0 : ValidatorSet.t) (err : error) (h1 : Heap) :
  updateState_nValSet L h state block validatorUpdates nv0 = inl (err, h1) ->
  extends h h1
  /\ ((ValidatorSet.Validators nv0 = [] /\ validatorUpdates <> []
       /\ err = ErrAddingValidatorToBased)
      \/ (ValidatorSet.Validators nv0 <> [] /\ validatorUpdates <> []
          /\ snd (UpdateWithChangeSet L nv0 validatorUpdates) = Some err
          /\ Error err <> Error ErrEmptyValSetGenerated)).
Proof.
  unfold updateState_nValSet.
  pose proof (alloc_extends h nv0) as Hext. simpl in Hext. cbn [alloc].
  destruct (ValidatorSet.Validators nv0) as [|v0 vs0] eqn:Hv0; cbn [length Nat.ltb Nat.leb].
  - destruct validatorUpdates as [|u us]; cbn [length Nat.ltb Nat.leb]; intros H;
      [discriminate |]. inversion H; subst. split; [assumption |]. left.
    repeat split; congruence.
  - destruct validatorUpdates as [|u us]; cbn [length Nat.ltb Nat.leb].
    + rewrite Hv0. cbn [length Nat.ltb Nat.leb]. discriminate.
    + destruct (UpdateWithChangeSet L nv0 (u :: us)) as [nv1 [e1|]] eqn:HU.
      * destruct (String.eqb_spec (Error e1) (Error ErrEmptyValSetGenerated)) as [He|He];
          cbn [negb].
        -- cbn [ValidatorSet.Validators emptyValidatorSet length Nat.ltb Nat.leb]. discriminate.
        -- intros H. inversion H; subst. split.
           ++ apply store_extends; [assumption | lia].
           ++ right. repeat split; try congruence.
      * destruct (ValidatorSet.Validators nv1); cbn [length Nat.ltb Nat.leb]; discriminate.
Qed.

(** What [derefAll] does: it returns the pointees of a slice without nil
    entry, and panics on the first nil entry of any other slice. *)
Lemma derefAll_cases {A} (l : list (option A)) :
  (exists xs, derefAll l = Ok xs /\ l = map Some xs)
  \/ (derefAll l = Panic NilDereference /\ In None l).
Proof.
  induction l as [|[x|] l IH]; cbn [derefAll].
  - left. exists []. split; reflexivity.
  - destruct IH as [(xs & -> & ->)|[-> Hin]].
    + left. exists (x :: xs). split; reflexivity.
    + right. split; [reflexivity | right; exact Hin].
  - right. split; [reflexivity | left; reflexivity].
Qed.

Lemma derefAll_map_Some {A} (xs : list A) : derefAll (map Some xs) = Ok xs.
Proof.
  induction xs as [|x xs IH]; cbn [map derefAll]; [reflexivity |]. rewrite IH. reflexivity.
Qed.

Lemma derefAll_In_None {A} (l : list (option A)) :
  In None l -> derefAll l = Panic NilDereference.
Proof.
  intros Hin. destruct (derefAll_cases l) as [(xs & _ & ->)|[Hp _]]; [| exact Hp].
  apply in_map_iff in Hin. destruct Hin as (x & Hx & _). discriminate.
Qed.

Lemma copy_nil (src : bytes) : copy [] src = [].
Proof. reflexivity. Qed.

(** C2.  After a successful [updateState]: [LastValidators] is a copy of
    the previous [Validators]; [Validators] and [NextValidators] are one
    and the same new object, which holds the (possibly updated) copy of the
    previous [NextValidators]; [LastBlockHeight] is the block's height;
    [AppHash] is 32 zero bytes; and when validator updates were applied,
    [LastHeightValidatorsChanged] is the block's height plus 2 (in [int64]
    arithmetic, so exactly height + 2 when that fits).  The hash of the
    DeliverTx results is computed, since no result was nil, but it is not
    stored: the new state is built without [LastResultsHash], [copy] has
    the nil slice as destination and copies nothing, and [LastResultsHash]
    is empty whatever the hash is. *)
Theorem updateState_success (L : Lib) (h : Heap) (state : State.t) (block : Block.t)
    (abciResponses : LegacyABCIResponses.t) (validatorUpdates : list Validator.t)
    (s : State.t) (h' : Heap) :
  updateState L h state block abciResponses validatorUpdates = (Ok (s, None), h') ->
  let height := Header_Height L (Block.header block) in
  exists nextValidators p results,
    deref h (State.NextValidators state) = Some nextValidators
    /\ (forall validators, deref h (State.Validators state) = Some validators ->
        deref h' (State.LastValidators s) = Some validators)
    /\ State.Validators s = Some p /\ State.NextValidators s = Some p
    /\ length h <= p
    /\ nth_error h' p = Some (spec_nValSet L nextValidators validatorUpdates)
    /\ State.LastBlockHeight s = height
    /\ State.AppHash s = repeat Byte.x00 32
    /\ LegacyABCIResponses.DeliverTxs abciResponses = map Some results
    /\ State.LastResultsHash s = []
    /\ (Results_Hash L results <> [] -> State.LastResultsHash s <> Results_Hash L results)
    /\ (ValidatorSet.Validators nextValidators <> [] -> validatorUpdates <> [] ->
        State.LastHeightValidatorsChanged s = int64_wrap (height + 2)
        /\ ((- 2 ^ 63 <= height + 2 < 2 ^ 63)%Z ->
            State.LastHeightValidatorsChanged s = (height + 2)%Z)).
Proof.
  intros H height. unfold updateState in H.
  destruct (deref h (State.NextValidators state)) as [nv0|] eqn:Hnv0; [| discriminate].
  destruct (updateState_nValSet L h state block validatorUpdates nv0)
    as [[err h1]|[[[p nv] h1] changed]] eqn:Hn; [discriminate |].
  apply updateState_nValSet_inr in Hn.
  destruct Hn as (Hext & Hp & Hnth & Hnv & Hch & _).
  destruct (deref h1 (State.Validators state)) as [vals|] eqn:Hvals; [| discriminate].
  cbn [alloc] in H.
  destruct (derefAll_cases (LegacyABCIResponses.DeliverTxs abciResponses))
    as [(results & Hres & Hmap)|[Hres _]]; rewrite Hres in H; [| discriminate].
  inversion H; subst s h'; clear H.
  exists nv0, p, results.
  refine (conj eq_refl (conj _ (conj eq_refl (conj eq_refl (conj Hp
           (conj _ (conj eq_refl (conj eq_refl (conj Hmap (conj eq_refl (conj _ _))))))))))).
  - intros validators Hv. apply (extends_deref _ Hext) in Hv.
    cbn [State.LastValidators deref]. rewrite nth_error_app2 by lia.
    rewrite Nat.sub_diag. simpl. congruence.
  - rewrite nth_error_app1 by (apply nth_error_Some; congruence). congruence.
  - cbn [State.LastResultsHash State.zero]. rewrite copy_nil. intros Hne Heq.
    apply Hne. symmetry. exact Heq.
  - intros Hne Hu. cbn [State.LastHeightValidatorsChanged].
    rewrite (Hch Hne Hu), int64_add_add. split; [reflexivity |].
    intros Hr. apply int64_wrap_small. exact Hr.
Qed.

Lemma updateState_success_witness :
  exists s h',
    updateState Sample.lib Sample.heap Sample.state (Sample.block None)
      (Sample.responses []) [Sample.W] = (Ok (s, None), h')
    /\ deref h' (State.LastValidators s) = Some Sample.vals
    /\ State.Validators s = State.NextValidators s
    /\ State.LastBlockHeight s = 2%Z
    /\ State.LastHeightValidatorsChanged s = 4%Z
    /\ State.LastResultsHash s = []
    /\ State.LastResultsHash s
       <> Results_Hash Sample.lib [Sample.txResult; Sample.txResult].
Proof.
  eexists. eexists. split; [reflexivity |].
  destruct (updateState_success Sample.lib Sample.heap Sample.state (Sample.block None)
              (Sample.responses []) [Sample.W] eq_refl)
    as (nv & p & results & Hnv & Hlast & Hv & Hn & _ & _ & Hh & _ & Hmap & Hempty & Hdiff & Hch).
  split; [apply Hlast; reflexivity |].
  split; [congruence |].
  split; [exact Hh |].
  vm_compute in Hnv. injection Hnv as <-.
  split; [apply Hch; [discriminate | discriminate
                     | vm_compute; split; [discriminate | reflexivity]] |].
  split; [exact Hempty |].
  assert (Hr : results = [Sample.txResult; Sample.txResult]).
  { destruct results as [|r1 [|r2 [|r3 rs]]]; try discriminate Hmap.
    injection Hmap as <- <-. reflexivity. }
  rewrite <- Hr. apply Hdiff. discriminate.
Defined.

(** C6.  In [updateState] with a non-empty update list: when the copied
    [NextValidators] is non-empty and the change set fails with the
    empty-set error, the error is tolerated, the next state's validator set
    is the explicitly empty set (no validators, no proposer) and the
    computation continues: the state is built as usual and returned, unless
    a DeliverTx result is nil, on which the hashing of the results panics
    afterwards.  When the copied [NextValidators] is already empty,
    [updateState] returns the input state with [ErrAddingValidatorToBased]. *)
Theorem updateState_empty_validator_set (L : Lib) (h : Heap) (state : State.t)
    (block : Block.t) (abciResponses : LegacyABCIResponses.t)
    (validatorUpdates : list Validator.t) (nextValidators : ValidatorSet.t) :
  deref h (State.NextValidators state) = Some nextValidators ->
  validatorUpdates <> [] ->
  (ValidatorSet.Validators nextValidators <> [] ->
   forall after err validators,
     UpdateWithChangeSet L nextValidators validatorUpdates = (after, Some err) ->
     Error err = Error ErrEmptyValSetGenerated ->
     deref h (State.Validators state) = Some validators ->
     exists s h',
       (forall results,
          LegacyABCIResponses.DeliverTxs abciResponses = map Some results ->
          updateState L h state block abciResponses validatorUpdates = (Ok (s, None), h'))
       /\ (In None (LegacyABCIResponses.DeliverTxs abciResponses) ->
           updateState L h state block abciResponses validatorUpdates
           = (Panic NilDereference, h'))
       /\ deref h' (State.Validators s) = Some emptyValidatorSet
       /\ deref h' (State.NextValidators s) = Some emptyValidatorSet
       /\ ValidatorSet.Validators emptyValidatorSet = []
       /\ ValidatorSet.Proposer emptyValidatorSet = None
       /\ deref h' (State.LastValidators s) = Some validators
       /\ State.LastBlockHeight s = Header_Height L (Block.header block))
  /\ (ValidatorSet.Validators nextValidators = [] ->
      exists h',
        updateState L h state block abciResponses validatorUpdates
          = (Ok (state, Some ErrAddingValidatorToBased), h')
        /\ extends h h').
Proof.
  intros Hnv Hu. destruct validatorUpdates as [|u us]; [congruence |]. split.
  - intros Hne after err validators HU He Hvals.
    destruct (ValidatorSet.Validators nextValidators) as [|v0 vs0] eqn:Hv0; [congruence |].
    unfold updateState. rewrite Hnv. unfold updateState_nValSet. cbn [alloc].
    rewrite Hv0. cbn [length Nat.ltb Nat.leb]. rewrite HU, He, String.eqb_refl.
    cbn [negb ValidatorSet.Validators emptyValidatorSet length Nat.ltb Nat.leb].
    set (h1 := store (h ++ [nextValidators]) (length h) after ++ [emptyValidatorSet]).
    assert (Hext : extends h h1).
    { eapply extends_trans; [| apply (alloc_extends _ emptyValidatorSet)].
      apply store_extends; [apply (alloc_extends h nextValidators) | lia]. }
    rewrite (extends_deref _ Hext Hvals). cbn [alloc].
    eexists. eexists.
    split; [intros results Hmap; rewrite Hmap, derefAll_map_Some;
            cbn [State.LastResultsHash State.zero]; rewrite copy_nil; reflexivity |].
    split; [intros Hin; rewrite (derefAll_In_None _ Hin); reflexivity |].
    assert (Hl : length h1 = S (S (length h))).
    { unfold h1. rewrite length_app, store_length, length_app. simpl. lia. }
    assert (Hp : nth_error (h1 ++ [validators])
                   (length (store (h ++ [nextValidators]) (length h) after))
                 = Some emptyValidatorSet).
    { rewrite nth_error_app1 by (rewrite store_length, length_app, Hl; simpl; lia).
      unfold h1. rewrite nth_error_app2 by lia. rewrite Nat.sub_diag. reflexivity. }
    cbn [State.Validators State.NextValidators State.LastValidators
         State.LastBlockHeight deref].
    refine (conj Hp (conj Hp (conj eq_refl (conj eq_refl (conj _ eq_refl))))).
    rewrite nth_error_app2 by lia. rewrite Nat.sub_diag. reflexivity.
  - intros Hv0. unfold updateState. rewrite Hnv. unfold updateState_nValSet. cbn [alloc].
    rewrite Hv0. cbn [length Nat.ltb Nat.leb].
    eexists. split; [reflexivity |]. apply (alloc_extends h nextValidators).
Qed.

Lemma updateState_empty_validator_set_witness :
  (exists s h',
     updateState Sample.lib Sample.heap Sample.state (Sample.block None)
       (Sample.responses []) [Sample.V_removed] = (Ok (s, None), h')
     /\ deref h' (State.Validators s) = Some emptyValidatorSet)
  /\ (exists h',
        updateState Sample.lib Sample.heap_based Sample.state (Sample.block None)
          (Sample.responses []) [Sample.W]
        = (Ok (Sample.state, Some ErrAddingValidatorToBased), h')).
Proof.
  split.
  - destruct (@updateState_empty_validator_set Sample.lib Sample.heap Sample.state
                (Sample.block None) (Sample.responses []) [Sample.V_removed]
                Sample.vals eq_refl) as [Ha _]; [discriminate |].
    destruct (Ha ltac:(discriminate) Sample.vals ErrEmptyValSetGenerated Sample.vals
                eq_refl eq_refl eq_refl) as (s & h' & Hr & _ & Hv & _).
    exists s, h'. split; [exact (Hr [Sample.txResult; Sample.txResult] eq_refl) | exact Hv].
  - destruct (@updateState_empty_validator_set Sample.lib Sample.heap_based Sample.state
                (Sample.block None) (Sample.responses []) [Sample.W]
                emptyValidatorSet eq_refl) as [_ Hb]; [discriminate |].
    destruct (Hb eq_refl) as (h' & Hr & _). exists h'. exact Hr.
Defined.

(** ** [CreateBlock] *)

(** C7.  In a block built by [CreateBlock], [LastCommitHash] is the hash
    of the converted last commit; when the last commit has exactly one
    signature, signature 0 of the converted commit first gets the
    executor's proposer address as validator address and the new header's
    time as timestamp; with any other number of signatures the converted
    commit is hashed as it is.  [header0] is the new header as it is when
    the hash is taken: the three hashes that [CreateBlock] sets afterwards
    are still empty. *)
Theorem CreateBlock_LastCommitHash (L : Lib) (E : Env) (e : BlockExecutor.t) (h : Heap)
    (height : Z) (lastCommit : Commit.t) (lastHeaderHash : Hash) (state : State.t)
    (hist : Trace) (block : Block.t) (tr : Trace) :
  CreateBlock L E e h height lastCommit lastHeaderHash state hist = (Ok block, tr) ->
  let header0 :=
    Header.set_AggregatorsHash []
      (Header.set_LastHeaderHash [] (Header.set_LastCommitHash [] (Block.header block))) in
  let abciCommit := ToABCICommit L lastCommit height (Header_Hash L header0) in
  (length (Commit.Signatures lastCommit) = 1 ->
   exists sig rest,
     ABCICommit.Signatures abciCommit = sig :: rest
     /\ Header.LastCommitHash (Block.header block)
        = ABCICommit_Hash L
            (ABCICommit.mk (ABCICommit.Height abciCommit) (ABCICommit.Round abciCommit)
               (ABCICommit.BlockID abciCommit)
               (CommitSig.mk (CommitSig.BlockIDFlag sig) (BlockExecutor.proposerAddress e)
                  (Header_Time L header0) (CommitSig.Signature sig) :: rest)))
  /\ (length (Commit.Signatures lastCommit) <> 1 ->
      Header.LastCommitHash (Block.header block) = ABCICommit_Hash L abciCommit).
Proof.
  unfold CreateBlock, bind, lift, ret, throw, getLastCommitHash, rewriteSignature.
  cbn [Header.BaseHeader BaseHeader.Height].
  set (hd := Header.mk _ _ [] [] _ _ _ _ [] _).
  destruct (Nat.eqb_spec (length (Commit.Signatures lastCommit)) 1) as [H1|H1].
  - destruct (ABCICommit.Signatures (ToABCICommit L lastCommit height (Header_Hash L hd)))
      as [|sig rest] eqn:Hs; [discriminate |].
    destruct (deref h (State.Validators state)) as [vals|]; [| discriminate].
    intros H. inversion H; subst block tr; clear H.
    cbn -[ABCICommit_Hash ToABCICommit Header_Hash Header_Time]. fold hd. split.
    + intros _. exists sig, rest. split; [exact Hs | reflexivity].
    + congruence.
  - destruct (deref h (State.Validators state)) as [vals|]; [| discriminate].
    intros H. inversion H; subst block tr; clear H.
    cbn -[ABCICommit_Hash ToABCICommit Header_Hash Header_Time]. fold hd. split.
    + congruence.
    + reflexivity.
Qed.

Lemma CreateBlock_LastCommitHash_witness :
  exists block tr,
    CreateBlock Sample.lib Sample.app (Sample.executor false) Sample.heap 2%Z
      Sample.commit1 [] Sample.state [] = (Ok block, tr)
    /\ Header.LastCommitHash (Block.header block)
       = [Byte.x0b; Byte.x05; Byte.xff; Byte.xff; Byte.xff; Byte.xff; Byte.xff].
Proof.
  eexists. eexists. split; [reflexivity |].
  destruct (@CreateBlock_LastCommitHash Sample.lib Sample.app (Sample.executor false)
              Sample.heap 2%Z Sample.commit1 [] Sample.state [] _ _ eq_refl) as [Ha _].
  destruct (Ha eq_refl) as (sig & rest & Hs & Hh).
  rewrite Hh. vm_compute in Hs. injection Hs as <- <-. reflexivity.
Defined.

(** ** [Commit] *)

(** [fromRollkitTxs] keeps every transaction, in order. *)
Lemma fromRollkitTxs_id (rollkitTxs : Txs) : fromRollkitTxs rollkitTxs = rollkitTxs.
Proof. unfold fromRollkitTxs. apply map_id. Qed.

Lemma commit_Ok (L : Lib) (E : Env) (state : State.t) (block : Block.t)
    (deliverTxs : list (option ExecTxResult.t)) (hist : Trace)
    (appHash : bytes) (retainHeight : Z) (t : Trace) :
  commit L E state block deliverTxs hist = (Ok (appHash, retainHeight), t) ->
  exists commitResp,
    t = commitSection L state block deliverTxs commitResp appHash
    /\ retainHeight = to_uint64 (ResponseCommit.RetainHeight commitResp).
Proof.
  unfold commit, defer, bind, emit, call, call_err, check, ret, fail, commitSection.
  rewrite fromRollkitTxs_id. cbn [app].
  destruct (mempool_FlushAppConn E (hist ++ [MempoolLock])) as [e1|]; cbn; [discriminate |].
  destruct (app_Commit E _) as [commitResp|e2|p2]; cbn; try discriminate.
  destruct (app_GetAppHash E _) as [a|e3|p3]; cbn; try discriminate.
  destruct (mempool_Update E _ _ _ _ _ _) as [e4|]; cbn; [discriminate |].
  intros H. inversion H; subst. exists commitResp. split; reflexivity.
Qed.

(** [publishEvents] hands its error back as a value: it never ends in
    [Err]. *)
Lemma publishEvidence_not_Err (E : Env) (evidence : list Evidence) (height : Z)
    (err : option error) (hist : Trace) (e0 : error) (t : Trace) :
  publishEvidence E evidence height err hist <> (Err e0, t).
Proof.
  revert err hist t e0. induction evidence as [|ev rest IH]; intros err hist t e0; simpl.
  - unfold ret. discriminate.
  - unfold bind, call_err.
    destruct (publishEvidence E rest height _ _) as [[v|e1|p] t2] eqn:Hr; try discriminate.
    exfalso. exact (IH _ _ _ _ Hr).
Qed.

Lemma publishTxs_not_Err (E : Env) (abciTxs : list bytes) (height : Z)
    (deliverTxs : list (option ExecTxResult.t)) (i : nat) (err : option error)
    (hist : Trace) (e0 : error) (t : Trace) :
  publishTxs E abciTxs height deliverTxs i err hist <> (Err e0, t).
Proof.
  revert i err hist t e0.
  induction deliverTxs as [|dtx rest IH]; intros i err hist t e0; simpl.
  - unfold ret. discriminate.
  - destruct (nth_error abciTxs i) as [tx|]; [| unfold throw; discriminate].
    destruct dtx as [result|]; [| unfold throw; discriminate].
    unfold bind, call_err.
    destruct (publishTxs E abciTxs height rest _ _ _) as [[v|e1|p] t2] eqn:Hr; try discriminate.
    exfalso. exact (IH _ _ _ _ _ Hr).
Qed.

Lemma publishEvents_not_Err (L : Lib) (E : Env) (e : BlockExecutor.t) (h : Heap)
    (resp : LegacyABCIResponses.t) (block : Block.t) (state : State.t)
    (hist : Trace) (e0 : error) (t : Trace) :
  publishEvents L E e h resp block state hist <> (Err e0, t).
Proof.
  unfold publishEvents.
  destruct (BlockExecutor.eventBus e); [| unfold ret; discriminate].
  destruct (ToABCIBlock L block) as [[abciBlock|] err]; [| unfold throw; discriminate].
  destruct (deref h (State.Validators state)) as [vals|]; [| unfold throw; discriminate].
  destruct err as [err|]; [unfold ret; discriminate |].
  destruct (LegacyABCIResponses.EndBlock resp); [| unfold throw; discriminate].
  destruct (LegacyABCIResponses.BeginBlock resp); [| unfold throw; discriminate].
  unfold bind, call_err.
  destruct (publishEvidence E _ _ _ _) as [[v|e3|p] t2] eqn:Hr; try discriminate.
  - destruct (publishTxs E _ _ _ _ _ _) as [[v'|e4|p] t3] eqn:Hr'; try discriminate.
    exfalso. exact (publishTxs_not_Err _ _ _ _ _ _ _ Hr').
  - exfalso. exact (publishEvidence_not_Err _ _ _ _ _ Hr).
Qed.

Lemma publishEvidence_no_NewBlock (E : Env) (evidence : list Evidence) (height : Z) :
  forall (err : option error) (hist : Trace) (out : result (option error)) (t : Trace),
  publishEvidence E evidence height err hist = (out, t) ->
  forall d r, ~ In (PublishEventNewBlock d r) t.
Proof.
  induction evidence as [|x rest IH]; intros err hist out t; cbn [publishEvidence].
  - unfold ret. intros H; inversion H; subst. intros d r [].
  - unfold bind, call_err.
    match goal with
    | |- context [publishEvidence E rest height ?a ?hs] =>
        destruct (publishEvidence E rest height a hs) as [o2 t2] eqn:Hrest
    end.
    intros H; inversion H; subst. intros d r [Hin|Hin]; [discriminate |].
    exact (IH _ _ _ _ Hrest d r Hin).
Qed.

Lemma publishTxs_no_NewBlock (E : Env) (abciTxs : list bytes) (height : Z)
    (deliverTxs : list (option ExecTxResult.t)) :
  forall (i : nat) (err : option error) (hist : Trace) (out : result (option error)) (t : Trace),
  publishTxs E abciTxs height deliverTxs i err hist = (out, t) ->
  forall d r, ~ In (PublishEventNewBlock d r) t.
Proof.
  induction deliverTxs as [|dtx rest IH]; intros i err hist out t; cbn [publishTxs].
  - unfold ret. intros H; inversion H; subst. intros d r [].
  - destruct (nth_error abciTxs i) as [tx|];
      [| unfold throw; intros H; inversion H; subst; intros d r []].
    destruct dtx as [result|];
      [| unfold throw; intros H; inversion H; subst; intros d r []].
    unfold bind, call_err.
    match goal with
    | |- context [publishTxs E abciTxs height rest (S i) ?a ?hs] =>
        destruct (publishTxs E abciTxs height rest (S i) a hs) as [o2 t2] eqn:Hrest
    end.
    intros H; inversion H; subst. intros d r [Hin|Hin]; [discriminate |].
    exact (IH _ _ _ _ _ Hrest d r Hin).
Qed.

(** The new-block event of [publishEvents] carries the app hash of the
    state it was given. *)
Lemma publishEvents_NewBlock (L : Lib) (E : Env) (e : BlockExecutor.t) (h : Heap)
    (resp : LegacyABCIResponses.t) (block : Block.t) (state : State.t)
    (hist : Trace) (out : result (option error)) (t : Trace) :
  publishEvents L E e h resp block state hist = (out, t) ->
  forall d r, In (PublishEventNewBlock d r) t ->
    ResponseFinalizeBlock.AppHash (EventDataNewBlock.ResultFinalizeBlock d)
    = State.AppHash state.
Proof.
  unfold publishEvents.
  destruct (BlockExecutor.eventBus e);
    [| unfold ret; intros H; inversion H; subst; intros d r []].
  destruct (ToABCIBlock L block) as [[abciBlock|] err];
    [| unfold throw; intros H; inversion H; subst; intros d r []].
  destruct (deref h (State.Validators state)) as [vals|];
    [| unfold throw; intros H; inversion H; subst; intros d r []].
  destruct err as [err|]; [unfold ret; intros H; inversion H; subst; intros d r [] |].
  destruct (LegacyABCIResponses.EndBlock resp) as [endBlock|];
    [| unfold throw; intros H; inversion H; subst; intros d r []].
  destruct (LegacyABCIResponses.BeginBlock resp) as [beginBlock|];
    [| unfold throw; intros H; inversion H; subst; intros d r []].
  unfold bind, call_err.
  match goal with
  | |- context [publishEvidence E ?evs ?hgt ?a ?hs] =>
      destruct (publishEvidence E evs hgt a hs) as [[v|e3|p3] t2] eqn:Hev
  end.
  1: match goal with
     | |- context [publishTxs E ?txs ?hgt ?dtxs 0 ?a ?hs] =>
         destruct (publishTxs E txs hgt dtxs 0 a hs) as [o3 t3] eqn:Htx
     end.
  all: intros H; inversion H; subst; clear H.
  all: intros d r [Hin|[Hin|Hin]]; [injection Hin as <- _; reflexivity | discriminate |].
  all: exfalso.
  - apply in_app_or in Hin. destruct Hin as [Hin|Hin].
    + exact (publishEvidence_no_NewBlock _ _ _ _ _ Hev d r Hin).
    + exact (publishTxs_no_NewBlock _ _ _ _ _ _ _ Htx d r Hin).
  - exact (publishEvidence_no_NewBlock _ _ _ _ _ Hev d r Hin).
  - exact (publishEvidence_no_NewBlock _ _ _ _ _ Hev d r Hin).
Qed.

(** C8.  A successful [Commit] has performed, in this order: lock of the
    mempool, flush of its application connection, application [Commit],
    [GetAppHash], mempool [Update] with the block height, the
    transactions of the block, the DeliverTx results and the max-bytes and
    max-gas limits of the state, unlock; then the events were published
    with a state that differs from the given one in its [AppHash] only,
    which is the new app hash, and this is the app hash a published
    new-block event carries.  It returns that app hash and the retain
    height of the application's [Commit] response.  A failure of the
    publication is logged, and once the critical section has succeeded
    [Commit] never returns an error. *)
Theorem Commit_contract (L : Lib) (E : Env) (e : BlockExecutor.t) (h : Heap)
    (state : State.t) (block : Block.t) (resp : LegacyABCIResponses.t) (hist : Trace) :
  (forall appHash retainHeight tr,
     Commit L E e h state block resp hist = (Ok (appHash, retainHeight), tr) ->
     exists commitResp published events,
       let section :=
         [ MempoolLock;
           MempoolFlushAppConn None;
           AppCommit (Ok commitResp);
           AppGetAppHash (Ok appHash);
           MempoolUpdate (Header_Height L (Block.header block)) (Block.txs block)
             (LegacyABCIResponses.DeliverTxs resp)
             (BlockParams.MaxBytes (ConsensusParams.Block (State.ConsensusParams state)))
             (BlockParams.MaxGas (ConsensusParams.Block (State.ConsensusParams state)))
             None;
           MempoolUnlock ] in
       let written :=
         State.mk (State.Version state) (State.ChainID state) (State.InitialHeight state)
           (State.LastBlockHeight state) (State.LastBlockID state)
           (State.LastBlockTime state) (State.NextValidators state)
           (State.Validators state) (State.LastValidators state)
           (State.LastHeightValidatorsChanged state) (State.ConsensusParams state)
           (State.LastHeightConsensusParamsChanged state) (State.LastResultsHash state)
           appHash in
       retainHeight = to_uint64 (ResponseCommit.RetainHeight commitResp)
       /\ publishEvents L E e h resp block written (hist ++ section) = (Ok published, events)
       /\ tr = section ++ events
               ++ match published with
                  | Some _ => [Log LogError "failed to fire block events"]
                  | None => []
                  end
       /\ (forall d r, In (PublishEventNewBlock d r) tr ->
           ResponseFinalizeBlock.AppHash (EventDataNewBlock.ResultFinalizeBlock d) = appHash))
  /\ (forall v t1,
        commit L E state block (LegacyABCIResponses.DeliverTxs resp) hist = (Ok v, t1) ->
        forall err tr, Commit L E e h state block resp hist <> (Err err, tr)).
Proof.
  split.
  - intros appHash retainHeight tr. unfold Commit. unfold bind at 1.
    destruct (commit L E state block (LegacyABCIResponses.DeliverTxs resp) hist)
      as [[[a r]|e1|p1] t1] eqn:Hc; try discriminate.
    apply commit_Ok in Hc. destruct Hc as (commitResp & -> & ->).
    unfold bind, State.set_AppHash, commitSection.
    match goal with
    | |- context [publishEvents L E e h resp block ?st ?hs] =>
        destruct (publishEvents L E e h resp block st hs)
          as [[published|e2|p2] t2] eqn:Hp; try discriminate
    end.
    pose proof (publishEvents_NewBlock _ _ _ _ _ _ _ _ Hp) as Hnew.
    cbn [State.AppHash] in Hnew.
    assert (Hpin : forall (tail : Trace),
               (forall d r0, ~ In (PublishEventNewBlock d r0) tail) ->
               forall d r0,
                 In (PublishEventNewBlock d r0)
                    ([ MempoolLock; MempoolFlushAppConn None; AppCommit (Ok commitResp);
                       AppGetAppHash (Ok a);
                       MempoolUpdate (Header_Height L (Block.header block)) (Block.txs block)
                         (LegacyABCIResponses.DeliverTxs resp)
                         (BlockParams.MaxBytes
                            (ConsensusParams.Block (State.ConsensusParams state)))
                         (BlockParams.MaxGas
                            (ConsensusParams.Block (State.ConsensusParams state)))
                         None;
                       MempoolUnlock ] ++ t2 ++ tail) ->
                 ResponseFinalizeBlock.AppHash (EventDataNewBlock.ResultFinalizeBlock d) = a).
    { intros tail Htail d r0 Hin. apply in_app_or in Hin. destruct Hin as [Hin|Hin].
      - cbn in Hin. exfalso. intuition discriminate.
      - apply in_app_or in Hin. destruct Hin as [Hin|Hin];
          [exact (Hnew d r0 Hin) | exfalso; exact (Htail d r0 Hin)]. }
    destruct published as [perr|]; unfold emit, ret; cbn [app];
      intros H; inversion H; subst;
      exists commitResp; eexists; exists t2; (split; [reflexivity |]); (split; [exact Hp |]).
    + split; [rewrite ?app_nil_r; reflexivity |].
      rewrite ?app_nil_r. apply Hpin. intros d r0 [Hin|[]]. discriminate.
    + split; [rewrite ?app_nil_r; reflexivity |].
      intros d r0 Hin. apply (Hpin [] ltac:(intros ? ? []) d r0).
      rewrite ?app_nil_r in *. exact Hin.
  - intros [a r] t1 Hc err tr. unfold Commit. unfold bind at 1. rewrite Hc.
    unfold bind.
    destruct (publishEvents L E e h resp block (State.set_AppHash a state) _)
      as [[published|e2|p2] t2] eqn:Hp.
    + destruct published; unfold emit, ret; cbn; discriminate.
    + exfalso. exact (publishEvents_not_Err _ _ _ _ _ _ _ _ Hp).
    + discriminate.
Qed.

Lemma Commit_contract_witness :
  (exists tr,
     Commit Sample.lib Sample.app_bus_down (Sample.executor false) Sample.heap Sample.state
       (Sample.block None) (Sample.responses []) [] = (Ok (Sample.h0, 7%Z), tr)
     /\ last tr MempoolLock = Log LogError "failed to fire block events"
     /\ nth 4 tr MempoolLock
        = MempoolUpdate 2%Z [[Byte.x01]; [Byte.x02]]
            [Some Sample.txResult; Some Sample.txResult] 1048576%Z (-1)%Z None)
  /\ (forall err tr,
        Commit Sample.lib Sample.app_bus_down (Sample.executor false) Sample.heap Sample.state
          (Sample.block None) (Sample.responses []) [] <> (Err err, tr)).
Proof.
  pose proof (Commit_contract Sample.lib Sample.app_bus_down (Sample.executor false)
                Sample.heap Sample.state (Sample.block None) (Sample.responses []) [])
    as [Hok Hne].
  split.
  - eexists. split; [reflexivity |].
    destruct (Hok _ _ _ eq_refl) as (commitResp & published & events & _ & _ & _).
    split; reflexivity.
  - eapply Hne. reflexivity.
Defined.

(** ** The capture points of [execute] *)

(** One capture point that finds no fraud advances the index by one; a
    mismatch at a capture point is at the current index and is reported. *)
Lemma gen_first_mismatch (E : Env) (e : BlockExecutor.t) (l : list bytes) (st : locals)
    (bbr : RequestBeginBlock.t) (dtr : option (list RequestDeliverTx.t))
    (ebr : option RequestEndBlock.t) (hist : Trace) (out : result locals) (t : Trace) :
  BlockExecutor.fraudProofsEnabled e = true ->
  genAndGossipFraudProofIfNeeded E e (Some l) st (Some bbr) dtr ebr hist = (out, t) ->
  (forall st', out = Ok st' ->
     currentIsrIndex st' = S (currentIsrIndex st)
     /\ forall t2, first_mismatch l (t ++ t2) = first_mismatch l t2)
  /\ (forall k g post, first_mismatch l t = Some (k, g, post) ->
        k = currentIsrIndex st /\ fraudReport e (fraudProofRequest bbr dtr ebr) post out).
Proof.
  intros Hf. unfold genAndGossipFraudProofIfNeeded. rewrite Hf. cbn [negb].
  unfold bind, getAppHash, call, isFraudProofTrigger, emit, ret, throw, generateFraudProof,
    call_err, fail. cbn [currentIsrIndex ISRs].
  destruct (app_GetAppHash E hist) as [isr|e1|p1]; cbn.
  2,3: intros H; inversion H; subst; split; [intros ? ?; discriminate | cbn; discriminate].
  destruct (nth_error l (currentIsrIndex st)) as [s|] eqn:Hn; cbn.
  2:{ intros H; inversion H; subst; split; [intros ? ?; discriminate |].
      cbn. rewrite Hn. discriminate. }
  destruct (bytes_Equal s isr) eqn:Hs; cbn.
  - intros H; inversion H; subst. split.
    + intros st' Hst. inversion Hst; subst. split; [reflexivity |].
      intros t2. cbn. rewrite Hn, Hs. destruct t2; reflexivity.
    + cbn. rewrite Hn, Hs. discriminate.
  - destruct (app_GenerateFraudProof E _ _) as [[proof|]|e2|p2] eqn:Hg; cbn.
    2-4: intros H; inversion H; subst; split; [intros ? ?; discriminate |];
      cbn; rewrite Hn, Hs; intros k g post Hm; inversion Hm; subst;
      (split; [reflexivity |]); eexists; eexists;
      (split; [reflexivity |]); (split; [discriminate |]); intros ? ?; discriminate.
    destruct (BlockExecutor.FraudService e) as [svc|] eqn:Hsvc; cbn.
    + destruct (fraud_Broadcast E _ proof) as [eb|] eqn:Hb; cbn;
        intros H; inversion H; subst; (split; [intros ? ?; discriminate |]);
        cbn; rewrite Hn, Hs; intros k g post Hm; inversion Hm; subst;
        (split; [reflexivity |]); eexists; eexists;
        (split; [reflexivity |]); (split; [discriminate |]);
        intros proof' Hp _; inversion Hp; subst; eexists; (split; [reflexivity |]);
        intros Hrb; try discriminate; reflexivity.
    + intros H; inversion H; subst; (split; [intros ? ?; discriminate |]).
      cbn; rewrite Hn, Hs; intros k g post Hm; inversion Hm; subst.
      split; [reflexivity |]. eexists; eexists.
      split; [reflexivity |]. split; [discriminate |]. intros ? ? Hc. congruence.
Qed.

(** What one capture point does to the trace and to the captured
    variables: the only position it reads is the current index, and only
    when a list was supplied; it never calls [FinalizeBlock]; when it
    returns, fraud proofs being enabled, it has appended the app hash it
    captured and advanced the index by one. *)
Lemma gen_effects (E : Env) (e : BlockExecutor.t) (isrs : option (list bytes)) (st : locals)
    (bbr : option RequestBeginBlock.t) (dtr : option (list RequestDeliverTx.t))
    (ebr : option RequestEndBlock.t) (hist : Trace) (out : result locals) (t : Trace) :
  genAndGossipFraudProofIfNeeded E e isrs st bbr dtr ebr hist = (out, t) ->
  (forall i, In (ReadIsr i) t -> i = currentIsrIndex st /\ isrs <> None)
  /\ (forall req r, ~ In (AppFinalizeBlock req r) t)
  /\ (forall st', out = Ok st' ->
      if BlockExecutor.fraudProofsEnabled e
      then exists isr, ISRs st' = ISRs st ++ [isr]
                       /\ currentIsrIndex st' = S (currentIsrIndex st)
                       /\ captured t = [isr]
      else st' = st /\ t = []).
Proof.
  unfold genAndGossipFraudProofIfNeeded.
  destruct (BlockExecutor.fraudProofsEnabled e); cbn [negb].
  2:{ unfold ret. intros H; inversion H; subst.
      split; [intros i [] |]. split; [intros ? ? [] |].
      intros st' Hst. inversion Hst. split; reflexivity. }
  unfold bind, getAppHash, call, isFraudProofTrigger, emit, ret, throw, generateFraudProof,
    call_err, fail. cbn [currentIsrIndex ISRs].
  destruct (app_GetAppHash E hist) as [isr|e1|p1]; cbn.
  2,3: intros H; inversion H; subst;
    (split; [intros i [Hi|[]]; discriminate |]);
    (split; [intros ? ? [Hi|[]]; discriminate |]); intros ? ?; discriminate.
  destruct isrs as [l|]; cbn.
  2:{ intros H; inversion H; subst.
      split; [intros i [Hi|[]]; discriminate |].
      split; [intros ? ? [Hi|[]]; discriminate |].
      intros st' Hst. inversion Hst; subst. exists isr. repeat split. }
  assert (Hread : forall i (post : Trace),
             (forall j, ~ In (ReadIsr j) post) ->
             In (ReadIsr i) (AppGetAppHash (Ok isr) :: ReadIsr (currentIsrIndex st) :: post) ->
             i = currentIsrIndex st /\ Some l <> None).
  { intros i post Hpost [Hi|[Hi|Hi]]; [discriminate | | exfalso; exact (Hpost _ Hi)].
    inversion Hi. split; [reflexivity | discriminate]. }
  assert (Hfin : forall req r (post : Trace),
             (forall req' r', ~ In (AppFinalizeBlock req' r') post) ->
             ~ In (AppFinalizeBlock req r)
                 (AppGetAppHash (Ok isr) :: ReadIsr (currentIsrIndex st) :: post)).
  { intros req r post Hpost [Hi|[Hi|Hi]]; [discriminate | discriminate |].
    exact (Hpost _ _ Hi). }
  destruct (nth_error l (currentIsrIndex st)) as [s|]; cbn.
  2:{ intros H; inversion H; subst.
      split; [intros i Hi; apply (Hread i [] ltac:(intros ? [])); exact Hi |].
      split; [intros req r; apply Hfin; intros ? ? [] |]. intros ? ?; discriminate. }
  destruct (bytes_Equal s isr); cbn.
  { intros H; inversion H; subst.
    split; [intros i Hi; apply (Hread i [] ltac:(intros ? [])); exact Hi |].
    split; [intros req r; apply Hfin; intros ? ? [] |].
    intros st' Hst. inversion Hst; subst. exists isr. repeat split. }
  destruct bbr as [b|]; cbn.
  2:{ intros H; inversion H; subst.
      split; [intros i Hi; eapply Hread; [| exact Hi];
              intros j Hj; cbn in Hj; intuition discriminate |].
      split; [intros req r; apply Hfin; intros ? ? Hj; cbn in Hj; intuition discriminate |].
      intros ? ?; discriminate. }
  destruct (app_GenerateFraudProof E _ _) as [[proof|]|e2|p2]; cbn.
  2-4: intros H; inversion H; subst;
    (split; [intros i Hi; eapply Hread; [| exact Hi];
             intros j Hj; cbn in Hj; intuition discriminate |]);
    (split; [intros req r; apply Hfin; intros ? ? Hj; cbn in Hj; intuition discriminate |]);
    intros ? ?; discriminate.
  destruct (BlockExecutor.FraudService e) as [svc|]; cbn.
  2:{ intros H; inversion H; subst.
      split; [intros i Hi; eapply Hread; [| exact Hi];
              intros j Hj; cbn in Hj; intuition discriminate |].
      split; [intros req r; apply Hfin; intros ? ? Hj; cbn in Hj; intuition discriminate |].
      intros ? ?; discriminate. }
  destruct (fraud_Broadcast E _ proof) as [eb|]; cbn;
    intros H; inversion H; subst;
    (split; [intros i Hi; eapply Hread; [| exact Hi];
             intros j Hj; cbn in Hj; intuition discriminate |]);
    (split; [intros req r; apply Hfin; intros ? ? Hj; cbn in Hj; intuition discriminate |]);
    intros ? ?; discriminate.
Qed.

Lemma captured_app (t1 t2 : Trace) : captured (t1 ++ t2) = captured t1 ++ captured t2.
Proof. unfold captured. apply flat_map_app. Qed.

(** The loop over the transactions: it reads the positions from the
    current index on, one per transaction; it never calls
    [FinalizeBlock]; when it returns it has built one request per
    transaction and, fraud proofs being enabled, captured one app hash per
    transaction. *)
Lemma loop_effects (E : Env) (e : BlockExecutor.t) (isrs : option (list bytes))
    (bbr : RequestBeginBlock.t) (txs : Txs) :
  forall (reqs : list RequestDeliverTx.t) (st : locals) (hist : Trace)
         (out : result (list RequestDeliverTx.t * locals)) (t : Trace),
  deliverTxLoop E e isrs bbr txs reqs st hist = (out, t) ->
  (forall i, In (ReadIsr i) t ->
     currentIsrIndex st <= i < currentIsrIndex st + length txs /\ isrs <> None)
  /\ (forall req r, ~ In (AppFinalizeBlock req r) t)
  /\ (forall reqs' st', out = Ok (reqs', st') ->
      reqs' = reqs ++ map RequestDeliverTx.mk txs
      /\ if BlockExecutor.fraudProofsEnabled e
         then ISRs st' = ISRs st ++ captured t
              /\ length (captured t) = length txs
              /\ currentIsrIndex st' = currentIsrIndex st + length txs
         else st' = st /\ t = []).
Proof.
  induction txs as [|tx rest IH]; intros reqs st hist out t; cbn [deliverTxLoop].
  - unfold ret. intros H; inversion H; subst.
    split; [intros i [] |]. split; [intros ? ? [] |].
    intros reqs' st' Hst. inversion Hst; subst. rewrite app_nil_r. split; [reflexivity |].
    destruct (BlockExecutor.fraudProofsEnabled e); cbn.
    + rewrite app_nil_r, Nat.add_0_r. repeat split.
    + split; reflexivity.
  - unfold bind.
    destruct (genAndGossipFraudProofIfNeeded E e isrs st (Some bbr)
                (Some (reqs ++ [RequestDeliverTx.mk tx])) None hist)
      as [[st1|e1|p1] t1] eqn:Hg;
      apply gen_effects in Hg; destruct Hg as (Hr1 & Hf1 & Hs1).
    2,3: intros H; inversion H; subst;
      (split; [intros i Hi; destruct (Hr1 i Hi) as [-> Hn]; cbn; split; [lia | exact Hn] |]);
      (split; [exact Hf1 |]); intros ? ? ?; discriminate.
    destruct (deliverTxLoop E e isrs bbr rest (reqs ++ [RequestDeliverTx.mk tx]) st1
                (hist ++ t1)) as [o2 t2] eqn:Hl.
    apply IH in Hl. destruct Hl as (Hr2 & Hf2 & Hs2).
    specialize (Hs1 st1 eq_refl).
    intros H; inversion H; subst. split; [| split].
    + intros i Hi. apply in_app_or in Hi. destruct Hi as [Hi|Hi].
      * destruct (Hr1 i Hi) as [-> Hn]. cbn. split; [lia | exact Hn].
      * destruct (Hr2 i Hi) as [Hb Hn]. split; [| exact Hn].
        destruct (BlockExecutor.fraudProofsEnabled e).
        -- destruct Hs1 as (isr & _ & Hidx & _). cbn [length]. lia.
        -- destruct Hs1 as [-> _]. cbn [length]. lia.
    + intros req r Hi. apply in_app_or in Hi. destruct Hi as [Hi|Hi];
        [exact (Hf1 _ _ Hi) | exact (Hf2 _ _ Hi)].
    + intros reqs' st' Hst. destruct (Hs2 reqs' st' Hst) as [Hreqs Hst2].
      split; [rewrite Hreqs, <- app_assoc; reflexivity |].
      destruct (BlockExecutor.fraudProofsEnabled e).
      * destruct Hs1 as (isr & HI1 & Hidx1 & Hc1).
        destruct Hst2 as (HI2 & Hlen2 & Hidx2).
        rewrite captured_app, Hc1, length_app, Hlen2. cbn [length].
        rewrite HI2, HI1, <- app_assoc. repeat split. lia.
      * destruct Hs1 as [-> ->]. destruct Hst2 as [-> ->]. split; reflexivity.
Qed.

(** In the loop a mismatch is reported with the requests of the
    transactions delivered so far and no [EndBlock] request. *)
Lemma loop_first_mismatch (E : Env) (e : BlockExecutor.t) (l : list bytes)
    (bbr : RequestBeginBlock.t) (txs : Txs) :
  BlockExecutor.fraudProofsEnabled e = true ->
  forall (reqs : list RequestDeliverTx.t) (st : locals) (hist : Trace)
         (out : result (list RequestDeliverTx.t * locals)) (t : Trace),
  deliverTxLoop E e (Some l) bbr txs reqs st hist = (out, t) ->
  (forall v, out = Ok v -> forall t2, first_mismatch l (t ++ t2) = first_mismatch l t2)
  /\ (forall k g post, first_mismatch l t = Some (k, g, post) ->
        currentIsrIndex st <= k < currentIsrIndex st + length txs
        /\ fraudReport e
             (fraudProofRequest bbr
                (Some (reqs ++ map RequestDeliverTx.mk
                                 (firstn (S (k - currentIsrIndex st)) txs))) None)
             post out).
Proof.
  intros Hfraud.
  induction txs as [|tx rest IH]; intros reqs st hist out t; cbn [deliverTxLoop].
  - unfold ret. intros H; inversion H; subst. split; [reflexivity |]. cbn. discriminate.
  - unfold bind.
    destruct (genAndGossipFraudProofIfNeeded E e (Some l) st (Some bbr)
                (Some (reqs ++ [RequestDeliverTx.mk tx])) None hist)
      as [[st1|e1|p1] t1] eqn:Hg;
      (eapply gen_first_mismatch in Hg; [| exact Hfraud]); destruct Hg as (Hok & Hmis).
    2,3: intros H; inversion H; subst; (split; [intros ? ?; discriminate |]);
      intros k g post Hm; destruct (Hmis k g post Hm) as [-> (r & rest' & Hp & Hno & Hb)];
      rewrite Nat.sub_diag; cbn [firstn map length];
      (split; [lia |]); exists r, rest'; (split; [exact Hp |]);
      (split; [discriminate |]); intros proof Hr Hs; destruct (Hb proof Hr Hs) as (rb & Hrest & Hrb);
      exists rb; (split; [exact Hrest |]); intros Hn; specialize (Hrb Hn);
      first [discriminate | inversion Hrb; reflexivity].
    destruct (Hok st1 eq_refl) as [Hidx Hskip].
    destruct (deliverTxLoop E e (Some l) bbr rest (reqs ++ [RequestDeliverTx.mk tx]) st1
                (hist ++ t1)) as [o2 t2] eqn:Hl.
    apply IH in Hl. destruct Hl as (Hok2 & Hmis2).
    intros H; inversion H; subst. split.
    + intros v Hv t3. rewrite <- app_assoc, Hskip. exact (Hok2 v Hv t3).
    + intros k g post. rewrite Hskip. intros Hm.
      destruct (Hmis2 k g post Hm) as [Hk Hrep]. split; [cbn [length]; lia |].
      replace (S (k - currentIsrIndex st)) with (S (S (k - currentIsrIndex st1))) by lia.
      cbn [firstn map]. rewrite <- app_assoc in Hrep. exact Hrep.
Qed.

Lemma executeCaptures_effects (L : Lib) (E : Env) (e : BlockExecutor.t) (block : Block.t)
    (bbr : RequestBeginBlock.t) (fin : ResponseFinalizeBlock.t) (st0 : locals)
    (hist : Trace) (out : result (LegacyABCIResponses.t * Block.t)) (t : Trace) :
  executeCaptures L E e block bbr fin st0 hist = (out, t) ->
  (forall i, In (ReadIsr i) t ->
     currentIsrIndex st0 <= i < currentIsrIndex st0 + length (Block.txs block) + 2
     /\ Block.isrs block <> None)
  /\ (forall req r, ~ In (AppFinalizeBlock req r) t)
  /\ (forall resp block', out = Ok (resp, block') ->
      if BlockExecutor.fraudProofsEnabled e
      then length (captured t) = length (Block.txs block) + 2
           /\ match Block.isrs block with
              | None => block' = Block.set_isrs (Some (ISRs st0 ++ captured t)) block
              | Some _ => block' = block
              end
      else t = [] /\ block' = block).
Proof.
  unfold executeCaptures, bind.
  destruct (genAndGossipFraudProofIfNeeded E e (Block.isrs block) st0 (Some bbr) None None hist)
    as [[st1|e1|p1] t1] eqn:Hg1; apply gen_effects in Hg1; destruct Hg1 as (Hr1 & Hf1 & Hs1).
  2,3: intros H; inversion H; subst;
    (split; [intros i Hi; destruct (Hr1 i Hi) as [-> Hn]; split; [lia | exact Hn] |]);
    (split; [exact Hf1 |]); intros ? ? ?; discriminate.
  specialize (Hs1 st1 eq_refl).
  destruct (deliverTxLoop E e (Block.isrs block) bbr (Block.txs block) [] st1 (hist ++ t1))
    as [[[reqs st2]|e2|p2] t2] eqn:Hl; apply loop_effects in Hl; destruct Hl as (Hr2 & Hf2 & Hs2).
  2,3: intros H; inversion H; subst;
    (split; [intros i Hi; apply in_app_or in Hi; destruct Hi as [Hi|Hi];
             [ destruct (Hr1 i Hi) as [-> Hn]; split; [lia | exact Hn]
             | destruct (Hr2 i Hi) as [Hb Hn]; split; [| exact Hn];
               destruct (BlockExecutor.fraudProofsEnabled e);
               [ destruct Hs1 as (isr & _ & Hidx & _); lia | destruct Hs1 as [-> _]; lia ] ] |]);
    (split; [intros req r Hi; apply in_app_or in Hi; destruct Hi as [Hi|Hi];
             [exact (Hf1 _ _ Hi) | exact (Hf2 _ _ Hi)] |]);
    intros ? ? ?; discriminate.
  specialize (Hs2 reqs st2 eq_refl). destruct Hs2 as [Hreqs Hs2].
  destruct (genAndGossipFraudProofIfNeeded E e (Block.isrs block) st2 (Some bbr) (Some reqs)
              (Some (RequestEndBlock.mk (Header_Height L (Block.header block))))
              ((hist ++ t1) ++ t2))
    as [[st3|e3|p3] t3] eqn:Hg3; apply gen_effects in Hg3; destruct Hg3 as (Hr3 & Hf3 & Hs3).
  all: assert (Hreads : forall i, In (ReadIsr i) (t1 ++ t2 ++ t3) ->
             currentIsrIndex st0 <= i < currentIsrIndex st0 + length (Block.txs block) + 2
             /\ Block.isrs block <> None).
  all: try (intros i Hi; apply in_app_or in Hi; destruct Hi as [Hi|Hi];
      [ destruct (Hr1 i Hi) as [-> Hn]; split; [lia | exact Hn] |];
      apply in_app_or in Hi; destruct Hi as [Hi|Hi];
      [ destruct (Hr2 i Hi) as [Hb Hn]; split; [| exact Hn];
        destruct (BlockExecutor.fraudProofsEnabled e);
        [ destruct Hs1 as (isr & _ & Hidx & _); lia | destruct Hs1 as [-> _]; lia ]
      | destruct (Hr3 i Hi) as [-> Hn]; split; [| exact Hn];
        destruct (BlockExecutor.fraudProofsEnabled e);
        [ destruct Hs1 as (isr & _ & Hidx & _); destruct Hs2 as (_ & _ & Hidx2); lia
        | destruct Hs1 as [-> _]; destruct Hs2 as [-> _]; lia ] ]).
  all: assert (Hfins : forall req r, ~ In (AppFinalizeBlock req r) (t1 ++ t2 ++ t3)).
  all: try (intros req r Hi; apply in_app_or in Hi; destruct Hi as [Hi|Hi];
      [exact (Hf1 _ _ Hi) |]; apply in_app_or in Hi; destruct Hi as [Hi|Hi];
      [exact (Hf2 _ _ Hi) | exact (Hf3 _ _ Hi)]).
  2,3: intros H; inversion H; subst; (split; [exact Hreads |]); (split; [exact Hfins |]);
    intros ? ? ?; discriminate.
  specialize (Hs3 st3 eq_refl).
  destruct (Block.isrs block) as [l|] eqn:Hisrs;
    destruct (BlockExecutor.fraudProofsEnabled e) eqn:Hfe; unfold ret;
    intros H; inversion H; subst; rewrite ?app_nil_r;
    (split; [exact Hreads |]); (split; [exact Hfins |]);
    intros resp block' Hout; inversion Hout; subst.
  - destruct Hs1 as (isr1 & HI1 & _ & Hc1). destruct Hs2 as (HI2 & Hl2 & _).
    destruct Hs3 as (isr3 & HI3 & _ & Hc3).
    rewrite !captured_app, !length_app, Hc1, Hc3, Hl2. cbn [length]. split; [lia | reflexivity].
  - destruct Hs1 as [-> ->]. destruct Hs2 as [-> ->]. destruct Hs3 as [-> ->].
    split; reflexivity.
  - destruct Hs1 as (isr1 & HI1 & _ & Hc1). destruct Hs2 as (HI2 & Hl2 & _).
    destruct Hs3 as (isr3 & HI3 & _ & Hc3).
    rewrite !captured_app, !length_app, Hc1, Hc3, Hl2. cbn [length]. split; [lia |].
    rewrite HI3, HI2, HI1, <- !app_assoc. reflexivity.
  - destruct Hs1 as [-> ->]. destruct Hs2 as [-> ->]. destruct Hs3 as [-> ->].
    split; reflexivity.
Qed.

Lemma fraudReport_Err {A B} (e : BlockExecutor.t) (req : RequestGenerateFraudProof.t)
    (post : Trace) (err : error) :
  fraudReport e req post (@Err A err) -> fraudReport e req post (@Err B err).
Proof.
  intros (r & rest & Hp & _ & Hb). exists r, rest.
  split; [exact Hp |]. split; [discriminate |].
  intros proof Hr Hs. destruct (Hb proof Hr Hs) as (rb & Hrest & Hrb).
  exists rb. split; [exact Hrest |]. intros Hn. specialize (Hrb Hn). congruence.
Qed.

Lemma fraudReport_Panic {A B} (e : BlockExecutor.t) (req : RequestGenerateFraudProof.t)
    (post : Trace) (p : panic) :
  fraudReport e req post (@Panic A p) -> fraudReport e req post (@Panic B p).
Proof.
  intros (r & rest & Hp & _ & Hb). exists r, rest.
  split; [exact Hp |]. split; [discriminate |].
  intros proof Hr Hs. destruct (Hb proof Hr Hs) as (rb & Hrest & Hrb).
  exists rb. split; [exact Hrest |]. intros Hn. specialize (Hrb Hn). discriminate.
Qed.

Lemma fraudReport_not_Ok {A} (e : BlockExecutor.t) (req : RequestGenerateFraudProof.t)
    (post : Trace) (v : A) :
  ~ fraudReport e req post (Ok v).
Proof.
  intros (r & rest & _ & Hno & _). exact (Hno v eq_refl).
Qed.

(** In the capture phase of [execute], started at index 1, a mismatch
    is at one of the positions 1 to [len(Txs) + 2] and is reported with
    the request of that position. *)
Lemma executeCaptures_first_mismatch (L : Lib) (E : Env) (e : BlockExecutor.t)
    (block : Block.t) (bbr : RequestBeginBlock.t) (fin : ResponseFinalizeBlock.t)
    (st0 : locals) (hist : Trace) (out : result (LegacyABCIResponses.t * Block.t))
    (t : Trace) (l : list bytes) :
  BlockExecutor.fraudProofsEnabled e = true ->
  Block.isrs block = Some l ->
  currentIsrIndex st0 = 1 ->
  executeCaptures L E e block bbr fin st0 hist = (out, t) ->
  forall k g post, first_mismatch l t = Some (k, g, post) ->
    1 <= k <= length (Block.txs block) + 2
    /\ fraudReport e (fraudRequestAt L block bbr k) post out.
Proof.
  intros Hfraud Hisrs Hidx0. unfold executeCaptures, bind. rewrite Hisrs.
  set (n := length (Block.txs block)).
  destruct (genAndGossipFraudProofIfNeeded E e (Some l) st0 (Some bbr) None None hist)
    as [[st1|e1|p1] t1] eqn:Hg1;
    (eapply gen_first_mismatch in Hg1; [| exact Hfraud]); destruct Hg1 as (Hok1 & Hmis1).
  2,3: intros H; inversion H; subst; intros k g post Hm;
    destruct (Hmis1 k g post Hm) as [-> Hrep]; rewrite Hidx0;
    (split; [lia |]); unfold fraudRequestAt; fold n;
    replace (1 =? n + 2)%nat with false by (symmetry; apply Nat.eqb_neq; lia);
    cbn [Nat.eqb]; first [exact (fraudReport_Err Hrep) | exact (fraudReport_Panic Hrep)].
  destruct (Hok1 st1 eq_refl) as [Hidx1 Hskip1].
  destruct (deliverTxLoop E e (Some l) bbr (Block.txs block) [] st1 (hist ++ t1))
    as [[[reqs st2]|e2|p2] t2] eqn:Hl;
    pose proof (loop_effects _ _ _ _ _ _ _ _ Hl) as (_ & _ & Hs2);
    (eapply loop_first_mismatch in Hl; [| exact Hfraud]); destruct Hl as (Hok2 & Hmis2).
  2,3: intros H; inversion H; subst; intros k g post; rewrite Hskip1; intros Hm;
    destruct (Hmis2 k g post Hm) as [Hk Hrep]; fold n in Hk;
    (split; [lia |]); unfold fraudRequestAt; fold n;
    replace (k =? 1)%nat with false by (symmetry; apply Nat.eqb_neq; lia);
    replace (k =? n + 2)%nat with false by (symmetry; apply Nat.eqb_neq; lia);
    replace (k - 1) with (S (k - currentIsrIndex st1)) by lia;
    first [exact (fraudReport_Err Hrep) | exact (fraudReport_Panic Hrep)].
  destruct (Hs2 reqs st2 eq_refl) as [Hreqs Hst2]. rewrite Hfraud in Hst2.
  destruct Hst2 as (_ & _ & Hidx2). cbn [app] in Hreqs.
  specialize (Hok2 _ eq_refl).
  destruct (genAndGossipFraudProofIfNeeded E e (Some l) st2 (Some bbr) (Some reqs)
              (Some (RequestEndBlock.mk (Header_Height L (Block.header block))))
              ((hist ++ t1) ++ t2))
    as [[st3|e3|p3] t3] eqn:Hg3;
    (eapply gen_first_mismatch in Hg3; [| exact Hfraud]); destruct Hg3 as (Hok3 & Hmis3).
  - unfold ret. intros H; inversion H; subst.
    intros k g post. rewrite app_nil_r, Hskip1, Hok2. intros Hm.
    destruct (Hmis3 k g post Hm) as [_ Hrep]. exfalso. exact (fraudReport_not_Ok Hrep).
  - intros H; inversion H; subst. intros k g post. rewrite Hskip1, Hok2. intros Hm.
    destruct (Hmis3 k g post Hm) as [-> Hrep]. fold n in Hidx2.
    split; [lia |]. unfold fraudRequestAt. fold n.
    replace (currentIsrIndex st2 =? 1)%nat with false by (symmetry; apply Nat.eqb_neq; lia).
    replace (currentIsrIndex st2 =? n + 2)%nat with true by (symmetry; apply Nat.eqb_eq; lia).
    rewrite firstn_all2 by (fold n; lia). exact (fraudReport_Err Hrep).
  - intros H; inversion H; subst. intros k g post. rewrite Hskip1, Hok2. intros Hm.
    destruct (Hmis3 k g post Hm) as [-> Hrep]. fold n in Hidx2.
    split; [lia |]. unfold fraudRequestAt. fold n.
    replace (currentIsrIndex st2 =? 1)%nat with false by (symmetry; apply Nat.eqb_neq; lia).
    replace (currentIsrIndex st2 =? n + 2)%nat with true by (symmetry; apply Nat.eqb_eq; lia).
    rewrite firstn_all2 by (fold n; lia). exact (fraudReport_Panic Hrep).
Qed.

(** A capture point that returns has compared the app hash it captured
    with the entry of the list at the current index, and found them
    equal. *)
Lemma gen_match (E : Env) (e : BlockExecutor.t) (l : list bytes) (st : locals)
    (bbr : option RequestBeginBlock.t) (dtr : option (list RequestDeliverTx.t))
    (ebr : option RequestEndBlock.t) (hist : Trace) (st' : locals) (t : Trace) :
  BlockExecutor.fraudProofsEnabled e = true ->
  genAndGossipFraudProofIfNeeded E e (Some l) st bbr dtr ebr hist = (Ok st', t) ->
  exists isr, captured t = [isr] /\ nth_error l (currentIsrIndex st) = Some isr.
Proof.
  intros Hf. unfold genAndGossipFraudProofIfNeeded. rewrite Hf. cbn [negb].
  unfold bind, getAppHash, call, isFraudProofTrigger, emit, ret, throw, generateFraudProof,
    call_err, fail. cbn [currentIsrIndex ISRs].
  destruct (app_GetAppHash E hist) as [isr|e1|p1]; cbn; try discriminate.
  destruct (nth_error l (currentIsrIndex st)) as [s|] eqn:Hn; cbn; try discriminate.
  destruct (bytes_Equal s isr) eqn:Hs; cbn.
  - intros H; inversion H; subst. exists isr. split; [reflexivity |].
    apply bytes_Equal_true in Hs. congruence.
  - destruct bbr as [b|]; cbn; try discriminate.
    destruct (app_GenerateFraudProof E _ _) as [[proof|]|e2|p2]; cbn; try discriminate.
    destruct (BlockExecutor.FraudService e) as [svc|]; cbn; try discriminate.
    destruct (fraud_Broadcast E _ proof) as [eb|]; cbn; discriminate.
Qed.

Lemma loop_match (E : Env) (e : BlockExecutor.t) (l : list bytes)
    (bbr : RequestBeginBlock.t) (txs : Txs) :
  BlockExecutor.fraudProofsEnabled e = true ->
  forall (reqs : list RequestDeliverTx.t) (st : locals) (hist : Trace)
         (v : list RequestDeliverTx.t * locals) (t : Trace),
  deliverTxLoop E e (Some l) bbr txs reqs st hist = (Ok v, t) ->
  forall j, j < length txs ->
    nth_error (captured t) j = nth_error l (currentIsrIndex st + j).
Proof.
  intros Hf. induction txs as [|tx rest IH]; intros reqs st hist v t; cbn [deliverTxLoop].
  - intros _ j Hj. cbn in Hj. lia.
  - unfold bind.
    destruct (genAndGossipFraudProofIfNeeded E e (Some l) st (Some bbr)
                (Some (reqs ++ [RequestDeliverTx.mk tx])) None hist)
      as [[st1|e1|p1] t1] eqn:Hg; try discriminate.
    pose proof Hg as Hge. apply gen_effects in Hge. destruct Hge as (_ & _ & Hs1).
    specialize (Hs1 st1 eq_refl). rewrite Hf in Hs1. destruct Hs1 as (isr' & _ & Hidx & _).
    pose proof Hg as Hgm. (eapply gen_match in Hgm; [| exact Hf]).
    destruct Hgm as (isr & Hc & Hn).
    destruct (deliverTxLoop E e (Some l) bbr rest (reqs ++ [RequestDeliverTx.mk tx]) st1
                (hist ++ t1)) as [[v2|e2|p2] t2] eqn:Hl; try discriminate.
    intros H; inversion H; subst. intros j Hj.
    rewrite captured_app, Hc. destruct j as [|j]; cbn [app nth_error].
    + rewrite Nat.add_0_r. symmetry. exact Hn.
    + rewrite (IH _ _ _ _ _ Hl j) by (cbn in Hj; lia). f_equal. lia.
Qed.

(** A capture phase that returns has found, at every capture point, the
    captured app hash equal to the entry of the list at that position. *)
Lemma executeCaptures_match (L : Lib) (E : Env) (e : BlockExecutor.t) (block : Block.t)
    (bbr : RequestBeginBlock.t) (fin : ResponseFinalizeBlock.t) (st0 : locals)
    (hist : Trace) (v : LegacyABCIResponses.t * Block.t) (t : Trace) (l : list bytes) :
  BlockExecutor.fraudProofsEnabled e = true ->
  Block.isrs block = Some l ->
  executeCaptures L E e block bbr fin st0 hist = (Ok v, t) ->
  forall j, j < length (Block.txs block) + 2 ->
    nth_error (captured t) j = nth_error l (currentIsrIndex st0 + j).
Proof.
  intros Hf Hisrs. unfold executeCaptures, bind. rewrite Hisrs.
  destruct (genAndGossipFraudProofIfNeeded E e (Some l) st0 (Some bbr) None None hist)
    as [[st1|e1|p1] t1] eqn:Hg1; try discriminate.
  pose proof Hg1 as Hge. apply gen_effects in Hge. destruct Hge as (_ & _ & Hs1).
  specialize (Hs1 st1 eq_refl). rewrite Hf in Hs1. destruct Hs1 as (isr1' & _ & Hidx1 & _).
  pose proof Hg1 as Hgm. (eapply gen_match in Hgm; [| exact Hf]).
  destruct Hgm as (isr1 & Hc1 & Hn1).
  destruct (deliverTxLoop E e (Some l) bbr (Block.txs block) [] st1 (hist ++ t1))
    as [[[reqs st2]|e2|p2] t2] eqn:Hl; try discriminate.
  pose proof Hl as Hle. apply loop_effects in Hle. destruct Hle as (_ & _ & Hs2).
  specialize (Hs2 reqs st2 eq_refl). rewrite Hf in Hs2.
  destruct Hs2 as (_ & _ & Hlen2 & Hidx2).
  pose proof (@loop_match E e l bbr (Block.txs block) Hf [] st1 (hist ++ t1) (reqs, st2) t2 Hl)
    as Hm2.
  destruct (genAndGossipFraudProofIfNeeded E e (Some l) st2 (Some bbr) (Some reqs)
              (Some (RequestEndBlock.mk (Header_Height L (Block.header block))))
              ((hist ++ t1) ++ t2))
    as [[st3|e3|p3] t3] eqn:Hg3; try discriminate.
  (eapply gen_match in Hg3; [| exact Hf]). destruct Hg3 as (isr3 & Hc3 & Hn3).
  unfold ret. intros H; inversion H; subst. intros j Hj.
  rewrite app_nil_r, !captured_app, Hc1, Hc3.
  destruct j as [|j]; cbn [app nth_error].
  - rewrite Nat.add_0_r. symmetry. exact Hn1.
  - destruct (Nat.lt_ge_cases j (length (Block.txs block))) as [Hlt|Hge].
    + rewrite nth_error_app1 by lia. rewrite (Hm2 j Hlt). f_equal. lia.
    + assert (j = length (Block.txs block)) as -> by lia.
      rewrite nth_error_app2 by lia. rewrite Hlen2, Nat.sub_diag. cbn [nth_error].
      rewrite <- Hn3. f_equal. lia.
Qed.

(** ** [execute] *)

(** The two ways [execute] runs.  Either it stops before the capture
    points: it fails, reads no entry of the ISR list, calls
    [GenerateFraudProof] for no mismatch, and if [FinalizeBlock] had
    answered, the number of tx results was wrong and this is the error.  Or
    the conversions succeeded, the supplied ISR list (if any, fraud proofs
    being enabled) has length [len(Txs) + 3], [FinalizeBlock] returned one
    result per converted transaction, and the rest of the run is the
    capture phase, started at index 1 with the first app hash when fraud
    proofs are enabled. *)
Lemma execute_inv (L : Lib) (E : Env) (e : BlockExecutor.t) (h : Heap) (state : State.t)
    (block : Block.t) (hist : Trace) (out : result (LegacyABCIResponses.t * Block.t))
    (tr : Trace) :
  execute L E e h state block hist = (out, tr) ->
  ((forall v, out <> Ok v)
   /\ (forall i, ~ In (ReadIsr i) tr)
   /\ (forall l, first_mismatch l tr = None)
   /\ (forall req fin, In (AppFinalizeBlock req (Ok fin)) tr ->
       exists abciBlock,
         ToABCIBlock L block = (Some abciBlock, None)
         /\ length (ABCIBlock.Txs abciBlock) <> length (ResponseFinalizeBlock.TxResults fin)
         /\ out = Err (fmt_Errorf
              "expected tx results length to match size of transactions in block. Expected %d, got %d"
              [show_nat (length (Block.txs block));
               show_nat (length (ResponseFinalizeBlock.TxResults fin))])))
  \/ (exists abciHeader vals abciBlock isr0s st0 req fin hist' t,
        ToABCIHeaderPB L (Block.header block) = Ok abciHeader
        /\ deref h (State.Validators state) = Some vals
        /\ ToABCIBlock L block = (Some abciBlock, None)
        /\ length (ABCIBlock.Txs abciBlock) = length (ResponseFinalizeBlock.TxResults fin)
        /\ (forall l, BlockExecutor.fraudProofsEnabled e = true -> Block.isrs block = Some l ->
            length l = length (Block.txs block) + 3)
        /\ (if BlockExecutor.fraudProofsEnabled e
            then exists isr0, isr0s = [AppGetAppHash (Ok isr0)] /\ st0 = mkLocals [isr0] 1
            else isr0s = [] /\ st0 = mkLocals [] 0)
        /\ executeCaptures L E e block
             (RequestBeginBlock.mk (Block_Hash L block)
                (ABCIHeader.set_ValidatorsHash (ValidatorSet_Hash L vals)
                   (ABCIHeader.set_ChainID (BlockExecutor.chainID e) abciHeader))
                (CommitInfo.mk 0 []) [])
             fin st0 hist' = (out, t)
        /\ tr = MempoolSetResponseCallback :: isr0s
                ++ [AppFinalizeBlock req (Ok fin); Log LogInfo "finalized block";
                    Log LogInfo "executed block"] ++ t).
Proof.
  unfold execute, checkIsrLength.
  destruct (Block.isrs block) as [l0|] eqn:Hisrs.
  1: destruct (BlockExecutor.fraudProofsEnabled e && negb (length l0 =? length (Block.txs block) + 3)%nat)
       eqn:Hchk.
  1: { unfold bind, fail. intros H; inversion H; subst. stop_early. }
  all: assert (Hlen : forall l, BlockExecutor.fraudProofsEnabled e = true ->
                        Block.isrs block = Some l -> length l = length (Block.txs block) + 3).
  1: { intros l Hf Hl. rewrite Hisrs in Hl. inversion Hl; subst. rewrite Hf in Hchk. cbn in Hchk.
       apply Nat.eqb_eq. destruct (length l =? length (Block.txs block) + 3)%nat;
         [reflexivity | discriminate]. }
  2: { intros l Hf Hl. rewrite Hisrs in Hl. discriminate. }
  all: try clear Hchk.
  all: unfold bind, emit, ret, lift, getAppHash, call, call_r, fail, throw; cbn [app].
  all: destruct (BlockExecutor.fraudProofsEnabled e) eqn:Hfe.
  1,3: destruct (app_GetAppHash E _) as [isr0|e0|p0]; cbn [app];
    [ | intros H; inversion H; subst; stop_early | intros H; inversion H; subst; stop_early ].
  all: destruct (ToABCIHeaderPB L (Block.header block)) as [abciHeader|e1|p1]; cbn [app];
    [ | intros H; inversion H; subst; stop_early | intros H; inversion H; subst; stop_early ].
  all: destruct (deref h (State.Validators state)) as [vals|]; cbn [app];
    [ | intros H; inversion H; subst; stop_early ].
  all: destruct (buildLastCommitInfo L h block (State.Validators state) (State.InitialHeight state))
    as [commitInfo|e2|p2]; cbn [app];
    [ | intros H; inversion H; subst; stop_early | intros H; inversion H; subst; stop_early ].
  all: destruct (ToABCIBlock L block) as [[abciBlock|] [e3|]] eqn:HT; cbn [app];
    [ intros H; inversion H; subst; stop_early | | intros H; inversion H; subst; stop_early
    | intros H; inversion H; subst; stop_early ].
  all: destruct (app_FinalizeBlock E _ _) as [fin|e4|p4]; cbn [app];
    [ | intros H; inversion H; subst; stop_early | intros H; inversion H; subst; stop_early ].
  all: destruct (Nat.eqb_spec (length (ABCIBlock.Txs abciBlock))
                   (length (ResponseFinalizeBlock.TxResults fin))) as [Heq|Hne]; cbn [negb app].
  all: try (intros H; inversion H; subst; left;
            split; [discriminate |];
            split; [intros i Hi; cbn in Hi; intuition discriminate |];
            split; [intros l; reflexivity |];
            intros req fin' Hin; cbn in Hin;
            repeat (destruct Hin as [Hin|Hin]; try discriminate); try contradiction;
            inversion Hin; subst; exists abciBlock;
            split; [reflexivity |]; split; [assumption | reflexivity]).
  all: match goal with
       | |- context [executeCaptures ?x1 ?x2 ?x3 ?x4 ?bbr ?f ?st0 ?hs] =>
           destruct (executeCaptures x1 x2 x3 x4 bbr f st0 hs) as [o t] eqn:Hc
       end.
  all: intros H; inversion H; subst; right.
  all: do 9 eexists.
  all: split; [reflexivity |]; split; [reflexivity |]; split; [reflexivity |];
    split; [exact Heq |];
    split; [intros l' Hf' Hl'; apply Hlen; [exact Hf' | rewrite Hisrs; exact Hl'] |].
  all: split; [first [ eexists; split; reflexivity | split; reflexivity ] |].
  all: split; [exact Hc | reflexivity].
Qed.

(** ** [ApplyBlock] *)

(** [updateState] writes only to the objects it allocates. *)
Lemma updateState_extends (L : Lib) (h : Heap) (state : State.t) (block : Block.t)
    (abciResponses : LegacyABCIResponses.t) (validatorUpdates : list Validator.t)
    (r : result (State.t * option error)) (h' : Heap) :
  updateState L h state block abciResponses validatorUpdates = (r, h') -> extends h h'.
Proof.
  unfold updateState.
  destruct (deref h (State.NextValidators state)) as [nv0|];
    [| intros H; inversion H; subst; apply extends_refl].
  destruct (updateState_nValSet L h state block validatorUpdates nv0)
    as [[err h1]|[[[p nv] h1] changed]] eqn:Hn.
  - apply updateState_nValSet_inl in Hn. destruct Hn as [Hext _].
    intros H; inversion H; subst. exact Hext.
  - apply updateState_nValSet_inr in Hn. destruct Hn as (Hext & _).
    destruct (deref h1 (State.Validators state)) as [vals|]; cbn [alloc];
      [| intros H; inversion H; subst; exact Hext].
    destruct (derefAll (LegacyABCIResponses.DeliverTxs abciResponses));
      intros H; inversion H; subst;
      (eapply extends_trans; [exact Hext | apply (alloc_extends h1 vals)]).
Qed.

(** [ApplyBlock] after [validate] has accepted the block: an error or a
    panic of [execute] ends the call with the store and the block
    untouched; after a successful [execute] the call only adds log lines to
    the trace and keeps every object of the store. *)
Lemma ApplyBlock_after_execute (L : Lib) (E : Env) (e : BlockExecutor.t) (h : Heap)
    (state : State.t) (block : Block.t) (hist : Trace)
    (o : result (LegacyABCIResponses.t * Block.t)) (t : Trace) :
  validate L h state block = Ok tt ->
  execute L E e h state block hist = (o, t) ->
  match o with
  | Err err => ApplyBlock L E e h state block hist = (Ok (State.zero, None, Some err), h, block, t)
  | Panic p => ApplyBlock L E e h state block hist = (Panic p, h, block, t)
  | Ok (resp, blk) =>
      exists ret h' logs,
        ApplyBlock L E e h state block hist = (ret, h', blk, t ++ logs)
        /\ (forall req r, ~ In (AppFinalizeBlock req r) logs)
        /\ extends h h'
  end.
Proof.
  intros Hv He. unfold ApplyBlock. rewrite Hv, He.
  destruct o as [[resp blk]|err|p]; try reflexivity.
  assert (Hnil : forall req r, ~ In (AppFinalizeBlock req r) []) by (intros ? ? []).
  destruct (LegacyABCIResponses.EndBlock resp) as [endBlock|].
  2:{ do 2 eexists. exists []. rewrite app_nil_r.
      split; [reflexivity |]. split; [exact Hnil | apply extends_refl]. }
  destruct (State_ToProto L h state) as [protoState|e1|p1].
  2,3: do 2 eexists; exists []; rewrite app_nil_r;
    (split; [reflexivity |]); split; [exact Hnil | apply extends_refl].
  destruct (validateValidatorUpdates L _ _) as [u|e2|p2].
  2,3: do 2 eexists; exists []; rewrite app_nil_r;
    (split; [reflexivity |]); split; [exact Hnil | apply extends_refl].
  destruct (PB2TM_ValidatorUpdates L _) as [validatorUpdates|e3|p3].
  2,3: do 2 eexists; exists []; rewrite app_nil_r;
    (split; [reflexivity |]); split; [exact Hnil | apply extends_refl].
  cbv zeta.
  destruct (updateState L h state blk resp validatorUpdates) as [r h1] eqn:Hu.
  apply updateState_extends in Hu.
  assert (Hlogs : forall req r,
             ~ In (AppFinalizeBlock req r)
                 ((if (0 <? length validatorUpdates)%nat
                   then [Log LogDebug "updates to validators"] else [])
                  ++ (if (BlockParams.MaxBytes
                            (ConsensusParams.Block (State.ConsensusParams state)) =? 0)%Z
                      then [Log LogError "maxBytes=0"] else []))).
  { intros req r0 Hi. apply in_app_or in Hi.
    destruct (0 <? length validatorUpdates)%nat;
      destruct (BlockParams.MaxBytes _ =? 0)%Z; cbn in Hi; intuition discriminate. }
  destruct r as [[s [err|]]|e4|p4]; do 2 eexists; eexists;
    (split; [reflexivity |]); split; assumption.
Qed.

(** ** The properties of [execute] and [ApplyBlock] *)

(** C5.  Provided the conversion of the block keeps its transactions:
    when [FinalizeBlock] answers with a number of tx results that differs
    from the number of transactions of the block, [execute] fails with the
    length-mismatch error, and [ApplyBlock] returns that error with the
    zero state and no responses, leaving the store and the block as they
    were. *)
Theorem execute_tx_results_length_mismatch (L : Lib) (E : Env) (e : BlockExecutor.t)
    (h : Heap) (state : State.t) (block : Block.t) (hist : Trace)
    (req : RequestFinalizeBlock.t) (fin : ResponseFinalizeBlock.t) :
  (forall abciBlock, ToABCIBlock L block = (Some abciBlock, None) ->
     length (ABCIBlock.Txs abciBlock) = length (Block.txs block)) ->
  length (ResponseFinalizeBlock.TxResults fin) <> length (Block.txs block) ->
  let mismatch :=
    fmt_Errorf
      "expected tx results length to match size of transactions in block. Expected %d, got %d"
      [show_nat (length (Block.txs block));
       show_nat (length (ResponseFinalizeBlock.TxResults fin))] in
  (forall out tr,
     execute L E e h state block hist = (out, tr) ->
     In (AppFinalizeBlock req (Ok fin)) tr ->
     out = Err mismatch)
  /\ (forall ret h' block' tr,
        ApplyBlock L E e h state block hist = (ret, h', block', tr) ->
        In (AppFinalizeBlock req (Ok fin)) tr ->
        ret = Ok (State.zero, None, Some mismatch) /\ h' = h /\ block' = block).
Proof.
  intros Hlaw Hne mismatch.
  assert (Hexec : forall out tr,
             execute L E e h state block hist = (out, tr) ->
             In (AppFinalizeBlock req (Ok fin)) tr -> out = Err mismatch).
  { intros out tr He Hin.
    destruct (execute_inv _ _ _ _ _ _ _ He)
      as [(_ & _ & _ & Hfin)
         |(abciHeader & vals & abciBlock & isr0s & st0 & req' & fin' & hist' & t
           & _ & _ & HT & Hlen & _ & Hisr & Hc & ->)].
    - destruct (Hfin _ _ Hin) as (ab & _ & _ & ->). reflexivity.
    - exfalso. apply executeCaptures_effects in Hc. destruct Hc as (_ & Hnofin & _).
      destruct Hin as [Hin|Hin]; [discriminate |].
      apply in_app_or in Hin. destruct Hin as [Hin|Hin].
      + destruct (BlockExecutor.fraudProofsEnabled e).
        * destruct Hisr as (isr0 & -> & _). destruct Hin as [Hin|[]]. discriminate.
        * destruct Hisr as [-> _]. destruct Hin.
      + destruct Hin as [Hin|[Hin|[Hin|Hin]]]; try discriminate.
        * inversion Hin; subst. apply Hne. rewrite <- Hlen. apply Hlaw. exact HT.
        * exact (Hnofin _ _ Hin). }
  split; [exact Hexec |].
  intros ret h' block' tr.
  destruct (validate L h state block) as [[]|ev|pv] eqn:Hv.
  2,3: unfold ApplyBlock; rewrite Hv; intros H; inversion H; subst; intros [].
  destruct (execute L E e h state block hist) as [o t] eqn:He.
  pose proof (@ApplyBlock_after_execute L E e h state block hist o t Hv He) as HA.
  destruct o as [[resp blk]|err|p].
  - destruct HA as (ret0 & h0 & logs & HA & Hlogs & _). rewrite HA.
    intros H; inversion H; subst. intros Hin. apply in_app_or in Hin.
    destruct Hin as [Hin|Hin]; [| exfalso; exact (Hlogs _ _ Hin)].
    specialize (Hexec _ _ eq_refl Hin). discriminate.
  - rewrite HA. intros H; inversion H; subst. intros Hin.
    specialize (Hexec _ _ eq_refl Hin). inversion Hexec; subst. repeat split.
  - rewrite HA. intros H; inversion H; subst. intros Hin.
    specialize (Hexec _ _ eq_refl Hin). discriminate.
Qed.

Lemma execute_tx_results_length_mismatch_witness :
  fst (fst (fst (ApplyBlock Sample.lib Sample.app_short (Sample.executor false) Sample.heap
                   Sample.state (Sample.block None) [])))
  = Ok (State.zero, None,
        Some (errorString
          "expected tx results length to match size of transactions in block. Expected 2, got 1")).
Proof.
  destruct (ApplyBlock Sample.lib Sample.app_short (Sample.executor false) Sample.heap
              Sample.state (Sample.block None) []) as [[[ret h'] block'] tr] eqn:HA.
  assert (Hin : In (AppFinalizeBlock Sample.request (Ok Sample.finalize_short)) tr).
  { vm_compute in HA. inversion HA; subst. right. left. reflexivity. }
  destruct (@execute_tx_results_length_mismatch Sample.lib Sample.app_short
              (Sample.executor false) Sample.heap Sample.state (Sample.block None) []
              Sample.request Sample.finalize_short) as [_ Happly].
  - intros abciBlock H. inversion H; subst. reflexivity.
  - discriminate.
  - destruct (Happly _ _ _ _ HA Hin) as (-> & _ & _). reflexivity.
Defined.

(** C4.  With fraud proofs enabled, a successful [execute] of a block
    whose ISR list was nil on entry writes into
    [Block.Data.IntermediateStateRoots.RawRootsList] the app hashes it
    captured, in order, and they are [len(Txs) + 3] many. *)
Theorem execute_writes_isrs (L : Lib) (E : Env) (e : BlockExecutor.t) (h : Heap)
    (state : State.t) (block : Block.t) (hist : Trace)
    (resp : LegacyABCIResponses.t) (block' : Block.t) (tr : Trace) :
  BlockExecutor.fraudProofsEnabled e = true ->
  Block.isrs block = None ->
  execute L E e h state block hist = (Ok (resp, block'), tr) ->
  block' = Block.set_isrs (Some (captured tr)) block
  /\ Block.isrs block' = Some (captured tr)
  /\ length (captured tr) = length (Block.txs block) + 3.
Proof.
  intros Hfraud Hnil He.
  destruct (execute_inv _ _ _ _ _ _ _ He)
    as [(Hno & _)
       |(abciHeader & vals & abciBlock & isr0s & st0 & req & fin & hist' & t
         & _ & _ & _ & _ & _ & Hisr & Hc & ->)].
  - exfalso. exact (Hno _ eq_refl).
  - rewrite Hfraud in Hisr. destruct Hisr as (isr0 & -> & ->).
    apply executeCaptures_effects in Hc. destruct Hc as (_ & _ & Hok).
    specialize (Hok _ _ eq_refl). rewrite Hfraud, Hnil in Hok.
    destruct Hok as [Hlen ->]. cbn [ISRs app captured flat_map].
    fold (captured t). split; [reflexivity |]. split; [reflexivity |].
    cbn [length]. lia.
Qed.

Lemma execute_writes_isrs_witness :
  exists resp block' tr,
    execute Sample.lib Sample.app (Sample.executor true) Sample.heap Sample.state
      (Sample.block None) [] = (Ok (resp, block'), tr)
    /\ Block.isrs block' = Some [Sample.h0; Sample.h1; Sample.h2; Sample.h3; Sample.h4].
Proof.
  do 3 eexists. split; [reflexivity |].
  exact (proj1 (proj2 (@execute_writes_isrs Sample.lib Sample.app (Sample.executor true)
                         Sample.heap Sample.state (Sample.block None) [] _ _ _
                         eq_refl eq_refl eq_refl))).
Defined.

(** C9.  With fraud proofs enabled and a supplied ISR list of length
    [len(Txs) + 3], every access [currentIsrs[index]] that [execute]
    performs has [1 <= index <= len(Txs) + 2] and finds an entry: no
    access is out of range. *)
Theorem execute_isr_reads_in_bounds (L : Lib) (E : Env) (e : BlockExecutor.t) (h : Heap)
    (state : State.t) (block : Block.t) (hist : Trace) (currentIsrs : list bytes)
    (out : result (LegacyABCIResponses.t * Block.t)) (tr : Trace) :
  BlockExecutor.fraudProofsEnabled e = true ->
  Block.isrs block = Some currentIsrs ->
  length currentIsrs = length (Block.txs block) + 3 ->
  execute L E e h state block hist = (out, tr) ->
  forall index, In (ReadIsr index) tr ->
    1 <= index <= length (Block.txs block) + 2
    /\ exists stateIsr, nth_error currentIsrs index = Some stateIsr.
Proof.
  intros Hfraud Hisrs Hlen He index Hin.
  assert (Hrange : 1 <= index <= length (Block.txs block) + 2).
  { destruct (execute_inv _ _ _ _ _ _ _ He)
      as [(_ & Hnoread & _)
         |(abciHeader & vals & abciBlock & isr0s & st0 & req & fin & hist' & t
           & _ & _ & _ & _ & _ & Hisr & Hc & ->)].
    - exfalso. exact (Hnoread _ Hin).
    - rewrite Hfraud in Hisr. destruct Hisr as (isr0 & -> & ->).
      apply executeCaptures_effects in Hc. destruct Hc as (Hreads & _).
      cbn in Hin. destruct Hin as [Hin|[Hin|[Hin|[Hin|[Hin|Hin]]]]]; try discriminate.
      destruct (Hreads _ Hin) as [Hb _]. cbn [currentIsrIndex] in Hb. lia. }
  split; [exact Hrange |].
  destruct (nth_error currentIsrs index) as [s|] eqn:Hn; [exists s; reflexivity |].
  apply nth_error_None in Hn. lia.
Qed.

Lemma execute_isr_reads_in_bounds_witness :
  let isrs := [Sample.h0; Sample.h1; Sample.h2; Sample.h3; Sample.h4] in
  let run := execute Sample.lib Sample.app (Sample.executor true) Sample.heap Sample.state
               (Sample.block (Some isrs)) [] in
  In (ReadIsr 3) (snd run)
  /\ 1 <= 3 <= 4
  /\ exists stateIsr, nth_error isrs 3 = Some stateIsr.
Proof.
  cbv zeta.
  assert (Hin : In (ReadIsr 3)
                  (snd (execute Sample.lib Sample.app (Sample.executor true) Sample.heap
                          Sample.state
                          (Sample.block
                             (Some [Sample.h0; Sample.h1; Sample.h2; Sample.h3; Sample.h4]))
                          []))).
  { vm_compute. repeat (first [left; reflexivity | right]). }
  split; [exact Hin |].
  exact (@execute_isr_reads_in_bounds Sample.lib Sample.app (Sample.executor true)
           Sample.heap Sample.state
           (Sample.block (Some [Sample.h0; Sample.h1; Sample.h2; Sample.h3; Sample.h4]))
           [] [Sample.h0; Sample.h1; Sample.h2; Sample.h3; Sample.h4] _ _
           eq_refl eq_refl eq_refl (surjective_pairing _) 3 Hin).
Defined.

(** C1.  With fraud proofs enabled and a supplied ISR list, [execute]
    compares the app hash it captures at each capture point with the
    list's entry at the same position: a run that returns has found them
    equal at every position 1 (after BeginBlock), 2 to [len(Txs) + 1]
    (after each DeliverTx) and [len(Txs) + 2] (after EndBlock).  At the
    first capture whose app hash differs from the entry at its position
    [k], [execute] logs the mismatch and calls [GenerateFraudProof] with
    the BeginBlock request, the DeliverTx requests of the transactions
    executed so far (none at position 1) and, only at the last position,
    the EndBlock request; [execute] fails; and when the application returns
    a proof and the fraud-proof service is set, the proof is broadcast and,
    the broadcast having succeeded, the error is
    [ErrFraudProofGenerated]. *)
Theorem execute_fraud_proof (L : Lib) (E : Env) (e : BlockExecutor.t) (h : Heap)
    (state : State.t) (block : Block.t) (hist : Trace) (currentIsrs : list bytes)
    (out : result (LegacyABCIResponses.t * Block.t)) (tr : Trace) :
  BlockExecutor.fraudProofsEnabled e = true ->
  Block.isrs block = Some currentIsrs ->
  execute L E e h state block hist = (out, tr) ->
  (forall v, out = Ok v ->
     forall i, 1 <= i <= length (Block.txs block) + 2 ->
       nth_error (captured tr) i = nth_error currentIsrs i)
  /\ (forall k generatedIsr post,
        first_mismatch currentIsrs tr = Some (k, generatedIsr, post) ->
        exists abciHeader vals r rest,
          ToABCIHeaderPB L (Block.header block) = Ok abciHeader
          /\ deref h (State.Validators state) = Some vals
          /\ 1 <= k <= length (Block.txs block) + 2
          /\ post =
             [ Log LogDebug "ISR Mismatch";
               Log LogInfo "found fraud occurrence, generating a fraud proof...";
               AppGenerateFraudProof
                 (RequestGenerateFraudProof.mk
                    (RequestBeginBlock.mk (Block_Hash L block)
                       (ABCIHeader.set_ValidatorsHash (ValidatorSet_Hash L vals)
                          (ABCIHeader.set_ChainID (BlockExecutor.chainID e) abciHeader))
                       (CommitInfo.mk 0 []) [])
                    (if (k =? 1)%nat then None
                     else Some (map RequestDeliverTx.mk (firstn (k - 1) (Block.txs block))))
                    (if (k =? length (Block.txs block) + 2)%nat
                     then Some (RequestEndBlock.mk (Header_Height L (Block.header block)))
                     else None))
                 r ] ++ rest
          /\ (forall v, out <> Ok v)
          /\ (forall proof, r = Ok (Some proof) -> BlockExecutor.FraudService e <> None ->
              exists rb, rest = [FraudServiceBroadcast proof rb]
                         /\ (rb = None -> out = Err ErrFraudProofGenerated))).
Proof.
  intros Hfraud Hisrs He.
  destruct (execute_inv _ _ _ _ _ _ _ He)
    as [(Hno & _ & Hnone & _)
       |(abciHeader & vals & abciBlock & isr0s & st0 & req & fin & hist' & t
         & HH & HV & _ & _ & _ & Hisr & Hc & ->)].
  - split.
    + intros v ->. exfalso. exact (Hno v eq_refl).
    + intros k g post Hm. rewrite Hnone in Hm. discriminate.
  - rewrite Hfraud in Hisr. destruct Hisr as (isr0 & -> & ->). split.
    + intros v -> i Hi.
      pose proof (@executeCaptures_match L E e block _ fin (mkLocals [isr0] 1) hist' v t
                    currentIsrs Hfraud Hisrs Hc (i - 1) ltac:(lia)) as Hmatch.
      cbn [app captured flat_map]. fold (captured t).
      destruct i as [|i]; [lia |]. cbn [nth_error].
      replace (S i - 1) with i in Hmatch by lia. exact Hmatch.
    + intros k g post Hm. cbn in Hm.
      destruct (@executeCaptures_first_mismatch L E e block _ fin (mkLocals [isr0] 1) hist'
                  out t currentIsrs Hfraud Hisrs eq_refl Hc _ _ _ Hm)
        as [Hk (r & rest & Hpost & Hno & Hb)].
      exists abciHeader, vals, r, rest.
      split; [exact HH |]. split; [exact HV |]. split; [exact Hk |].
      split; [exact Hpost |]. split; [exact Hno | exact Hb].
Qed.

Lemma execute_fraud_proof_witness :
  let run := execute Sample.lib Sample.app (Sample.executor true) Sample.heap Sample.state
               (Sample.block (Some Sample.isrs_declared)) [] in
  first_mismatch Sample.isrs_declared (snd run)
    = Some (2, Sample.h2,
            [ Log LogDebug "ISR Mismatch";
              Log LogInfo "found fraud occurrence, generating a fraud proof...";
              AppGenerateFraudProof Sample.fraudRequest (Ok (Some Sample.fraudProof));
              FraudServiceBroadcast Sample.fraudProof None ])
  /\ fst run = Err ErrFraudProofGenerated.
Proof.
  cbv zeta.
  assert (Hm : first_mismatch Sample.isrs_declared
                 (snd (execute Sample.lib Sample.app (Sample.executor true) Sample.heap
                         Sample.state (Sample.block (Some Sample.isrs_declared)) []))
               = Some (2, Sample.h2,
                       [ Log LogDebug "ISR Mismatch";
                         Log LogInfo "found fraud occurrence, generating a fraud proof...";
                         AppGenerateFraudProof Sample.fraudRequest (Ok (Some Sample.fraudProof));
                         FraudServiceBroadcast Sample.fraudProof None ]))
    by (vm_compute; reflexivity).
  split; [exact Hm |].
  destruct (@execute_fraud_proof Sample.lib Sample.app (Sample.executor true) Sample.heap
              Sample.state (Sample.block (Some Sample.isrs_declared)) []
              Sample.isrs_declared _ _ eq_refl eq_refl (surjective_pairing _))
    as [_ Hfraud].
  destruct (Hfraud _ _ _ Hm)
    as (abciHeader & vals & r & rest & _ & _ & _ & Hpost & _ & Hb).
  assert (Hr : r = Ok (Some Sample.fraudProof)
               /\ rest = [FraudServiceBroadcast Sample.fraudProof None])
    by (inversion Hpost; split; reflexivity).
  destruct Hr as [Hr Hrest].
  destruct (Hb Sample.fraudProof Hr ltac:(discriminate)) as (rb & Hrb & Hout).
  rewrite Hrest in Hrb. injection Hrb as Hrb.
  exact (Hout (eq_sym Hrb)).
Defined.

(** C10.  What [ApplyBlock] returns beside an error, stage by stage: the
    zero [State] when [validate], [execute], [state.ToProto] or
    [updateState] fails; the input state when the validator updates are
    rejected or cannot be translated.  On every path, every validator set
    of the store before the call -- hence everything the input state
    points to -- is unchanged after it. *)
Theorem ApplyBlock_returned_state (L : Lib) (E : Env) (e : BlockExecutor.t) (h : Heap)
    (state : State.t) (block : Block.t) (hist : Trace)
    (ret : result ApplyBlockReturn) (h' : Heap) (block' : Block.t) (tr : Trace) :
  ApplyBlock L E e h state block hist = (ret, h', block', tr) ->
  (forall p vals, deref h p = Some vals -> deref h' p = Some vals)
  /\ (forall err, validate L h state block = Err err ->
      ret = Ok (State.zero, None, Some err))
  /\ (validate L h state block = Ok tt ->
      (forall err t, execute L E e h state block hist = (Err err, t) ->
         ret = Ok (State.zero, None, Some err))
      /\ (forall resp blk t endBlock,
            execute L E e h state block hist = (Ok (resp, blk), t) ->
            LegacyABCIResponses.EndBlock resp = Some endBlock ->
            let updates := ResponseEndBlock.ValidatorUpdates endBlock in
            (forall err, State_ToProto L h state = Err err ->
               ret = Ok (State.zero, None, Some err))
            /\ (forall protoState, State_ToProto L h state = Ok protoState ->
                let params := ProtoState.ConsensusParams_Validator protoState in
                (forall err, validateValidatorUpdates L updates params = Err err ->
                   ret = Ok (state, None,
                             Some (fmt_Errorf "error in validator updates: %v" [Error err])))
                /\ (validateValidatorUpdates L updates params = Ok tt ->
                    (forall err, PB2TM_ValidatorUpdates L updates = Err err ->
                       ret = Ok (state, None, Some err))
                    /\ (forall validatorUpdates s err h1,
                          PB2TM_ValidatorUpdates L updates = Ok validatorUpdates ->
                          updateState L h state blk resp validatorUpdates
                            = (Ok (s, Some err), h1) ->
                          ret = Ok (State.zero, None, Some err)))))).
Proof.
  intros HA. split; [| split].
  - assert (Hext : extends h h').
    { destruct (validate L h state block) as [[]|ev|pv] eqn:Hv.
      2,3: unfold ApplyBlock in HA; rewrite Hv in HA; inversion HA; subst; apply extends_refl.
      destruct (execute L E e h state block hist) as [o t] eqn:He.
      pose proof (@ApplyBlock_after_execute L E e h state block hist o t Hv He) as HB.
      destruct o as [[resp blk]|err|p].
      - destruct HB as (ret0 & h0 & logs & HB & _ & Hext). rewrite HB in HA.
        inversion HA; subst. exact Hext.
      - rewrite HB in HA. inversion HA; subst. apply extends_refl.
      - rewrite HB in HA. inversion HA; subst. apply extends_refl. }
    intros p vals Hp. exact (extends_deref _ Hext Hp).
  - intros err Hv. unfold ApplyBlock in HA. rewrite Hv in HA. inversion HA. reflexivity.
  - intros Hv. unfold ApplyBlock in HA. rewrite Hv in HA. split.
    + intros err t He. rewrite He in HA. inversion HA. reflexivity.
    + intros resp blk t endBlock He Hend updates. rewrite He, Hend in HA. split.
      * intros err Hp. rewrite Hp in HA. inversion HA. reflexivity.
      * intros protoState Hp params. rewrite Hp in HA. fold updates params in HA. split.
        -- intros err Hs. rewrite Hs in HA. inversion HA. reflexivity.
        -- intros Hs. rewrite Hs in HA. split.
           ++ intros err Ht. rewrite Ht in HA. inversion HA. reflexivity.
           ++ intros validatorUpdates s err h1 Ht Hu. rewrite Ht in HA. cbv zeta in HA.
              rewrite Hu in HA. inversion HA. reflexivity.
Qed.

Lemma ApplyBlock_returned_state_witness :
  fst (fst (fst (ApplyBlock Sample.lib Sample.app (Sample.executor false) Sample.heap
                   Sample.state_negative (Sample.block None) [])))
  = Ok (State.zero, None, Some (errors_New "initial block height mismatch"))
  /\ fst (fst (fst (ApplyBlock Sample.lib Sample.app_negative_power (Sample.executor false)
                      Sample.heap Sample.state (Sample.block None) [])))
     = Ok (Sample.state, None,
           Some (errorString
                   "error in validator updates: voting power can't be negative update")).
Proof.
  split.
  - destruct (ApplyBlock Sample.lib Sample.app (Sample.executor false) Sample.heap
                Sample.state_negative (Sample.block None) []) as [[[ret h'] blk] tr] eqn:HA.
    destruct (@ApplyBlock_returned_state _ _ _ _ _ _ _ _ _ _ _ HA) as (_ & Hvalidate & _).
    exact (Hvalidate _ eq_refl).
  - destruct (ApplyBlock Sample.lib Sample.app_negative_power (Sample.executor false)
                Sample.heap Sample.state (Sample.block None) []) as [[[ret h'] blk] tr] eqn:HA.
    destruct (@ApplyBlock_returned_state _ _ _ _ _ _ _ _ _ _ _ HA) as (_ & _ & Hrest).
    destruct (Hrest eq_refl) as [_ Hexec].
    destruct (Hexec _ _ _ _ eq_refl eq_refl) as [_ Hproto].
    destruct (Hproto _ eq_refl) as [Hsanity _].
    exact (Hsanity _ eq_refl).
Defined.

(** * Further properties

    Properties of the helpers of the executor, of the interplay of its
    operations, and of the generators of test transactions. *)

(** ** [validateValidatorUpdates] *)

Lemma validateValidatorUpdates_app (L : Lib) (params : ValidatorParams.t)
    (before rest : list ValidatorUpdate.t) :
  Forall (acceptableUpdate L params) before ->
  validateValidatorUpdates L (before ++ rest) params = validateValidatorUpdates L rest params.
Proof.
  induction 1 as [|u before [Hpow Hkey] _ IH]; [reflexivity |].
  cbn [app validateValidatorUpdates].
  destruct (Z.ltb_spec (ValidatorUpdate.Power u) 0) as [Hneg|_]; [lia |].
  destruct (Z.eqb_spec (ValidatorUpdate.Power u) 0) as [_|Hnz]; [exact IH |].
  destruct Hkey as (pk & Hpk & Hty); [lia |].
  rewrite Hpk, Hty. exact IH.
Qed.

(** X1.  [validateValidatorUpdates] returns nil exactly when every update
    of the list has a power that is not negative and, unless its power is
    0, a public key that decodes to a key of an allowed type: the key of a
    removal is never looked at. *)
Theorem validateValidatorUpdates_ok_iff (L : Lib) (abciUpdates : list ValidatorUpdate.t)
    (params : ValidatorParams.t) :
  validateValidatorUpdates L abciUpdates params = Ok tt
  <-> Forall (acceptableUpdate L params) abciUpdates.
Proof.
  induction abciUpdates as [|u rest IH]; cbn [validateValidatorUpdates].
  - split; [constructor | reflexivity].
  - destruct (Z.ltb_spec (ValidatorUpdate.Power u) 0) as [Hneg|Hpos].
    + split; [discriminate |]. intros H. inversion H as [|? ? [Hpow _] _]; subst. lia.
    + destruct (Z.eqb_spec (ValidatorUpdate.Power u) 0) as [Hz|Hnz].
      * rewrite IH. split.
        -- intros H. constructor; [split; [lia | intros; lia] | exact H].
        -- intros H. inversion H; assumption.
      * destruct (PubKeyFromProto L (ValidatorUpdate.PubKey u)) as [pk|err|p] eqn:Hpk.
        -- destruct (IsValidPubkeyType L params (PubKey.Type_ pk)) eqn:Hty; cbn [negb].
           ++ rewrite IH. split.
              ** intros H. constructor; [| exact H].
                 split; [lia |]. intros _. exists pk. split; [exact Hpk | exact Hty].
              ** intros H. inversion H; assumption.
           ++ split; [discriminate |]. intros H. inversion H as [|? ? [_ Hkey] _]; subst.
              destruct Hkey as (pk' & Hpk' & Hty'); [lia |].
              rewrite Hpk in Hpk'. injection Hpk' as <-. congruence.
        -- split; [discriminate |]. intros H. inversion H as [|? ? [_ Hkey] _]; subst.
           destruct Hkey as (pk' & Hpk' & _); [lia | rewrite Hpk in Hpk'; discriminate].
        -- split; [discriminate |]. intros H. inversion H as [|? ? [_ Hkey] _]; subst.
           destruct Hkey as (pk' & Hpk' & _); [lia | rewrite Hpk in Hpk'; discriminate].
Qed.

(** X2.  The error of [validateValidatorUpdates] is that of the first
    update it rejects, whatever follows it in the list: a negative power,
    a key of a type that is not allowed, or the error of decoding the
    key. *)
Theorem validateValidatorUpdates_first_offender (L : Lib) (params : ValidatorParams.t)
    (before : list ValidatorUpdate.t) (u : ValidatorUpdate.t) (after : list ValidatorUpdate.t) :
  Forall (acceptableUpdate L params) before ->
  let r := validateValidatorUpdates L (before ++ u :: after) params in
  ((ValidatorUpdate.Power u < 0)%Z ->
   r = Err (fmt_Errorf "voting power can't be negative %v" [ValidatorUpdate_String L u]))
  /\ ((0 < ValidatorUpdate.Power u)%Z ->
      forall pk, PubKeyFromProto L (ValidatorUpdate.PubKey u) = Ok pk ->
      IsValidPubkeyType L params (PubKey.Type_ pk) = false ->
      r = Err (fmt_Errorf "validator %v is using pubkey %s, which is unsupported for consensus"
                 [ValidatorUpdate_String L u; PubKey.Type_ pk]))
  /\ ((0 < ValidatorUpdate.Power u)%Z ->
      forall err, PubKeyFromProto L (ValidatorUpdate.PubKey u) = Err err -> r = Err err).
Proof.
  intros Hbefore r. subst r. rewrite (@validateValidatorUpdates_app L params before (u :: after) Hbefore).
  cbn [validateValidatorUpdates].
  split; [| split].
  - intros Hneg. destruct (Z.ltb_spec (ValidatorUpdate.Power u) 0); [reflexivity | lia].
  - intros Hpos pk Hpk Hty.
    destruct (Z.ltb_spec (ValidatorUpdate.Power u) 0); [lia |].
    destruct (Z.eqb_spec (ValidatorUpdate.Power u) 0); [lia |].
    rewrite Hpk, Hty. reflexivity.
  - intros Hpos err Hpk.
    destruct (Z.ltb_spec (ValidatorUpdate.Power u) 0); [lia |].
    destruct (Z.eqb_spec (ValidatorUpdate.Power u) 0); [lia |].
    rewrite Hpk. reflexivity.
Qed.

Lemma validateValidatorUpdates_first_offender_witness :
  validateValidatorUpdates Sample.lib
    [ValidatorUpdate.mk [Byte.x0a] 0%Z; ValidatorUpdate.mk [Byte.x0c] 5%Z;
     ValidatorUpdate.mk [Byte.x0d] (-1)%Z; ValidatorUpdate.mk [Byte.x0e] 3%Z]
    (ValidatorParams.mk ["ed25519"%string])
  = Err (fmt_Errorf "voting power can't be negative %v" ["update"%string]).
Proof.
  refine (proj1 (@validateValidatorUpdates_first_offender Sample.lib
                   (ValidatorParams.mk ["ed25519"%string])
                   [ValidatorUpdate.mk [Byte.x0a] 0%Z; ValidatorUpdate.mk [Byte.x0c] 5%Z]
                   (ValidatorUpdate.mk [Byte.x0d] (-1)%Z)
                   [ValidatorUpdate.mk [Byte.x0e] 3%Z] _) _).
  - repeat constructor; cbn; try lia; try discriminate.
    intros _. eexists. split; reflexivity.
  - reflexivity.
Defined.

(** ** [buildLastCommitInfo] *)

Lemma skipn_nth_error {A} (l : list A) :
  forall i x, nth_error l i = Some x -> skipn i l = x :: skipn (S i) l.
Proof.
  induction l as [|y l IH]; intros [|i] x H; cbn in H; try discriminate.
  - injection H as ->. reflexivity.
  - cbn [skipn]. rewrite (IH i x H). reflexivity.
Qed.

Lemma buildVotes_Ok (L : Lib) (sigs : list CommitSig.t) (vals : list Validator.t) :
  forall i, i + length vals <= length sigs ->
  buildVotes L sigs vals i = Ok (map (voteOf L) (combine vals (skipn i sigs))).
Proof.
  induction vals as [|v rest IH]; intros i Hlen; cbn [buildVotes].
  - reflexivity.
  - cbn [length] in Hlen.
    destruct (nth_error sigs i) as [sig|] eqn:Hn.
    + rewrite IH by lia. rewrite (skipn_nth_error sigs i Hn). reflexivity.
    + apply nth_error_None in Hn. lia.
Qed.

(** X3.  Above the initial height, when the converted commit has as many
    signatures as the validator set has validators, [buildLastCommitInfo]
    returns the round of the commit and one vote per validator, in order:
    the converted validator with the block-id flag of the signature at the
    same position. *)
Theorem buildLastCommitInfo_votes (L : Lib) (h : Heap) (block : Block.t)
    (lastValSet : option loc) (initialHeight : Z) (vals : ValidatorSet.t) :
  let hd := Block.header block in
  let abciCommit :=
    ToABCICommit L (SignedHeader.Commit (Block.SignedHeader block))
      (BaseHeader.Height (Header.BaseHeader hd)) (Header_Hash L hd) in
  Header_Height L hd <> initialHeight ->
  deref h lastValSet = Some vals ->
  length (ABCICommit.Signatures abciCommit) = length (ValidatorSet.Validators vals) ->
  buildLastCommitInfo L h block lastValSet initialHeight
  = Ok (CommitInfo.mk (ABCICommit.Round abciCommit)
          (map (voteOf L)
             (combine (ValidatorSet.Validators vals) (ABCICommit.Signatures abciCommit)))).
Proof.
  intros hd abciCommit Hheight Hvals Hsize. unfold buildLastCommitInfo.
  fold hd. destruct (Z.eqb_spec (Header_Height L hd) initialHeight) as [Heq|_]; [contradiction |].
  rewrite Hvals. fold abciCommit. unfold ABCICommit.Size. rewrite Hsize, Nat.eqb_refl.
  cbn [negb]. rewrite buildVotes_Ok by (rewrite Hsize; cbn; lia). reflexivity.
Qed.

Lemma buildLastCommitInfo_votes_witness :
  buildLastCommitInfo Sample.lib Sample.heap (Sample.block None) (Some 1) 1%Z
  = Ok (CommitInfo.mk 0%Z [VoteInfo.mk (abci_Validator.mk [Byte.x0a] 10%Z) 2%Z]).
Proof.
  refine (@buildLastCommitInfo_votes Sample.lib Sample.heap (Sample.block None) (Some 1) 1%Z
            Sample.vals _ _ _).
  - discriminate.
  - reflexivity.
  - reflexivity.
Defined.

(** X4.  [buildLastCommitInfo] has no error result.  At the initial height
    it returns the empty commit info without looking at the commit or at
    the validator set; above it, it panics exactly when the validator set
    is nil or the number of signatures of the converted commit differs
    from the number of validators, so the loop never reads a signature
    out of range. *)
Theorem buildLastCommitInfo_panics_iff (L : Lib) (h : Heap) (block : Block.t)
    (lastValSet : option loc) (initialHeight : Z) :
  let hd := Block.header block in
  let abciCommit :=
    ToABCICommit L (SignedHeader.Commit (Block.SignedHeader block))
      (BaseHeader.Height (Header.BaseHeader hd)) (Header_Hash L hd) in
  let r := buildLastCommitInfo L h block lastValSet initialHeight in
  (forall err, r <> Err err)
  /\ (Header_Height L hd = initialHeight -> r = Ok CommitInfo.zero)
  /\ ((exists p, r = Panic p)
      <-> Header_Height L hd <> initialHeight
          /\ (deref h lastValSet = None
              \/ exists vals, deref h lastValSet = Some vals
                              /\ length (ABCICommit.Signatures abciCommit)
                                 <> length (ValidatorSet.Validators vals)))
  /\ (forall i n, r <> Panic (IndexOutOfRange i n)).
Proof.
  intros hd abciCommit r. subst r. unfold buildLastCommitInfo. fold hd. fold abciCommit.
  destruct (Z.eqb_spec (Header_Height L hd) initialHeight) as [Heq|Hne].
  - split; [discriminate |]. split; [reflexivity |]. split; [| discriminate].
    split; [intros [p Hp]; discriminate | intros [Hc _]; contradiction].
  - destruct (deref h lastValSet) as [vals|] eqn:Hvals.
    + unfold ABCICommit.Size.
      destruct (Nat.eqb_spec (length (ABCICommit.Signatures abciCommit))
                  (length (ValidatorSet.Validators vals))) as [Hsize|Hsize]; cbn [negb].
      * rewrite buildVotes_Ok by (rewrite Hsize; cbn; lia).
        split; [discriminate |]. split; [contradiction |]. split; [| discriminate].
        split; [intros [p Hp]; discriminate |].
        intros [_ [Hc|(vals' & Hv & Hc)]]; [discriminate |].
        injection Hv as <-. contradiction.
      * split; [discriminate |]. split; [contradiction |]. split; [| discriminate].
        split; [| intros _; eexists; reflexivity].
        intros _. split; [exact Hne |]. right. exists vals. split; [reflexivity | exact Hsize].
    + split; [discriminate |]. split; [contradiction |]. split; [| discriminate].
      split; [| intros _; eexists; reflexivity].
      intros _. split; [exact Hne |]. left. reflexivity.
Qed.

(** ** [generateFraudProof] *)

(** X5.  [generateFraudProof] fails without calling the application when
    the BeginBlock request is nil.  Otherwise it calls [GenerateFraudProof]
    once, with a request that carries the EndBlock request only beside a
    non-nil list of DeliverTx requests, and it returns a proof exactly when
    the application answered with one; a nil proof in the answer is an
    error. *)
Theorem generateFraudProof_outcome (E : Env) (beginBlockRequest : option RequestBeginBlock.t)
    (deliverTxRequests : option (list RequestDeliverTx.t))
    (endBlockRequest : option RequestEndBlock.t) (hist : Trace)
    (out : result FraudProof) (t : Trace) :
  generateFraudProof E beginBlockRequest deliverTxRequests endBlockRequest hist = (out, t) ->
  (beginBlockRequest = None ->
   t = [] /\ out = Err (fmt_Errorf "begin block request cannot be a nil parameter" []))
  /\ (forall bbr, beginBlockRequest = Some bbr ->
      exists req,
        t = [AppGenerateFraudProof req (app_GenerateFraudProof E hist req)]
        /\ RequestGenerateFraudProof.BeginBlockRequest req = bbr
        /\ RequestGenerateFraudProof.DeliverTxRequests req = deliverTxRequests
        /\ RequestGenerateFraudProof.EndBlockRequest req
           = match deliverTxRequests with
             | Some _ => endBlockRequest
             | None => None
             end
        /\ (forall proof, out = Ok proof <-> app_GenerateFraudProof E hist req = Ok (Some proof))
        /\ (app_GenerateFraudProof E hist req = Ok None ->
            out = Err (fmt_Errorf "fraud proof generation failed" []))
        /\ (forall err, app_GenerateFraudProof E hist req = Err err -> out = Err err)).
Proof.
  unfold generateFraudProof. destruct beginBlockRequest as [bbr|].
  - unfold bind, call, fail, ret. intros H.
    split; [discriminate |]. intros bbr' Hb. injection Hb as <-.
    exists (fraudProofRequest bbr deliverTxRequests endBlockRequest).
    destruct (app_GenerateFraudProof E hist (fraudProofRequest bbr deliverTxRequests endBlockRequest))
      as [[proof|]|err|p] eqn:Hr; cbn in H; injection H as <- <-.
    all: split; [reflexivity |].
    all: split; [destruct deliverTxRequests; reflexivity |].
    all: split; [destruct deliverTxRequests; reflexivity |].
    all: split; [destruct deliverTxRequests; reflexivity |].
    all: split; [intros proof'; split; intros Hp; try discriminate; try (injection Hp as <-; reflexivity) |].
    all: split; [intros Hp; try discriminate; reflexivity |].
    all: intros err' Hp; try discriminate; injection Hp as <-; reflexivity.
  - unfold fail. intros H. injection H as <- <-.
    split; [intros _; split; reflexivity | intros bbr Hb; discriminate].
Qed.

Lemma generateFraudProof_outcome_witness :
  exists req,
    snd (generateFraudProof Sample.app (Some Sample.beginBlockRequest) None
           (Some (RequestEndBlock.mk 2%Z)) [])
    = [AppGenerateFraudProof req (Ok (Some Sample.fraudProof))]
    /\ RequestGenerateFraudProof.EndBlockRequest req = None.
Proof.
  destruct (proj2 (@generateFraudProof_outcome Sample.app (Some Sample.beginBlockRequest) None
                     (Some (RequestEndBlock.mk 2%Z)) [] _ _ eq_refl)
              Sample.beginBlockRequest eq_refl)
    as (req & Ht & _ & _ & He & _).
  exists req. split; [exact Ht | exact He].
Defined.

(** ** The interactions of [execute] *)

Lemma gen_may (E : Env) (e : BlockExecutor.t) (isrs : option (list bytes)) (st : locals)
    (bbr : option RequestBeginBlock.t) (dtr : option (list RequestDeliverTx.t))
    (ebr : option RequestEndBlock.t) (hist : Trace) (out : result locals) (t : Trace) :
  genAndGossipFraudProofIfNeeded E e isrs st bbr dtr ebr hist = (out, t) ->
  forallb (executeMay e isrs) t = true.
Proof.
  unfold genAndGossipFraudProofIfNeeded.
  destruct (BlockExecutor.fraudProofsEnabled e) eqn:Hfe; cbn [negb].
  2:{ unfold ret. intros H; inversion H; reflexivity. }
  unfold bind, getAppHash, call, isFraudProofTrigger, emit, ret, throw, generateFraudProof,
    call_err, fail. cbn [currentIsrIndex ISRs].
  destruct (app_GetAppHash E hist) as [isr|e1|p1]; cbn.
  2,3: intros H; inversion H; subst; cbn; rewrite Hfe; reflexivity.
  destruct isrs as [l|]; cbn.
  2:{ intros H; inversion H; subst; cbn; rewrite Hfe; reflexivity. }
  destruct (nth_error l (currentIsrIndex st)) as [s|]; cbn.
  2:{ intros H; inversion H; subst; cbn; rewrite Hfe; reflexivity. }
  destruct (bytes_Equal s isr); cbn.
  { intros H; inversion H; subst; cbn; rewrite Hfe; reflexivity. }
  destruct bbr as [b|]; cbn.
  2:{ intros H; inversion H; subst; cbn; rewrite Hfe; reflexivity. }
  destruct (app_GenerateFraudProof E _ _) as [[proof|]|e2|p2]; cbn.
  2-4: intros H; inversion H; subst; cbn; rewrite Hfe; reflexivity.
  destruct (BlockExecutor.FraudService e) as [svc|]; cbn.
  2:{ intros H; inversion H; subst; cbn; rewrite Hfe; reflexivity. }
  destruct (fraud_Broadcast E _ proof) as [eb|]; cbn;
    intros H; inversion H; subst; cbn; rewrite Hfe; reflexivity.
Qed.

Lemma loop_may (E : Env) (e : BlockExecutor.t) (isrs : option (list bytes))
    (bbr : RequestBeginBlock.t) (txs : Txs) :
  forall (reqs : list RequestDeliverTx.t) (st : locals) (hist : Trace)
         (out : result (list RequestDeliverTx.t * locals)) (t : Trace),
  deliverTxLoop E e isrs bbr txs reqs st hist = (out, t) ->
  forallb (executeMay e isrs) t = true.
Proof.
  induction txs as [|tx rest IH]; intros reqs st hist out t; cbn [deliverTxLoop].
  - unfold ret. intros H; inversion H; reflexivity.
  - unfold bind.
    destruct (genAndGossipFraudProofIfNeeded E e isrs st (Some bbr)
                (Some (reqs ++ [RequestDeliverTx.mk tx])) None hist)
      as [[st1|e1|p1] t1] eqn:Hg; apply gen_may in Hg.
    2,3: intros H; inversion H; subst; exact Hg.
    destruct (deliverTxLoop E e isrs bbr rest (reqs ++ [RequestDeliverTx.mk tx]) st1
                (hist ++ t1)) as [o2 t2] eqn:Hl.
    apply IH in Hl. intros H; inversion H; subst.
    rewrite forallb_app, Hg, Hl. reflexivity.
Qed.

Lemma executeCaptures_may (L : Lib) (E : Env) (e : BlockExecutor.t) (block : Block.t)
    (bbr : RequestBeginBlock.t) (fin : ResponseFinalizeBlock.t) (st0 : locals)
    (hist : Trace) (out : result (LegacyABCIResponses.t * Block.t)) (t : Trace) :
  executeCaptures L E e block bbr fin st0 hist = (out, t) ->
  forallb (executeMay e (Block.isrs block)) t = true.
Proof.
  unfold executeCaptures, bind.
  destruct (genAndGossipFraudProofIfNeeded E e (Block.isrs block) st0 (Some bbr) None None hist)
    as [[st1|e1|p1] t1] eqn:Hg1; apply gen_may in Hg1.
  2,3: intros H; inversion H; subst; exact Hg1.
  destruct (deliverTxLoop E e (Block.isrs block) bbr (Block.txs block) [] st1 (hist ++ t1))
    as [[[reqs st2]|e2|p2] t2] eqn:Hl; apply loop_may in Hl.
  2,3: intros H; inversion H; subst; rewrite forallb_app, Hg1, Hl; reflexivity.
  destruct (genAndGossipFraudProofIfNeeded E e (Block.isrs block) st2 (Some bbr) (Some reqs)
              (Some (RequestEndBlock.mk (Header_Height L (Block.header block))))
              ((hist ++ t1) ++ t2))
    as [[st3|e3|p3] t3] eqn:Hg3; apply gen_may in Hg3.
  2,3: intros H; inversion H; subst; rewrite !forallb_app, Hg1, Hl, Hg3; reflexivity.
  destruct (Block.isrs block) as [l|];
    destruct (BlockExecutor.fraudProofsEnabled e); unfold ret;
    intros H; inversion H; subst; rewrite !forallb_app, Hg1, Hl, Hg3; reflexivity.
Qed.

(** X6.  With fraud proofs enabled, a block whose ISR list is not nil and
    does not have [len(Txs) + 3] entries makes [execute] fail at once:
    the error names both lengths, and nothing has been asked of the
    application or of the mempool. *)
Theorem execute_invalid_isr_length (L : Lib) (E : Env) (e : BlockExecutor.t) (h : Heap)
    (state : State.t) (block : Block.t) (hist : Trace) (currentIsrs : list bytes) :
  BlockExecutor.fraudProofsEnabled e = true ->
  Block.isrs block = Some currentIsrs ->
  length currentIsrs <> length (Block.txs block) + 3 ->
  execute L E e h state block hist
  = (Err (fmt_Errorf "invalid length of ISR list: %d, expected length: %d"
            [show_nat (length currentIsrs); show_nat (length (Block.txs block) + 3)]),
     []).
Proof.
  intros Hfe Hisrs Hlen. unfold execute, checkIsrLength, bind. rewrite Hisrs, Hfe.
  destruct (Nat.eqb_spec (length currentIsrs) (length (Block.txs block) + 3)) as [Heq|_];
    [contradiction |].
  reflexivity.
Qed.

Lemma execute_invalid_isr_length_witness :
  execute Sample.lib Sample.app (Sample.executor true) Sample.heap Sample.state
    (Sample.block (Some [Sample.h0; Sample.h1])) []
  = (Err (errorString "invalid length of ISR list: 2, expected length: 5"), []).
Proof.
  refine (@execute_invalid_isr_length Sample.lib Sample.app (Sample.executor true) Sample.heap
            Sample.state (Sample.block (Some [Sample.h0; Sample.h1])) []
            [Sample.h0; Sample.h1] _ _ _).
  - reflexivity.
  - reflexivity.
  - cbn. discriminate.
Defined.

(** X7.  Whatever the collaborators answer and however the run ends,
    [execute] only installs the callback, calls [FinalizeBlock] and logs;
    it asks for the app hash only when fraud proofs are enabled; and it
    reads the supplied ISR list, calls [GenerateFraudProof] or broadcasts a
    proof only when fraud proofs are enabled and the block came with an ISR
    list.  It never locks, reaps, flushes or updates the mempool, never
    calls the application's [Commit], never publishes an event and never
    reads the clock. *)
Theorem execute_interactions (L : Lib) (E : Env) (e : BlockExecutor.t) (h : Heap)
    (state : State.t) (block : Block.t) (hist : Trace)
    (out : result (LegacyABCIResponses.t * Block.t)) (tr : Trace) :
  execute L E e h state block hist = (out, tr) ->
  forall ev, In ev tr -> executeMay e (Block.isrs block) ev = true.
Proof.
  intros Hrun. apply forallb_forall. revert Hrun.
  unfold execute, checkIsrLength.
  destruct (Block.isrs block) as [l0|] eqn:Hisrs.
  1: destruct (BlockExecutor.fraudProofsEnabled e && negb (length l0 =? length (Block.txs block) + 3)%nat).
  1: { unfold bind, fail. intros H; inversion H; reflexivity. }
  all: unfold bind, emit, ret, lift, getAppHash, call, call_r, fail, throw; cbn [app].
  all: destruct (BlockExecutor.fraudProofsEnabled e) eqn:Hfe.
  1,3: destruct (app_GetAppHash E _) as [isr0|e0|p0]; cbn [app];
    [ | intros H; inversion H; subst; cbn; rewrite ?Hfe; reflexivity
      | intros H; inversion H; subst; cbn; rewrite ?Hfe; reflexivity ].
  all: destruct (ToABCIHeaderPB L (Block.header block)) as [abciHeader|e1|p1]; cbn [app];
    [ | intros H; inversion H; subst; cbn; rewrite ?Hfe; reflexivity
      | intros H; inversion H; subst; cbn; rewrite ?Hfe; reflexivity ].
  all: destruct (deref h (State.Validators state)) as [vals|]; cbn [app];
    [ | intros H; inversion H; subst; cbn; rewrite ?Hfe; reflexivity ].
  all: destruct (buildLastCommitInfo L h block (State.Validators state) (State.InitialHeight state))
    as [commitInfo|e2|p2]; cbn [app];
    [ | intros H; inversion H; subst; cbn; rewrite ?Hfe; reflexivity
      | intros H; inversion H; subst; cbn; rewrite ?Hfe; reflexivity ].
  all: destruct (ToABCIBlock L block) as [[abciBlock|] [e3|]] eqn:HT; cbn [app];
    [ intros H; inversion H; subst; cbn; rewrite ?Hfe; reflexivity
    | | intros H; inversion H; subst; cbn; rewrite ?Hfe; reflexivity
    | intros H; inversion H; subst; cbn; rewrite ?Hfe; reflexivity ].
  all: destruct (app_FinalizeBlock E _ _) as [fin|e4|p4]; cbn [app];
    [ | intros H; inversion H; subst; cbn; rewrite ?Hfe; reflexivity
      | intros H; inversion H; subst; cbn; rewrite ?Hfe; reflexivity ].
  all: destruct (Nat.eqb_spec (length (ABCIBlock.Txs abciBlock))
                   (length (ResponseFinalizeBlock.TxResults fin))) as [Heq|Hne]; cbn [negb app];
    [ | intros H; inversion H; subst; cbn; rewrite ?Hfe; reflexivity ].
  all: match goal with
       | |- context [executeCaptures ?x1 ?x2 ?x3 ?x4 ?bbr ?f ?st0 ?hs] =>
           destruct (executeCaptures x1 x2 x3 x4 bbr f st0 hs) as [o t] eqn:Hc
       end.
  all: apply executeCaptures_may in Hc; rewrite Hisrs in Hc.
  all: intros H; inversion H; subst; cbn; rewrite ?Hfe; cbn; exact Hc.
Qed.

Lemma execute_interactions_witness :
  executeMay (Sample.executor true) (Some Sample.isrs_declared)
    (FraudServiceBroadcast Sample.fraudProof None) = true.
Proof.
  refine (@execute_interactions Sample.lib Sample.app (Sample.executor true) Sample.heap
            Sample.state (Sample.block (Some Sample.isrs_declared)) [] _ _ eq_refl _ _).
  vm_compute. repeat (first [left; reflexivity | right]).
Defined.

(** ** The responses of [execute] *)

Lemma executeCaptures_responses (L : Lib) (E : Env) (e : BlockExecutor.t) (block : Block.t)
    (bbr : RequestBeginBlock.t) (fin : ResponseFinalizeBlock.t) (st0 : locals)
    (hist : Trace) (resp : LegacyABCIResponses.t) (block' : Block.t) (t : Trace) :
  executeCaptures L E e block bbr fin st0 hist = (Ok (resp, block'), t) ->
  resp = LegacyABCIResponses.mk
           (repeat None (length (Block.txs block)))
           (Some (ResponseEndBlock.mk
                    (ResponseFinalizeBlock.ValidatorUpdates fin)
                    (ResponseFinalizeBlock.ConsensusParamUpdates fin)
                    (ResponseFinalizeBlock.Events fin)))
           (Some (ResponseBeginBlock.mk (ResponseFinalizeBlock.Events fin))).
Proof.
  unfold executeCaptures, bind.
  destruct (genAndGossipFraudProofIfNeeded E e (Block.isrs block) st0 (Some bbr) None None hist)
    as [[st1|e1|p1] t1]; [| discriminate | discriminate].
  destruct (deliverTxLoop E e (Block.isrs block) bbr (Block.txs block) [] st1 (hist ++ t1))
    as [[[reqs st2]|e2|p2] t2]; [| discriminate | discriminate].
  destruct (genAndGossipFraudProofIfNeeded E e (Block.isrs block) st2 (Some bbr) (Some reqs)
              (Some (RequestEndBlock.mk (Header_Height L (Block.header block))))
              ((hist ++ t1) ++ t2))
    as [[st3|e3|p3] t3]; [| discriminate | discriminate].
  destruct (Block.isrs block) as [l|];
    destruct (BlockExecutor.fraudProofsEnabled e); unfold ret;
    intros H; inversion H; reflexivity.
Qed.

(** X8.  A run of [execute] that returns has called [FinalizeBlock]
    exactly once, and the call succeeded with as many tx results as the
    converted block has transactions.  The responses it returns hold one
    DeliverTx slot per transaction of the block, the events of the answer
    as BeginBlock response, and the validator updates, consensus-parameter
    updates and events of the answer as EndBlock response. *)
Theorem execute_responses (L : Lib) (E : Env) (e : BlockExecutor.t) (h : Heap)
    (state : State.t) (block : Block.t) (hist : Trace)
    (resp : LegacyABCIResponses.t) (block' : Block.t) (tr : Trace) :
  execute L E e h state block hist = (Ok (resp, block'), tr) ->
  exists abciBlock req fin pre post,
    tr = pre ++ AppFinalizeBlock req (Ok fin) :: post
    /\ (forall req' r, ~ In (AppFinalizeBlock req' r) (pre ++ post))
    /\ ToABCIBlock L block = (Some abciBlock, None)
    /\ length (ResponseFinalizeBlock.TxResults fin) = length (ABCIBlock.Txs abciBlock)
    /\ length (LegacyABCIResponses.DeliverTxs resp) = length (Block.txs block)
    /\ LegacyABCIResponses.BeginBlock resp
       = Some (ResponseBeginBlock.mk (ResponseFinalizeBlock.Events fin))
    /\ LegacyABCIResponses.EndBlock resp
       = Some (ResponseEndBlock.mk
                 (ResponseFinalizeBlock.ValidatorUpdates fin)
                 (ResponseFinalizeBlock.ConsensusParamUpdates fin)
                 (ResponseFinalizeBlock.Events fin)).
Proof.
  intros Hrun. destruct (execute_inv L E e h state block hist Hrun) as [Hstop|Hfull].
  { destruct Hstop as [Hno _]. exfalso. exact (Hno _ eq_refl). }
  destruct Hfull as (abciHeader & vals & abciBlock & isr0s & st0 & req & fin & hist' & t
                     & _ & _ & HT & Hlen & _ & Hisr0 & Hcap & ->).
  pose proof (executeCaptures_responses _ _ _ _ _ _ _ _ Hcap) as ->.
  apply executeCaptures_effects in Hcap. destruct Hcap as (_ & Hnofin & _).
  exists abciBlock, req, fin, (MempoolSetResponseCallback :: isr0s),
    (Log LogInfo "finalized block" :: Log LogInfo "executed block" :: t).
  split; [rewrite <- app_comm_cons; reflexivity |].
  split.
  { intros req' r Hin. apply in_app_or in Hin. destruct Hin as [Hin|Hin].
    - destruct Hin as [Hin|Hin]; [discriminate |].
      destruct (BlockExecutor.fraudProofsEnabled e).
      + destruct Hisr0 as (isr0 & -> & _). destruct Hin as [Hin|[]]; discriminate.
      + destruct Hisr0 as (-> & _). destruct Hin.
    - destruct Hin as [Hin|[Hin|Hin]]; [discriminate | discriminate |].
      exact (Hnofin _ _ Hin). }
  split; [exact HT |]. split; [symmetry; exact Hlen |].
  split; [cbn; apply repeat_length |]. split; reflexivity.
Qed.

Lemma execute_responses_witness :
  exists resp block' tr,
    execute Sample.lib Sample.app (Sample.executor false) Sample.heap Sample.state
      (Sample.block None) [] = (Ok (resp, block'), tr)
    /\ length (LegacyABCIResponses.DeliverTxs resp) = 2
    /\ LegacyABCIResponses.BeginBlock resp = Some (ResponseBeginBlock.mk ["begin"%string]).
Proof.
  do 3 eexists. split; [reflexivity |].
  destruct (@execute_responses Sample.lib Sample.app (Sample.executor false) Sample.heap
              Sample.state (Sample.block None) [] _ _ _ eq_refl)
    as (abciBlock & req & fin & pre & post & _ & _ & _ & _ & Hd & _ & _).
  split; [exact Hd | reflexivity].
Defined.

(** X9.  Every [FinalizeBlock] request of [execute] carries the hash of
    the block, the header fields and the transactions of the converted
    block, its evidence in ABCI form, and as decided last commit the commit
    info that [buildLastCommitInfo] builds from the block, the state's
    [Validators] and the state's initial height.  When the application
    answers the call with an error, [execute] returns that error. *)
Theorem execute_finalize_request (L : Lib) (E : Env) (e : BlockExecutor.t) (h : Heap)
    (state : State.t) (block : Block.t) (hist : Trace)
    (out : result (LegacyABCIResponses.t * Block.t)) (tr : Trace) :
  execute L E e h state block hist = (out, tr) ->
  forall req r, In (AppFinalizeBlock req r) tr ->
  exists abciBlock commitInfo,
    ToABCIBlock L block = (Some abciBlock, None)
    /\ buildLastCommitInfo L h block (State.Validators state) (State.InitialHeight state)
       = Ok commitInfo
    /\ req = RequestFinalizeBlock.mk
               (Block_Hash L block)
               (ABCIHeader.NextValidatorsHash (ABCIBlock.Header abciBlock))
               (ABCIHeader.ProposerAddress (ABCIBlock.Header abciBlock))
               (ABCIHeader.Height (ABCIBlock.Header abciBlock))
               (ABCIHeader.Time (ABCIBlock.Header abciBlock))
               commitInfo
               (Evidence_ToABCI L (ABCIBlock.Evidence abciBlock))
               (ABCIBlock.Txs abciBlock)
    /\ (forall err, r = Err err -> out = Err err)
    /\ (forall p, r = Panic p -> out = Panic p).
Proof.
  unfold execute, checkIsrLength.
  destruct (Block.isrs block) as [l0|] eqn:Hisrs.
  1: destruct (BlockExecutor.fraudProofsEnabled e && negb (length l0 =? length (Block.txs block) + 3)%nat).
  1: { unfold bind, fail. intros H; inversion H; subst. intros req r []. }
  all: unfold bind, emit, ret, lift, getAppHash, call, call_r, fail, throw; cbn [app].
  all: destruct (BlockExecutor.fraudProofsEnabled e) eqn:Hfe.
  1,3: destruct (app_GetAppHash E _) as [isr0|e0|p0]; cbn [app];
    [ | intros H; inversion H; subst; intros req r Hin; cbn in Hin; exfalso; intuition discriminate
      | intros H; inversion H; subst; intros req r Hin; cbn in Hin; exfalso; intuition discriminate ].
  all: destruct (ToABCIHeaderPB L (Block.header block)) as [abciHeader|e1|p1]; cbn [app];
    [ | intros H; inversion H; subst; intros req r Hin; cbn in Hin; exfalso; intuition discriminate
      | intros H; inversion H; subst; intros req r Hin; cbn in Hin; exfalso; intuition discriminate ].
  all: destruct (deref h (State.Validators state)) as [vals|]; cbn [app];
    [ | intros H; inversion H; subst; intros req r Hin; cbn in Hin; exfalso; intuition discriminate ].
  all: destruct (buildLastCommitInfo L h block (State.Validators state) (State.InitialHeight state))
    as [commitInfo|e2|p2]; cbn [app];
    [ | intros H; inversion H; subst; intros req r Hin; cbn in Hin; exfalso; intuition discriminate
      | intros H; inversion H; subst; intros req r Hin; cbn in Hin; exfalso; intuition discriminate ].
  all: destruct (ToABCIBlock L block) as [[abciBlock|] [e3|]] eqn:HT; cbn [app];
    [ intros H; inversion H; subst; intros req r Hin; cbn in Hin; exfalso; intuition discriminate
    | | intros H; inversion H; subst; intros req r Hin; cbn in Hin; exfalso; intuition discriminate
    | intros H; inversion H; subst; intros req r Hin; cbn in Hin; exfalso; intuition discriminate ].
  all: assert (Hfound : forall isr0s req0 r0 (post : Trace) req r,
             ~ In (AppFinalizeBlock req r) isr0s ->
             ~ In (AppFinalizeBlock req r) post ->
             In (AppFinalizeBlock req r)
               (MempoolSetResponseCallback :: isr0s ++ AppFinalizeBlock req0 r0 :: post) ->
             req = req0 /\ r = r0).
  all: try (intros isr0s req0 r0 post req r Hpre Hpost [Hin|Hin]; [discriminate |];
            apply in_app_or in Hin; destruct Hin as [Hin|[Hin|Hin]];
            [ exfalso; exact (Hpre Hin) | inversion Hin; split; reflexivity
            | exfalso; exact (Hpost Hin) ]).
  all: destruct (app_FinalizeBlock E _ _) as [fin|e4|p4] eqn:Hfin; cbn [app].
  all: try (destruct (Nat.eqb_spec (length (ABCIBlock.Txs abciBlock))
                   (length (ResponseFinalizeBlock.TxResults fin))) as [Heq|Hne]; cbn [negb app]).
  all: try match goal with
       | |- context [executeCaptures ?x1 ?x2 ?x3 ?x4 ?bbr ?f ?st0 ?hs] =>
           destruct (executeCaptures x1 x2 x3 x4 bbr f st0 hs) as [o t] eqn:Hc;
           apply executeCaptures_effects in Hc; destruct Hc as (_ & Hnofin & _)
       end.
  all: intros H; inversion H; subst; clear H; intros req r Hin.
  all: match type of Hin with
       | In _ (MempoolSetResponseCallback :: AppGetAppHash ?a :: ?x :: ?post) =>
           apply (Hfound [AppGetAppHash a] _ _ post) in Hin
       | In _ (MempoolSetResponseCallback :: ?x :: ?post) =>
           apply (Hfound [] _ _ post) in Hin
       end.
  all: try (intros Hi; cbn in Hi; repeat (destruct Hi as [Hi|Hi]; try discriminate);
            try contradiction; exact (Hnofin _ _ Hi)).
  all: destruct Hin as [-> ->]; exists abciBlock, commitInfo.
  all: split; [reflexivity |]; split; [reflexivity |]; split; [reflexivity |].
  all: split; [intros err Hr; try discriminate; injection Hr as <-; reflexivity
              | intros p Hr; try discriminate; injection Hr as <-; reflexivity].
Qed.

Lemma execute_finalize_request_witness :
  exists abciBlock commitInfo,
    ToABCIBlock Sample.lib (Sample.block None) = (Some abciBlock, None)
    /\ buildLastCommitInfo Sample.lib Sample.heap (Sample.block None) (Some 1) 1%Z = Ok commitInfo
    /\ RequestFinalizeBlock.DecidedLastCommit Sample.request = commitInfo
    /\ RequestFinalizeBlock.Txs Sample.request = ABCIBlock.Txs abciBlock.
Proof.
  destruct (@execute_finalize_request Sample.lib Sample.app (Sample.executor false) Sample.heap
              Sample.state (Sample.block None) [] _ _ eq_refl
              Sample.request (Ok (Sample.finalize [])) (or_intror (or_introl eq_refl)))
    as (abciBlock & commitInfo & HT & Hb & Hreq & _).
  exists abciBlock, commitInfo.
  split; [exact HT |]. split; [exact Hb |]. rewrite Hreq. split; reflexivity.
Defined.

(** ** The critical section of [commit] *)

(** X10.  However [commit] ends (with a result, an error or a panic of a
    collaborator), its interactions begin with the lock of the mempool and
    end with its unlock, and the mempool is locked and unlocked once. *)
Theorem commit_unlocks (L : Lib) (E : Env) (state : State.t) (block : Block.t)
    (deliverTxs : list (option ExecTxResult.t)) (hist : Trace)
    (out : result (bytes * Z)) (t : Trace) :
  commit L E state block deliverTxs hist = (out, t) ->
  exists mid,
    t = MempoolLock :: mid ++ [MempoolUnlock]
    /\ ~ In MempoolLock mid /\ ~ In MempoolUnlock mid.
Proof.
  unfold commit, defer, bind, emit, call, call_err, check, ret, fail. cbn [app].
  destruct (mempool_FlushAppConn E (hist ++ [MempoolLock])) as [e1|]; cbn.
  2: destruct (app_Commit E _) as [commitResp|e2|p2]; cbn.
  2: destruct (app_GetAppHash E _) as [a|e3|p3]; cbn.
  2: destruct (mempool_Update E _ _ _ _ _ _) as [e4|]; cbn.
  all: intros H; inversion H; subst; clear H.
  all: match goal with
       | |- exists mid, MempoolLock :: ?l = _ /\ _ => exists (removelast l)
       end.
  all: split; [reflexivity |]; split; intros Hin; cbn in Hin; intuition discriminate.
Qed.

Lemma commit_unlocks_witness :
  exists mid,
    snd (commit Sample.lib Sample.app Sample.state (Sample.block None) [] [])
    = MempoolLock :: mid ++ [MempoolUnlock]
    /\ ~ In MempoolLock mid /\ ~ In MempoolUnlock mid.
Proof.
  exact (@commit_unlocks Sample.lib Sample.app Sample.state (Sample.block None) [] []
           _ _ eq_refl).
Defined.



(** ** [Commit] and the event bus *)

Lemma commit_no_publication (L : Lib) (E : Env) (state : State.t) (block : Block.t)
    (deliverTxs : list (option ExecTxResult.t)) (hist : Trace)
    (out : result (bytes * Z)) (t : Trace) :
  commit L E state block deliverTxs hist = (out, t) ->
  forall ev, In ev t -> publication ev = None.
Proof.
  unfold commit, defer, bind, emit, call, call_err, check, ret, fail. cbn [app].
  destruct (mempool_FlushAppConn E (hist ++ [MempoolLock])) as [e1|]; cbn.
  2: destruct (app_Commit E _) as [commitResp|e2|p2]; cbn.
  2: destruct (app_GetAppHash E _) as [a|e3|p3]; cbn.
  2: destruct (mempool_Update E _ _ _ _ _ _) as [e4|]; cbn.
  all: intros H; inversion H; subst; clear H.
  all: intros ev Hin; cbn in Hin;
    repeat (destruct Hin as [Hin|Hin]; [subst ev; reflexivity |]); contradiction.
Qed.

(** X12.  [Commit] publishes an event only after the whole critical
    section has succeeded and the mempool is unlocked again: a run with a
    publication begins with the six interactions of a successful
    [commit]. *)
Theorem Commit_publishes_after_commit (L : Lib) (E : Env) (e : BlockExecutor.t) (h : Heap)
    (state : State.t) (block : Block.t) (resp : LegacyABCIResponses.t) (hist : Trace)
    (out : result (bytes * Z)) (tr : Trace) :
  Commit L E e h state block resp hist = (out, tr) ->
  forall ev, In ev tr -> publication ev <> None ->
  exists commitResp appHash events,
    tr = commitSection L state block (LegacyABCIResponses.DeliverTxs resp) commitResp appHash
         ++ events.
Proof.
  unfold Commit, bind.
  destruct (commit L E state block (LegacyABCIResponses.DeliverTxs resp) hist)
    as [[[appHash retainHeight]|e1|p1] t1] eqn:Hc.
  - destruct (commit_Ok _ _ _ _ _ _ Hc) as (commitResp & -> & _).
    match goal with
    | |- context [let '(r, t2) := ?m in _] => destruct m as [r t2]
    end.
    intros H; inversion H; subst. intros ev _ _. do 3 eexists. reflexivity.
  - intros H; inversion H; subst. intros ev Hin Hpub. exfalso. apply Hpub.
    exact (commit_no_publication _ _ _ _ _ _ Hc ev Hin).
  - intros H; inversion H; subst. intros ev Hin Hpub. exfalso. apply Hpub.
    exact (commit_no_publication _ _ _ _ _ _ Hc ev Hin).
Qed.

Lemma Commit_publishes_after_commit_witness :
  exists commitResp appHash events,
    snd (Commit Sample.lib Sample.app (Sample.executor false) Sample.heap Sample.state
           (Sample.block None) (Sample.responses []) [])
    = commitSection Sample.lib Sample.state (Sample.block None)
        (LegacyABCIResponses.DeliverTxs (Sample.responses [])) commitResp appHash
      ++ events.
Proof.
  refine (@Commit_publishes_after_commit Sample.lib Sample.app (Sample.executor false)
            Sample.heap Sample.state (Sample.block None) (Sample.responses []) [] _ _ eq_refl
            (PublishEventTx
               (TxResult.mk 2%Z 1%Z [Byte.x02] Sample.txResult) None) _ _).
  - vm_compute. repeat (first [left; reflexivity | right]).
  - discriminate.
Defined.

(** X13.  Without an event bus [Commit] is [commit]: the same result and
    the same interactions, and nothing else. *)
Theorem Commit_without_event_bus (L : Lib) (E : Env) (e : BlockExecutor.t) (h : Heap)
    (state : State.t) (block : Block.t) (resp : LegacyABCIResponses.t) (hist : Trace) :
  BlockExecutor.eventBus e = None ->
  Commit L E e h state block resp hist
  = commit L E state block (LegacyABCIResponses.DeliverTxs resp) hist.
Proof.
  intros Hbus. unfold Commit, bind, publishEvents. rewrite Hbus.
  destruct (commit L E state block (LegacyABCIResponses.DeliverTxs resp) hist)
    as [[[appHash retainHeight]|e1|p1] t1]; [| reflexivity | reflexivity].
  unfold ret; cbn. rewrite !app_nil_r. reflexivity.
Qed.

Lemma Commit_without_event_bus_witness :
  Commit Sample.lib Sample.app
    (NewBlockExecutor [Byte.x0b] (make_bytes 8) "c1"%string false None)
    Sample.heap Sample.state (Sample.block None) (Sample.responses []) []
  = commit Sample.lib Sample.app Sample.state (Sample.block None)
      (LegacyABCIResponses.DeliverTxs (Sample.responses [])) [].
Proof.
  apply (@Commit_without_event_bus Sample.lib Sample.app
           (NewBlockExecutor [Byte.x0b] (make_bytes 8) "c1"%string false None)).
  reflexivity.
Defined.

(** ** [publishEvents] *)

Lemma multierr_Append_None (a b : option error) :
  multierr_Append a b = None <-> a = None /\ b = None.
Proof.
  destruct a, b; cbn; split; intros H; try discriminate; try (destruct H; discriminate);
    split; reflexivity.
Qed.

Lemma publishEvidence_events (E : Env) (evidence : list Evidence) (height : Z) :
  forall (err : option error) (hist : Trace) (out : result (option error)) (t : Trace),
  publishEvidence E evidence height err hist = (out, t) ->
  exists err', out = Ok err'
    /\ length t = length evidence
    /\ (forall ev, In ev t -> exists x r, ev = PublishEventNewEvidence x height r)
    /\ (err' = None <-> err = None /\ forall ev, In ev t -> publication ev = Some None).
Proof.
  induction evidence as [|x rest IH]; intros err hist out t; cbn [publishEvidence].
  - unfold ret. intros H; inversion H; subst. exists err.
    split; [reflexivity |]. split; [reflexivity |]. split; [intros ev [] |].
    split; [intros ->; split; [reflexivity | intros ev []] | intros [-> _]; reflexivity].
  - unfold bind, call_err.
    destruct (publishEvidence E rest height
                (multierr_Append err (bus_PublishEventNewEvidence E hist x height))
                (hist ++ [PublishEventNewEvidence x height
                            (bus_PublishEventNewEvidence E hist x height)]))
      as [o2 t2] eqn:Hrest.
    destruct (IH _ _ _ _ Hrest) as (err' & -> & Hlen & Hall & Hnone).
    intros H; inversion H; subst. exists err'.
    split; [reflexivity |]. split; [cbn; rewrite Hlen; reflexivity |].
    split.
    { intros ev [<-|Hin]; [do 2 eexists; reflexivity | exact (Hall ev Hin)]. }
    rewrite Hnone, multierr_Append_None. split.
    + intros [[-> Hr] Hev]. split; [reflexivity |].
      intros ev [<-|Hin]; [cbn; rewrite Hr; reflexivity | exact (Hev ev Hin)].
    + intros [-> Hev]. split; [split; [reflexivity |] |].
      * specialize (Hev _ (or_introl eq_refl)). cbn in Hev. congruence.
      * intros ev Hin. apply Hev. right. exact Hin.
Qed.

Lemma publishTxs_events (E : Env) (abciTxs : list bytes) (height : Z)
    (deliverTxs : list (option ExecTxResult.t)) :
  forall (i : nat) (err : option error) (hist : Trace) (out : result (option error)) (t : Trace),
  publishTxs E abciTxs height deliverTxs i err hist = (out, t) ->
  (forall ev, In ev t -> exists x r, ev = PublishEventTx x r)
  /\ (In None deliverTxs -> forall err', out <> Ok err')
  /\ (forall err', out = Ok err' ->
      length t = length deliverTxs
      /\ (err' = None <-> err = None /\ forall ev, In ev t -> publication ev = Some None)).
Proof.
  induction deliverTxs as [|dtx rest IH]; intros i err hist out t; cbn [publishTxs].
  - unfold ret. intros H; inversion H; subst.
    split; [intros ev [] |]. split; [intros [] |].
    intros err' Hout. injection Hout as <-. split; [reflexivity |].
    split; [intros ->; split; [reflexivity | intros ev []] | intros [-> _]; reflexivity].
  - destruct (nth_error abciTxs i) as [tx|].
    2:{ unfold throw. intros H; inversion H; subst.
        split; [intros ev [] |]. split; intros; discriminate. }
    destruct dtx as [result|].
    2:{ unfold throw. intros H; inversion H; subst.
        split; [intros ev [] |]. split; intros; discriminate. }
    unfold bind, call_err.
    match goal with
    | |- context [publishTxs E abciTxs height rest (S i) ?a ?hs] =>
        destruct (publishTxs E abciTxs height rest (S i) a hs) as [o2 t2] eqn:Hrest
    end.
    destruct (IH _ _ _ _ _ Hrest) as (Hall & Hnil & Hok).
    intros H; inversion H; subst.
    split.
    { intros ev [<-|Hin]; [do 2 eexists; reflexivity | exact (Hall ev Hin)]. }
    split.
    { intros [Hin|Hin]; [discriminate | exact (Hnil Hin)]. }
    intros err' Hout. destruct (Hok err' Hout) as [Hlen Hnone].
    split; [cbn; rewrite Hlen; reflexivity |].
    rewrite Hnone, multierr_Append_None. split.
    + intros [[-> Hr] Hev]. split; [reflexivity |].
      intros ev [<-|Hin]; [cbn; rewrite Hr; reflexivity | exact (Hev ev Hin)].
    + intros [-> Hev]. split; [split; [reflexivity |] |].
      * specialize (Hev _ (or_introl eq_refl)). cbn in Hev. congruence.
      * intros ev Hin. apply Hev. right. exact Hin.
Qed.

(** X14.  With an event bus and a block that converts, a run of
    [publishEvents] that returns has published, in this order, the new
    block, its header, one event per piece of evidence and one event per
    DeliverTx result, and nothing else; the error it returns is nil exactly
    when every publication succeeded, so a failed publication does not stop
    the later ones. *)
Theorem publishEvents_result (L : Lib) (E : Env) (e : BlockExecutor.t) (h : Heap)
    (resp : LegacyABCIResponses.t) (block : Block.t) (state : State.t) (hist : Trace)
    (abciBlock : ABCIBlock.t) (err : option error) (t : Trace) :
  BlockExecutor.eventBus e <> None ->
  ToABCIBlock L block = (Some abciBlock, None) ->
  publishEvents L E e h resp block state hist = (Ok err, t) ->
  (exists d hd r1 r2 evidence txs,
     t = PublishEventNewBlock d r1 :: PublishEventNewBlockHeader hd r2 :: evidence ++ txs
     /\ length evidence = length (ABCIBlock.Evidence abciBlock)
     /\ (forall ev, In ev evidence ->
         exists x r, ev = PublishEventNewEvidence x (Header_Height L (Block.header block)) r)
     /\ length txs = length (LegacyABCIResponses.DeliverTxs resp)
     /\ (forall ev, In ev txs -> exists x r, ev = PublishEventTx x r))
  /\ (err = None <-> forall ev, In ev t -> publication ev = Some None).
Proof.
  intros Hbus HT. unfold publishEvents.
  destruct (BlockExecutor.eventBus e) as [bus|]; [| contradiction]. rewrite HT.
  destruct (deref h (State.Validators state)) as [vals|]; [| discriminate].
  destruct (LegacyABCIResponses.EndBlock resp) as [endBlock|]; [| discriminate].
  destruct (LegacyABCIResponses.BeginBlock resp) as [beginBlock|]; [| discriminate].
  unfold bind, call_err. cbn [ABCIBlock.set_Header ABCIBlock.Header ABCIBlock.Evidence ABCIBlock.Txs].
  match goal with
  | |- context [publishEvidence E ?evs ?hgt ?a ?hs] =>
      destruct (publishEvidence E evs hgt a hs) as [o1 t1] eqn:Hev
  end.
  destruct (publishEvidence_events _ _ _ _ _ Hev) as (err1 & -> & Hlen1 & Hall1 & Hnone1).
  match goal with
  | |- context [publishTxs E ?txs ?hgt ?dtxs 0 ?a ?hs] =>
      destruct (publishTxs E txs hgt dtxs 0 a hs) as [o2 t2] eqn:Htx
  end.
  destruct (publishTxs_events _ _ _ _ _ _ _ Htx) as (Hall2 & _ & Hok2).
  intros H; inversion H; subst. destruct (Hok2 err eq_refl) as [Hlen2 Hnone2].
  split.
  { do 6 eexists. split; [reflexivity |]. split; [exact Hlen1 |]. split; [exact Hall1 |].
    split; [exact Hlen2 | exact Hall2]. }
  rewrite Hnone2, Hnone1, !multierr_Append_None. split.
  - intros [[[[_ Hr1] Hr2] He1] He2].
    intros ev [<-|[<-|Hin]]; [cbn; rewrite Hr1; reflexivity | cbn; rewrite Hr2; reflexivity |].
    apply in_app_or in Hin. destruct Hin as [Hin|Hin]; [exact (He1 ev Hin) | exact (He2 ev Hin)].
  - intros Hev0.
    pose proof (Hev0 _ (or_introl eq_refl)) as Hr1.
    pose proof (Hev0 _ (or_intror (or_introl eq_refl))) as Hr2.
    cbn in Hr1, Hr2.
    split; [split; [split; [split; [reflexivity | congruence] | congruence] |] |].
    + intros ev Hin. apply Hev0. right. right. apply in_or_app. left. exact Hin.
    + intros ev Hin. apply Hev0. right. right. apply in_or_app. right. exact Hin.
Qed.

Lemma publishEvents_result_witness :
  exists d hd r1 r2 evidence txs,
    snd (publishEvents Sample.lib Sample.app_bus_down (Sample.executor false) Sample.heap
           (Sample.responses []) (Sample.block None) Sample.state [])
    = PublishEventNewBlock d r1 :: PublishEventNewBlockHeader hd r2 :: evidence ++ txs
    /\ length evidence = 0
    /\ length txs = 2.
Proof.
  destruct (proj1 (@publishEvents_result Sample.lib Sample.app_bus_down (Sample.executor false)
                     Sample.heap (Sample.responses []) (Sample.block None) Sample.state []
                     _ (Some (errorString _)) _ ltac:(discriminate) eq_refl eq_refl))
    as (d & hd & r1 & r2 & evidence & txs & Ht & Hl1 & _ & Hl2 & _).
  exists d, hd, r1, r2, evidence, txs.
  split; [exact Ht |]. split; [exact Hl1 | exact Hl2].
Defined.

(** X15.  [publishEvents] dereferences every entry of the DeliverTx
    results: with an event bus and a block that converts, a nil entry makes
    it panic, so it does not return. *)
Theorem publishEvents_nil_result (L : Lib) (E : Env) (e : BlockExecutor.t) (h : Heap)
    (resp : LegacyABCIResponses.t) (block : Block.t) (state : State.t) (hist : Trace)
    (abciBlock : ABCIBlock.t) :
  BlockExecutor.eventBus e <> None ->
  ToABCIBlock L block = (Some abciBlock, None) ->
  In None (LegacyABCIResponses.DeliverTxs resp) ->
  exists p t, publishEvents L E e h resp block state hist = (Panic p, t).
Proof.
  intros Hbus HT Hnil.
  destruct (publishEvents L E e h resp block state hist) as [[err|e0|p] t] eqn:Hrun.
  - exfalso. revert Hrun. unfold publishEvents.
    destruct (BlockExecutor.eventBus e) as [bus|]; [| contradiction]. rewrite HT.
    destruct (deref h (State.Validators state)) as [vals|]; [| discriminate].
    destruct (LegacyABCIResponses.EndBlock resp) as [endBlock|]; [| discriminate].
    destruct (LegacyABCIResponses.BeginBlock resp) as [beginBlock|]; [| discriminate].
    unfold bind, call_err.
    cbn [ABCIBlock.set_Header ABCIBlock.Header ABCIBlock.Evidence ABCIBlock.Txs].
    match goal with
    | |- context [publishEvidence E ?evs ?hgt ?a ?hs] =>
        destruct (publishEvidence E evs hgt a hs) as [o1 t1] eqn:Hev
    end.
    destruct (publishEvidence_events _ _ _ _ _ Hev) as (err1 & -> & _).
    match goal with
    | |- context [publishTxs E ?txs ?hgt ?dtxs 0 ?a ?hs] =>
        destruct (publishTxs E txs hgt dtxs 0 a hs) as [o2 t2] eqn:Htx
    end.
    destruct (publishTxs_events _ _ _ _ _ _ _ Htx) as (_ & Hno & _).
    intros H; inversion H; subst. exact (Hno Hnil err eq_refl).
  - exfalso. exact (publishEvents_not_Err _ _ _ _ _ _ _ _ Hrun).
  - exists p, t. reflexivity.
Qed.

Lemma publishEvents_nil_result_witness :
  exists p t,
    publishEvents Sample.lib Sample.app (Sample.executor false) Sample.heap
      (LegacyABCIResponses.mk [Some Sample.txResult; None]
         (Some (ResponseEndBlock.mk [] None [])) (Some (ResponseBeginBlock.mk [])))
      (Sample.block None) Sample.state []
    = (Panic p, t).
Proof.
  refine (@publishEvents_nil_result Sample.lib Sample.app (Sample.executor false) Sample.heap
            _ (Sample.block None) Sample.state [] _ _ eq_refl _).
  - discriminate.
  - right. left. reflexivity.
Defined.

(** ** More on [updateState] *)

(** X16.  With an empty list of validator updates [updateState] has no
    error to return.  It builds a state whose validator set is the copy of
    the previous [NextValidators], with the proposer priority advanced once
    unless the set is empty, and in which [LastHeightValidatorsChanged]
    keeps its value; it returns that state when no DeliverTx result is nil,
    and panics in the hashing of the results when one is. *)
Theorem updateState_without_updates (L : Lib) (h : Heap) (state : State.t) (block : Block.t)
    (abciResponses : LegacyABCIResponses.t) (nextValidators validators : ValidatorSet.t) :
  deref h (State.NextValidators state) = Some nextValidators ->
  deref h (State.Validators state) = Some validators ->
  exists s h',
    (forall results,
       LegacyABCIResponses.DeliverTxs abciResponses = map Some results ->
       updateState L h state block abciResponses [] = (Ok (s, None), h'))
    /\ (In None (LegacyABCIResponses.DeliverTxs abciResponses) ->
        updateState L h state block abciResponses [] = (Panic NilDereference, h'))
    /\ State.LastHeightValidatorsChanged s = State.LastHeightValidatorsChanged state
    /\ deref h' (State.Validators s) = Some (spec_advance L nextValidators)
    /\ deref h' (State.NextValidators s) = Some (spec_advance L nextValidators)
    /\ deref h' (State.LastValidators s) = Some validators.
Proof.
  intros Hnv Hvals. unfold updateState. rewrite Hnv.
  destruct (updateState_nValSet L h state block [] nextValidators)
    as [[err h1]|[[[p nv] h1] changed]] eqn:Hn.
  { apply updateState_nValSet_inl in Hn. destruct Hn as [_ [(_ & Hne & _)|(_ & Hne & _)]];
      contradiction. }
  apply updateState_nValSet_inr in Hn.
  destruct Hn as (Hext & Hp & Hnth & Hnv' & _ & Hch).
  rewrite (extends_deref _ Hext Hvals). cbn [alloc].
  eexists. eexists.
  split; [intros results Hmap; rewrite Hmap, derefAll_map_Some;
          cbn [State.LastResultsHash State.zero]; rewrite copy_nil; reflexivity |].
  split; [intros Hin; rewrite (derefAll_In_None _ Hin); reflexivity |].
  cbn [State.LastHeightValidatorsChanged State.Validators State.NextValidators
       State.LastValidators deref].
  assert (Hlt : p < length h1) by (apply nth_error_Some; rewrite Hnth; discriminate).
  assert (Hadv : nv = spec_advance L nextValidators).
  { rewrite Hnv'. unfold spec_nValSet, spec_advance.
    destruct (ValidatorSet.Validators nextValidators); reflexivity. }
  split; [apply Hch; right; reflexivity |].
  rewrite nth_error_app1 by exact Hlt. rewrite Hnth, Hadv.
  split; [reflexivity |]. split; [reflexivity |].
  rewrite nth_error_app2 by lia. rewrite Nat.sub_diag. reflexivity.
Qed.

Lemma updateState_without_updates_witness :
  exists s h',
    updateState Sample.lib Sample.heap Sample.state (Sample.block None) (Sample.responses []) []
    = (Ok (s, None), h')
    /\ State.LastHeightValidatorsChanged s = 1%Z
    /\ deref h' (State.Validators s) = Some (spec_advance Sample.lib Sample.vals).
Proof.
  destruct (@updateState_without_updates Sample.lib Sample.heap Sample.state (Sample.block None)
              (Sample.responses []) Sample.vals Sample.vals eq_refl eq_refl)
    as (s & h' & Hrun & _ & Hch & Hv & _).
  exists s, h'. split; [exact (Hrun [Sample.txResult; Sample.txResult] eq_refl) |].
  split; [exact Hch | exact Hv].
Defined.

(** X17.  When the change set cannot be applied to a non-empty validator
    set and the error is not the one of a set that would become empty,
    [updateState] gives up: it returns the input state together with that
    error, and the validator sets of the input state are as they were. *)
Theorem updateState_fatal_update_error (L : Lib) (h : Heap) (state : State.t)
    (block : Block.t) (abciResponses : LegacyABCIResponses.t)
    (validatorUpdates : list Validator.t) (nextValidators after : ValidatorSet.t)
    (err : error) :
  deref h (State.NextValidators state) = Some nextValidators ->
  ValidatorSet.Validators nextValidators <> [] ->
  validatorUpdates <> [] ->
  UpdateWithChangeSet L nextValidators validatorUpdates = (after, Some err) ->
  Error err <> Error ErrEmptyValSetGenerated ->
  exists h',
    updateState L h state block abciResponses validatorUpdates = (Ok (state, Some err), h')
    /\ extends h h'.
Proof.
  intros Hnv Hne Hu HU He.
  destruct validatorUpdates as [|u us]; [congruence |].
  destruct (ValidatorSet.Validators nextValidators) as [|v0 vs0] eqn:Hv0; [congruence |].
  unfold updateState. rewrite Hnv. unfold updateState_nValSet. cbn [alloc].
  rewrite Hv0. cbn [length Nat.ltb Nat.leb]. rewrite HU.
  destruct (String.eqb_spec (Error err) (Error ErrEmptyValSetGenerated)) as [Heq|_];
    [contradiction |].
  cbn [negb]. eexists. split; [reflexivity |].
  apply store_extends; [apply (alloc_extends h nextValidators) | lia].
Qed.

Lemma updateState_fatal_update_error_witness :
  exists h',
    updateState Cases.lib_rejecting Sample.heap Sample.state (Sample.block None)
      (Sample.responses []) [Sample.W]
    = (Ok (Sample.state, Some (errors_New "duplicate entry in changes")), h')
    /\ extends Sample.heap h'.
Proof.
  refine (@updateState_fatal_update_error Cases.lib_rejecting Sample.heap Sample.state
            (Sample.block None) (Sample.responses []) [Sample.W] Sample.vals Sample.vals
            (errors_New "duplicate entry in changes") eq_refl _ _ eq_refl _).
  - discriminate.
  - discriminate.
  - cbn. discriminate.
Defined.

(** ** More on [ApplyBlock] *)

Lemma validate_Ok_height (L : Lib) (h : Heap) (state : State.t) (block : Block.t) :
  validate L h state block = Ok tt ->
  ((0 < State.LastBlockHeight state)%Z ->
   Header_Height L (Block.header block) = int64_add (State.LastBlockHeight state) 1)
  /\ ((State.LastBlockHeight state <= 0)%Z ->
      Header_Height L (Block.header block) = State.InitialHeight state).
Proof.
  unfold validate.
  destruct (Block_ValidateBasic L block); [discriminate |].
  destruct (negb _ || negb _); [discriminate |].
  destruct (Z.leb_spec (State.LastBlockHeight state) 0) as [Hle|Hgt];
    destruct (Z.ltb_spec 0 (State.LastBlockHeight state)) as [Hlt|Hge]; try lia; cbn [andb].
  - destruct (Z.eqb_spec (Header_Height L (Block.header block)) (State.InitialHeight state))
      as [Heq|Hne]; cbn [negb]; [| discriminate].
    intros _. split; [lia | intros _; exact Heq].
  - destruct (Z.eqb_spec (Header_Height L (Block.header block))
                (int64_add (State.LastBlockHeight state) 1)) as [Heq|Hne]; cbn [negb];
      [| discriminate].
    intros _. split; [intros _; exact Heq | lia].
Qed.

Lemma execute_block (L : Lib) (E : Env) (e : BlockExecutor.t) (h : Heap) (state : State.t)
    (block : Block.t) (hist : Trace) (resp : LegacyABCIResponses.t) (block' : Block.t)
    (tr : Trace) :
  execute L E e h state block hist = (Ok (resp, block'), tr) ->
  LegacyABCIResponses.DeliverTxs resp = repeat None (length (Block.txs block))
  /\ (block' = block
      \/ (BlockExecutor.fraudProofsEnabled e = true /\ Block.isrs block = None
          /\ exists roots, block' = Block.set_isrs (Some roots) block)).
Proof.
  intros Hrun. destruct (execute_inv L E e h state block hist Hrun) as [Hstop|Hfull].
  { destruct Hstop as [Hno _]. exfalso. exact (Hno _ eq_refl). }
  destruct Hfull as (abciHeader & vals & abciBlock & isr0s & st0 & req & fin & hist' & t
                     & _ & _ & _ & _ & _ & _ & Hcap & _).
  pose proof (executeCaptures_responses _ _ _ _ _ _ _ _ Hcap) as ->.
  split; [reflexivity |].
  apply executeCaptures_effects in Hcap. destruct Hcap as (_ & _ & Hout).
  specialize (Hout _ _ eq_refl).
  destruct (BlockExecutor.fraudProofsEnabled e).
  - destruct Hout as [_ Hb]. destruct (Block.isrs block) as [l|].
    + left. exact Hb.
    + right. split; [reflexivity |]. split; [reflexivity |]. eexists. exact Hb.
  - left. apply Hout.
Qed.

(** X18.  [ApplyBlock] returns without error only for a block without
    transactions: [execute] leaves the DeliverTx slot of every transaction
    nil, and [updateState] dereferences the slots when it hashes the
    results.  When it does return without error, the block had passed
    [validate], the responses are returned, and the new state is at the
    height of the block: one above the previous height (in [int64]
    arithmetic) when that was positive, the initial height otherwise.  The
    chain id, the initial height, the version and the consensus parameters
    are those of the input state, the app hash is 32 zero bytes until
    [Commit] sets it, and [LastResultsHash] is empty. *)
Theorem ApplyBlock_success (L : Lib) (E : Env) (e : BlockExecutor.t) (h : Heap)
    (state : State.t) (block : Block.t) (hist : Trace)
    (s : State.t) (oresp : option LegacyABCIResponses.t) (h' : Heap) (block' : Block.t)
    (tr : Trace) :
  ApplyBlock L E e h state block hist = (Ok (s, oresp, None), h', block', tr) ->
  validate L h state block = Ok tt
  /\ Block.txs block = []
  /\ (exists resp, oresp = Some resp /\ LegacyABCIResponses.DeliverTxs resp = [])
  /\ State.LastBlockHeight s = Header_Height L (Block.header block)
  /\ ((0 < State.LastBlockHeight state)%Z ->
      State.LastBlockHeight s = int64_add (State.LastBlockHeight state) 1)
  /\ ((State.LastBlockHeight state <= 0)%Z ->
      State.LastBlockHeight s = State.InitialHeight state)
  /\ State.ChainID s = State.ChainID state
  /\ State.InitialHeight s = State.InitialHeight state
  /\ State.Version s = State.Version state
  /\ State.ConsensusParams s = State.ConsensusParams state
  /\ State.AppHash s = make_bytes 32
  /\ State.LastResultsHash s = [].
Proof.
  unfold ApplyBlock.
  destruct (validate L h state block) as [[]|e0|p0] eqn:Hval; [| discriminate | discriminate].
  destruct (execute L E e h state block hist) as [[[resp blk]|e1|p1] t] eqn:Hex;
    [| discriminate | discriminate].
  destruct (LegacyABCIResponses.EndBlock resp) as [endBlock|]; [| discriminate].
  destruct (State_ToProto L h state) as [protoState|e2|p2]; [| discriminate | discriminate].
  destruct (validateValidatorUpdates L _ _) as [u|e3|p3]; [| discriminate | discriminate].
  destruct (PB2TM_ValidatorUpdates L _) as [validatorUpdates|e4|p4];
    [| discriminate | discriminate].
  destruct (updateState L h state blk resp validatorUpdates) as [[[s' [e5|]]|e5|p5] h1] eqn:Hup;
    try discriminate.
  intros H. inversion H; subst; clear H.
  destruct (execute_block _ _ _ _ _ _ _ Hex) as [Hslots Hblk].
  assert (Hhd : Block.header block' = Block.header block).
  { destruct Hblk as [->|(_ & _ & roots & ->)]; reflexivity. }
  destruct (validate_Ok_height _ _ _ _ Hval) as [Hpos Hinit].
  revert Hup. unfold updateState.
  destruct (deref h (State.NextValidators state)) as [nv0|]; [| discriminate].
  destruct (updateState_nValSet L h state block' validatorUpdates nv0)
    as [[err hh]|[[[p nv] hh] changed]]; [discriminate |].
  destruct (deref hh (State.Validators state)) as [vals|]; [| discriminate].
  cbn [alloc]. rewrite Hslots.
  destruct (Block.txs block) as [|tx txs]; cbn [length repeat derefAll]; [| discriminate].
  intros H. inversion H; subst; clear H.
  cbn [State.LastBlockHeight State.ChainID State.InitialHeight State.Version
       State.ConsensusParams State.AppHash State.LastResultsHash State.zero].
  rewrite Hhd, copy_nil.
  split; [reflexivity |]. split; [reflexivity |].
  split; [exists resp; split; [reflexivity | exact Hslots] |].
  split; [reflexivity |]. split; [exact Hpos |]. split; [exact Hinit |].
  repeat split.
Qed.

Lemma ApplyBlock_success_witness :
  exists s oresp h' block' tr,
    ApplyBlock Sample.lib Cases.app_empty (Sample.executor true) Sample.heap Sample.state
      Cases.block_empty [] = (Ok (s, oresp, None), h', block', tr)
    /\ State.LastBlockHeight s = 2%Z
    /\ State.ChainID s = "c1"%string
    /\ State.LastResultsHash s = [].
Proof.
  do 5 eexists. split; [reflexivity |].
  destruct (@ApplyBlock_success Sample.lib Cases.app_empty (Sample.executor true) Sample.heap
              Sample.state Cases.block_empty [] _ _ _ _ _ eq_refl)
    as (_ & _ & _ & _ & Hh & _ & Hc & _ & _ & _ & _ & Hr).
  split; [apply Hh; reflexivity |]. split; [exact Hc | exact Hr].
Defined.

(** X19.  [ApplyBlock] leaves the block as it is, with one exception: with
    fraud proofs enabled, a block that came without ISR list may come back
    with one.  The header, the commit and the transactions are never
    written. *)
Theorem ApplyBlock_block (L : Lib) (E : Env) (e : BlockExecutor.t) (h : Heap)
    (state : State.t) (block : Block.t) (hist : Trace)
    (ret : result ApplyBlockReturn) (h' : Heap) (block' : Block.t) (tr : Trace) :
  ApplyBlock L E e h state block hist = (ret, h', block', tr) ->
  (block' = block
   \/ (BlockExecutor.fraudProofsEnabled e = true /\ Block.isrs block = None
       /\ exists roots, block' = Block.set_isrs (Some roots) block))
  /\ Block.SignedHeader block' = Block.SignedHeader block
  /\ Block.txs block' = Block.txs block.
Proof.
  intros Hrun.
  assert (Hblk : block' = block
                 \/ (BlockExecutor.fraudProofsEnabled e = true /\ Block.isrs block = None
                     /\ exists roots, block' = Block.set_isrs (Some roots) block)).
  { destruct (validate L h state block) as [[]|e0|p0] eqn:Hval.
    - destruct (execute L E e h state block hist) as [[[resp blk]|e1|p1] t] eqn:Hex;
        pose proof (ApplyBlock_after_execute _ _ _ _ _ _ _ Hval Hex) as Hafter;
        cbn beta iota in Hafter.
      + destruct Hafter as (ret0 & h0 & logs & Heq & _). rewrite Heq in Hrun.
        inversion Hrun; subst. exact (proj2 (execute_block _ _ _ _ _ _ _ Hex)).
      + rewrite Hafter in Hrun. inversion Hrun; subst. left; reflexivity.
      + rewrite Hafter in Hrun. inversion Hrun; subst. left; reflexivity.
    - unfold ApplyBlock in Hrun. rewrite Hval in Hrun. inversion Hrun; subst. left; reflexivity.
    - unfold ApplyBlock in Hrun. rewrite Hval in Hrun. inversion Hrun; subst. left; reflexivity. }
  split; [exact Hblk |].
  destruct Hblk as [->|(_ & _ & roots & ->)]; split; reflexivity.
Qed.

Lemma ApplyBlock_block_witness :
  Block.txs
    (snd (fst (ApplyBlock Sample.lib Sample.app (Sample.executor true) Sample.heap Sample.state
                 (Sample.block None) [])))
  = Block.txs (Sample.block None).
Proof.
  exact (proj2 (proj2 (@ApplyBlock_block Sample.lib Sample.app (Sample.executor true) Sample.heap
                         Sample.state (Sample.block None) [] _ _ _ _ eq_refl))).
Defined.

(** ** More on [CreateBlock] *)

(** X20.  [CreateBlock] asks the mempool once, for transactions within the
    state's [MaxBytes] and [MaxGas], and reads the clock once; it has no
    error result.  The block it returns holds exactly the reaped
    transactions and no ISR list; its header carries the executor's chain
    id and proposer address, the requested height, the clock's time as
    [uint64], the given last header hash and two 32-byte zero hashes, and
    the block carries the given commit. *)
Theorem CreateBlock_block (L : Lib) (E : Env) (e : BlockExecutor.t) (h : Heap)
    (height : Z) (lastCommit : Commit.t) (lastHeaderHash : Hash) (state : State.t)
    (hist : Trace) (out : result Block.t) (tr : Trace) :
  CreateBlock L E e h height lastCommit lastHeaderHash state hist = (out, tr) ->
  let maxBytes := BlockParams.MaxBytes (ConsensusParams.Block (State.ConsensusParams state)) in
  let maxGas := BlockParams.MaxGas (ConsensusParams.Block (State.ConsensusParams state)) in
  let mempoolTxs := mempool_ReapMaxBytesMaxGas E hist maxBytes maxGas in
  let now := time_Now_Unix E (hist ++ [MempoolReapMaxBytesMaxGas maxBytes maxGas mempoolTxs]) in
  tr = [MempoolReapMaxBytesMaxGas maxBytes maxGas mempoolTxs; TimeNowUnix now]
  /\ (forall err, out <> Err err)
  /\ (forall block, out = Ok block ->
      Block.txs block = mempoolTxs
      /\ Block.isrs block = None
      /\ Header.BaseHeader (Block.header block)
         = BaseHeader.mk (BlockExecutor.chainID e) height (to_uint64 now)
      /\ Header.ProposerAddress (Block.header block) = BlockExecutor.proposerAddress e
      /\ Header.LastHeaderHash (Block.header block) = lastHeaderHash
      /\ Header.DataHash (Block.header block) = make_bytes 32
      /\ Header.ConsensusHash (Block.header block) = make_bytes 32
      /\ SignedHeader.Commit (Block.SignedHeader block) = lastCommit).
Proof.
  unfold CreateBlock, bind, lift, ret, throw. cbn [app].
  destruct (getLastCommitHash L e lastCommit _) as [lastCommitHash|e1|p1] eqn:Hh.
  - destruct (deref h (State.Validators state)) as [vals|];
      intros H; inversion H; subst; clear H; cbn zeta.
    + split; [reflexivity |]. split; [discriminate |].
      intros block Hb. injection Hb as <-. unfold toRollkitTxs. cbn. rewrite map_id.
      repeat split.
    + split; [reflexivity |]. split; [discriminate |]. intros block Hb; discriminate.
  - exfalso. revert Hh. unfold getLastCommitHash.
    destruct (length (Commit.Signatures lastCommit) =? 1)%nat; [| discriminate].
    destruct (ABCICommit.Signatures _); discriminate.
  - intros H; inversion H; subst; clear H; cbn zeta.
    split; [reflexivity |]. split; [discriminate |]. intros block Hb; discriminate.
Qed.

Lemma CreateBlock_block_witness :
  exists block tr,
    CreateBlock Sample.lib Sample.app (Sample.executor true) Sample.heap 2%Z Sample.commit1 []
      Sample.state [] = (Ok block, tr)
    /\ Block.txs block = [[Byte.x01]; [Byte.x02]]
    /\ Block.isrs block = None.
Proof.
  do 2 eexists. split; [reflexivity |].
  destruct (@CreateBlock_block Sample.lib Sample.app (Sample.executor true) Sample.heap 2%Z
              Sample.commit1 [] Sample.state [] _ _ eq_refl) as (_ & _ & Hb).
  destruct (Hb _ eq_refl) as (Htxs & Hisrs & _).
  split; [exact Htxs | exact Hisrs].
Defined.

(** X21.  A block that [CreateBlock] builds from a state agrees with that
    state on the versions, the app hash, the last results hash and the
    aggregators hash: [validate] accepts it for the same state as soon as
    its basic validation passes and its height is the one the state
    expects. *)
Theorem CreateBlock_validates (L : Lib) (E : Env) (e : BlockExecutor.t) (h : Heap)
    (height : Z) (lastCommit : Commit.t) (lastHeaderHash : Hash) (state : State.t)
    (hist : Trace) (block : Block.t) (tr : Trace) :
  CreateBlock L E e h height lastCommit lastHeaderHash state hist = (Ok block, tr) ->
  Block_ValidateBasic L block = None ->
  Header_Height L (Block.header block)
  = (if (State.LastBlockHeight state <=? 0)%Z then State.InitialHeight state
     else int64_add (State.LastBlockHeight state) 1) ->
  validate L h state block = Ok tt.
Proof.
  unfold CreateBlock, bind, lift, ret, throw. cbn [app].
  destruct (getLastCommitHash L e lastCommit _) as [lastCommitHash|e1|p1];
    [| discriminate | discriminate].
  destruct (deref h (State.Validators state)) as [vals|] eqn:Hvals; [| discriminate].
  intros H. injection H as <- _. intros Hbasic Hheight.
  unfold validate. rewrite Hbasic, Hheight.
  cbn [Block.header Block.SignedHeader SignedHeader.Header Header.set_AggregatorsHash
       Header.set_LastHeaderHash Header.set_LastCommitHash Header.Version Header.AppHash
       Header.LastResultsHash Header.AggregatorsHash Version.App Version.Block].
  rewrite !Z.eqb_refl. cbn [negb orb].
  destruct (Z.leb_spec (State.LastBlockHeight state) 0) as [Hle|Hgt].
  - rewrite Z.eqb_refl. cbn [negb andb].
    destruct (Z.ltb_spec 0 (State.LastBlockHeight state)) as [Hlt|_]; [lia |]. cbn [andb].
    rewrite !(proj2 (bytes_Equal_true _ _) eq_refl). cbn [negb]. rewrite Hvals.
    rewrite (proj2 (bytes_Equal_true _ _) eq_refl). reflexivity.
  - cbn [andb]. rewrite Z.eqb_refl. rewrite Bool.andb_false_r.
    rewrite !(proj2 (bytes_Equal_true _ _) eq_refl). cbn [negb]. rewrite Hvals.
    rewrite (proj2 (bytes_Equal_true _ _) eq_refl). reflexivity.
Qed.

Lemma CreateBlock_validates_witness :
  exists block tr,
    CreateBlock Sample.lib Sample.app (Sample.executor true) Sample.heap 2%Z Sample.commit1 []
      Sample.state [] = (Ok block, tr)
    /\ validate Sample.lib Sample.heap Sample.state block = Ok tt.
Proof.
  do 2 eexists. split; [reflexivity |].
  refine (@CreateBlock_validates Sample.lib Sample.app (Sample.executor true) Sample.heap 2%Z
            Sample.commit1 [] Sample.state [] _ _ eq_refl _ _).
  - reflexivity.
  - reflexivity.
Defined.

(** ** The response callback *)

Lemma list_set_app {A} (l1 : list A) (x v : A) (l2 : list A) :
  list_set (l1 ++ x :: l2) (length l1) v = l1 ++ v :: l2.
Proof.
  induction l1 as [|y l1 IH]; cbn; [reflexivity |]. rewrite IH. reflexivity.
Qed.

Lemma deliverResponses_from (rs : list abci_Response) :
  forall (c : callbackLocals) (filled : list (option ExecTxResult.t)) (m : nat) (hist : Trace),
  cb_DeliverTxs c = filled ++ repeat None m ->
  txIdx c = length filled ->
  exists t,
    deliverResponses rs c hist
    = (if (length (deliveries rs) <=? m)%nat
       then Ok (mkCallbackLocals
                  (length filled + length (deliveries rs))
                  (validTxs c + validCount (deliveries rs))
                  (invalidTxs c + invalidCount (deliveries rs))
                  (filled ++ map (fun r => Some (storedResult r)) (deliveries rs)
                   ++ repeat None (m - length (deliveries rs))))
       else Panic (IndexOutOfRange (length filled + m) (length filled + m)),
       t).
Proof.
  induction rs as [|res rest IH]; intros c filled m hist Hd Hi.
  - cbn. exists []. unfold ret. rewrite !Nat.add_0_r, Nat.sub_0_r, <- Hd, <- Hi.
    destruct c; reflexivity.
  - destruct res as [txRes|]; cbn [deliverResponses deliveries flat_map app].
    2:{ unfold bind, responseCallback, ret.
        destruct (IH c filled m (hist ++ []) Hd Hi) as [t Ht].
        fold (deliveries rest). rewrite Ht. eexists. reflexivity. }
    fold (deliveries rest). cbn [length].
    unfold bind at 1. unfold responseCallback.
    set (c1 := if (ResponseDeliverTx.Code txRes =? CodeTypeOK)%Z
               then mkCallbackLocals (txIdx c) (S (validTxs c)) (invalidTxs c) (cb_DeliverTxs c)
               else mkCallbackLocals (txIdx c) (validTxs c) (S (invalidTxs c)) (cb_DeliverTxs c)).
    assert (Hc1 : exists t1,
               (if (ResponseDeliverTx.Code txRes =? CodeTypeOK)%Z
                then ret (mkCallbackLocals (txIdx c) (S (validTxs c)) (invalidTxs c)
                            (cb_DeliverTxs c))
                else (emit (Log LogDebug "Invalid tx") ;;;
                      ret (mkCallbackLocals (txIdx c) (validTxs c) (S (invalidTxs c))
                             (cb_DeliverTxs c)))) hist = (Ok c1, t1)).
    { unfold c1. destruct (ResponseDeliverTx.Code txRes =? CodeTypeOK)%Z;
        eexists; reflexivity. }
    destruct Hc1 as [t1 Hc1]. unfold bind at 1. rewrite Hc1.
    assert (Hd1 : cb_DeliverTxs c1 = filled ++ repeat None m)
      by (unfold c1; destruct (ResponseDeliverTx.Code txRes =? CodeTypeOK)%Z; exact Hd).
    assert (Hi1 : txIdx c1 = length filled)
      by (unfold c1; destruct (ResponseDeliverTx.Code txRes =? CodeTypeOK)%Z; exact Hi).
    assert (Hv1 : validTxs c1 + validCount (deliveries rest)
                  = validTxs c + validCount (txRes :: deliveries rest)
                  /\ invalidTxs c1 + invalidCount (deliveries rest)
                     = invalidTxs c + invalidCount (txRes :: deliveries rest)).
    { unfold c1, validCount, invalidCount. cbn [filter].
      destruct (ResponseDeliverTx.Code txRes =? CodeTypeOK)%Z; cbn; split; lia. }
    destruct Hv1 as [Hv1 Hv2].
    rewrite Hd1, Hi1, length_app, repeat_length.
    destruct m as [|m'].
    + destruct (Nat.ltb_spec (length filled) (length filled + 0)) as [Hlt|_]; [lia |].
      unfold throw. rewrite !Nat.add_0_r. cbn [Nat.leb]. eexists. reflexivity.
    + destruct (Nat.ltb_spec (length filled) (length filled + S m')) as [_|Hge]; [| lia].
      unfold ret at 1. cbn [repeat]. rewrite list_set_app.
      match goal with
      | |- context [deliverResponses rest ?c2 ?hs] =>
          destruct (IH c2 (filled ++ [Some (storedResult txRes)]) m' hs) as [t2 Ht2]
      end.
      * cbn [cb_DeliverTxs]. rewrite <- app_assoc. reflexivity.
      * cbn [txIdx]. rewrite length_app. cbn. lia.
      * rewrite Ht2. cbn [validTxs invalidTxs]. rewrite Hv1, Hv2.
        rewrite length_app. cbn [length map app].
        replace (length filled + 1 + length (deliveries rest))
          with (length filled + S (length (deliveries rest))) by lia.
        replace (length filled + 1 + m') with (length filled + S m') by lia.
        cbn [Nat.leb Nat.sub]. rewrite <- !app_assoc. cbn [app].
        destruct (length (deliveries rest) <=? m')%nat; eexists; reflexivity.
Qed.

(** X22.  Fed with the responses of a connection, the callback that
    [execute] installs ignores everything but the DeliverTx responses.
    While there are at most as many of them as the block has transactions,
    it stores their results in the first slots in the order of arrival and
    leaves the others nil, and its counters satisfy
    [validTxs + invalidTxs = txIdx], the number of responses seen.  One
    response more and it panics with an index out of range. *)
Theorem deliverResponses_fills (rs : list abci_Response) (n : nat) (hist : Trace) :
  let ds := deliveries rs in
  exists t,
    deliverResponses rs (callbackInit n) hist
    = (if (length ds <=? n)%nat
       then Ok (mkCallbackLocals (length ds) (validCount ds) (invalidCount ds)
                  (map (fun r => Some (storedResult r)) ds ++ repeat None (n - length ds)))
       else Panic (IndexOutOfRange n n),
       t)
    /\ validCount ds + invalidCount ds = length ds.
Proof.
  intros ds.
  destruct (@deliverResponses_from rs (callbackInit n) [] n hist eq_refl eq_refl) as [t Ht].
  exists t. split; [exact Ht |].
  unfold validCount, invalidCount. clear Ht.
  induction ds as [|d ds IH]; cbn [filter]; [reflexivity |].
  destruct (ResponseDeliverTx.Code d =? CodeTypeOK)%Z; cbn [negb length]; lia.
Qed.

(** ** Random transactions for tests *)

Lemma randomTxs_sizes (src : testfactory.Source) (size : Z) :
  (0 <= size)%Z ->
  forall (n : nat) (c : testfactory.Cursor),
  exists txs,
    testfactory.randomTxs src n size c = (Ok txs, (fst c, snd c + n * Z.to_nat size))
    /\ length txs = n
    /\ Forall (fun tx => length tx = Z.to_nat size) txs.
Proof.
  intros Hsize. induction n as [|n IH]; intros c; cbn [testfactory.randomTxs].
  - exists []. unfold testfactory.pure. cbn. rewrite Nat.add_0_r.
    destruct c; split; [reflexivity |]. split; [reflexivity | constructor].
  - unfold testfactory.andThen at 1. unfold testfactory.make_len.
    destruct (Z.ltb_spec size 0) as [Hneg|_]; [lia |].
    unfold testfactory.pure at 1. unfold testfactory.andThen at 1. unfold testfactory.Read.
    unfold testfactory.andThen.
    destruct (IH (fst c, snd c + Z.to_nat size)) as (txs & Hrun & Hlen & Hall).
    rewrite Hrun. unfold testfactory.pure. eexists. split; [| split].
    + cbn [fst snd]. f_equal. f_equal. lia.
    + cbn. rewrite Hlen. reflexivity.
    + constructor; [rewrite length_map, length_seq; reflexivity | exact Hall].
Qed.

(** X23.  For a count and a size that are not negative,
    [GenerateRandomTxs] returns [count] transactions of exactly [size]
    bytes each, and it has consumed [count * size] random bytes and no
    random integer. *)
Theorem GenerateRandomTxs_sizes (src : testfactory.Source) (count size : Z)
    (c : testfactory.Cursor) :
  (0 <= count)%Z ->
  (0 <= size)%Z ->
  exists txs,
    testfactory.GenerateRandomTxs src count size c
    = (Ok txs, (fst c, snd c + Z.to_nat count * Z.to_nat size))
    /\ Z.of_nat (length txs) = count
    /\ Forall (fun tx => Z.of_nat (length tx) = size) txs.
Proof.
  intros Hcount Hsize. unfold testfactory.GenerateRandomTxs, testfactory.andThen,
    testfactory.make_len.
  destruct (Z.ltb_spec count 0) as [Hneg|_]; [lia |]. unfold testfactory.pure.
  destruct (randomTxs_sizes src Hsize (Z.to_nat count) c) as (txs & Hrun & Hlen & Hall).
  exists txs. split; [exact Hrun |]. split; [lia |].
  eapply Forall_impl; [| exact Hall]. cbn. intros tx Htx. lia.
Qed.

Lemma GenerateRandomTxs_sizes_witness :
  exists txs,
    testfactory.GenerateRandomTxs Cases.source 3 2 (0, 0) = (Ok txs, (0, 6))
    /\ Z.of_nat (length txs) = 3%Z
    /\ Forall (fun tx => Z.of_nat (length tx) = 2%Z) txs.
Proof.
  refine (@GenerateRandomTxs_sizes Cases.source 3 2 (0, 0) _ _); lia.
Defined.

(** X24.  [GenerateRandomTxs] panics on a negative count, and on a
    negative size as soon as there is a transaction to make; with a count
    of 0 nothing is made and the size is not looked at. *)
Theorem GenerateRandomTxs_edge (src : testfactory.Source) (count size : Z)
    (c : testfactory.Cursor) :
  ((count < 0)%Z ->
   testfactory.GenerateRandomTxs src count size c
   = (Panic (PanicString "makeslice: len out of range"), c))
  /\ (count = 0%Z -> testfactory.GenerateRandomTxs src count size c = (Ok [], c))
  /\ ((0 < count)%Z -> (size < 0)%Z ->
      testfactory.GenerateRandomTxs src count size c
      = (Panic (PanicString "makeslice: len out of range"), c)).
Proof.
  unfold testfactory.GenerateRandomTxs, testfactory.andThen, testfactory.make_len.
  split; [| split].
  - intros Hneg. destruct (Z.ltb_spec count 0); [reflexivity | lia].
  - intros ->. reflexivity.
  - intros Hpos Hneg. destruct (Z.ltb_spec count 0); [lia |]. unfold testfactory.pure.
    destruct (Z.to_nat count) as [|n] eqn:Hn; [lia |].
    cbn [testfactory.randomTxs]. unfold testfactory.andThen, testfactory.make_len.
    destruct (Z.ltb_spec size 0); [reflexivity | lia].
Qed.

Lemma GenerateRandomTxs_sizes_aux (src : testfactory.Source) (size : Z)
    (c : testfactory.Cursor) :
  (0 <= size)%Z ->
  exists tx,
    testfactory.GenerateRandomTxs src 1 size c = (Ok [tx], (fst c, snd c + Z.to_nat size))
    /\ Z.of_nat (length tx) = size.
Proof.
  intros Hsize. unfold testfactory.GenerateRandomTxs, testfactory.andThen, testfactory.make_len.
  change (1 <? 0)%Z with false. cbn iota. unfold testfactory.pure.
  change (Z.to_nat 1) with 1.
  destruct (randomTxs_sizes src Hsize 1 c) as (txs & Hrun & Hlen & Hall).
  rewrite Hrun. destruct txs as [|tx [|tx' txs]]; try discriminate.
  exists tx. split; [f_equal; f_equal; lia |].
  inversion Hall; subst. lia.
Qed.

Lemma randomlySizedTxs_sizes (src : testfactory.Source) (maxSize : Z) :
  (0 < maxSize)%Z ->
  forall (n : nat) (c : testfactory.Cursor),
  exists txs c',
    testfactory.randomlySizedTxs src n maxSize c = (Ok txs, c')
    /\ fst c' = fst c + n
    /\ length txs = n
    /\ Forall (fun tx => (1 <= Z.of_nat (length tx) <= Z.max 1 (maxSize - 1))%Z) txs.
Proof.
  intros Hmax. induction n as [|n IH]; intros c; cbn [testfactory.randomlySizedTxs].
  - exists [], c. unfold testfactory.pure. split; [reflexivity |].
    split; [lia |]. split; [reflexivity | constructor].
  - unfold testfactory.andThen at 1. unfold testfactory.Intn.
    destruct (Z.leb_spec maxSize 0) as [Hle|_]; [lia |].
    set (d := (testfactory.draws src (fst c) mod maxSize)%Z).
    assert (Hd : (0 <= d < maxSize)%Z) by (apply Z.mod_pos_bound; exact Hmax).
    set (size := if (d =? 0)%Z then 1%Z else d).
    assert (Hsize : (1 <= size <= Z.max 1 (maxSize - 1))%Z).
    { unfold size. destruct (Z.eqb_spec d 0); lia. }
    unfold testfactory.andThen at 1.
    destruct (@GenerateRandomTxs_sizes_aux src size (S (fst c), snd c)) as (tx & Hone & Htx);
      [lia |].
    rewrite Hone.
    unfold testfactory.andThen.
    match goal with
    | |- context [testfactory.randomlySizedTxs src n maxSize ?c1] =>
        destruct (IH c1) as (txs & c' & Hrun & Hfst & Hlen & Hall)
    end.
    rewrite Hrun. unfold testfactory.pure. exists (tx :: txs), c'.
    split; [reflexivity |]. split; [rewrite Hfst; cbn [fst]; lia |].
    split; [cbn; rewrite Hlen; reflexivity |].
    constructor; [lia | exact Hall].
Qed.

(** X25.  For a count that is not negative and a positive [maxSize],
    [GenerateRandomlySizedTxs] returns [count] transactions, none of them
    empty: a size of 0 is replaced by 1.  Every transaction is shorter than
    [maxSize], except that with [maxSize = 1] every transaction has one
    byte.  One random integer is consumed per transaction. *)
Theorem GenerateRandomlySizedTxs_sizes (src : testfactory.Source) (count maxSize : Z)
    (c : testfactory.Cursor) :
  (0 <= count)%Z ->
  (0 < maxSize)%Z ->
  exists txs c',
    testfactory.GenerateRandomlySizedTxs src count maxSize c = (Ok txs, c')
    /\ Z.of_nat (length txs) = count
    /\ Forall (fun tx => (1 <= Z.of_nat (length tx))%Z
                         /\ ((Z.of_nat (length tx) < maxSize)%Z
                             \/ (maxSize = 1%Z /\ length tx = 1))) txs
    /\ Z.of_nat (fst c') = (Z.of_nat (fst c) + count)%Z.
Proof.
  intros Hcount Hmax. unfold testfactory.GenerateRandomlySizedTxs, testfactory.andThen,
    testfactory.make_len.
  destruct (Z.ltb_spec count 0) as [Hneg|_]; [lia |]. unfold testfactory.pure.
  destruct (randomlySizedTxs_sizes src Hmax (Z.to_nat count) c)
    as (txs & c' & Hrun & Hfst & Hlen & Hall).
  exists txs, c'. split; [exact Hrun |]. split; [lia |]. split; [| lia].
  eapply Forall_impl; [| exact Hall]. cbn. intros tx Htx. split; [lia |].
  destruct (Z.eq_dec maxSize 1) as [->|Hne]; [right; split; [reflexivity | lia] | left; lia].
Qed.

Lemma GenerateRandomlySizedTxs_sizes_witness :
  exists txs c',
    testfactory.GenerateRandomlySizedTxs Cases.source 4 3 (0, 0) = (Ok txs, c')
    /\ Z.of_nat (length txs) = 4%Z
    /\ Forall (fun tx => (1 <= Z.of_nat (length tx))%Z
                         /\ ((Z.of_nat (length tx) < 3)%Z
                             \/ (3%Z = 1%Z /\ length tx = 1))) txs
    /\ Z.of_nat (fst c') = 4%Z.
Proof.
  refine (@GenerateRandomlySizedTxs_sizes Cases.source 4 3 (0, 0) _ _); lia.
Defined.

(** X26.  [GenerateRandomlySizedTxs] panics on a negative count, and, when
    there is a transaction to make, on a [maxSize] that is not positive:
    [Intn] refuses it before any byte is drawn.  With a count of 0 it
    returns no transaction and [maxSize] is not looked at. *)
Theorem GenerateRandomlySizedTxs_edge (src : testfactory.Source) (count maxSize : Z)
    (c : testfactory.Cursor) :
  ((count < 0)%Z ->
   testfactory.GenerateRandomlySizedTxs src count maxSize c
   = (Panic (PanicString "makeslice: len out of range"), c))
  /\ (count = 0%Z -> testfactory.GenerateRandomlySizedTxs src count maxSize c = (Ok [], c))
  /\ ((0 < count)%Z -> (maxSize <= 0)%Z ->
      testfactory.GenerateRandomlySizedTxs src count maxSize c
      = (Panic (PanicString "invalid argument to Intn"), c)).
Proof.
  unfold testfactory.GenerateRandomlySizedTxs, testfactory.andThen, testfactory.make_len.
  split; [| split].
  - intros Hneg. destruct (Z.ltb_spec count 0); [reflexivity | lia].
  - intros ->. reflexivity.
  - intros Hpos Hmax. destruct (Z.ltb_spec count 0); [lia |]. unfold testfactory.pure.
    destruct (Z.to_nat count) as [|n] eqn:Hn; [lia |].
    cbn [testfactory.randomlySizedTxs]. unfold testfactory.andThen, testfactory.Intn.
    destruct (Z.leb_spec maxSize 0); [reflexivity | lia].
Qed.
